(** * Deerma water purifier integration: packet codec, transport session,
      command translator and data coordinator.

    A shallow embedding of [custom_components/mqtt_client.py] and
    [coordinator.py].  Python integers are [Z], [bytes] objects are lists of
    [Byte.byte], [str] objects are Rocq strings (the UTF-8 text), dictionaries
    held by the coordinator are [gmap]s, JSON documents keep the order of
    their members.  Code that may raise runs in an exception monad; code that
    mutates the client or the coordinator threads a [world]. *)

From Stdlib Require Import ZArith Lia Strings.Byte Floats.SpecFloat.
From stdpp Require Import base option gmap strings list fin_maps pretty.

Set Warnings "-register-all".
#[local] Open Scope Z_scope.

(** ** Python values and exceptions *)

Module Py.

(** The exception classes the embedded code can meet.  Every one of them is
    a subclass of [Exception], so [except Exception] catches them all. *)
Inductive exn :=
| IndexError | ValueError | TypeError | AttributeError
| UnicodeDecodeError | JSONDecodeError
| ConnectionClosedOK | ConnectionClosedError | OSError | ClientError
| UpdateFailed.

(** What running a piece of code gives: a value, a raised exception, or
    [OutOfFuel] when a [while] loop was cut off by its fuel bound (the
    lemmas on each loop say when that cannot happen). *)
Inductive result (A : Type) :=
| Ok (a : A)
| Raise (e : exn)
| OutOfFuel.
Arguments Ok {A} a.
Arguments Raise {A} e.
Arguments OutOfFuel {A}.

Definition bind {A B} (r : result A) (k : A → result B) : result B :=
  match r with
  | Ok a => k a
  | Raise e => Raise e
  | OutOfFuel => OutOfFuel
  end.

#[global] Instance result_ret : MRet result := @Ok.
#[global] Instance result_bind : MBind result := λ A B k r, bind r k.

Abbreviation bytes := (list byte).

(** [len(x)] *)
Definition len {A} (l : list A) : Z := Z.of_nat (length l).

(** The integer a byte stands for, [0..255]. *)
Definition byte_val (b : byte) : Z := Z.of_N (Byte.to_N b).

(** Storing an integer into a [bytes]/[bytearray]: [ValueError] unless it is
    in [range(256)]. *)
Definition byte_of_int (z : Z) : result byte :=
  if (0 <=? z) && (z <? 256) then
    match Byte.of_N (Z.to_N z) with
    | Some b => Ok b
    | None => Raise ValueError
    end
  else Raise ValueError.

(** [bytes([z1, ..., zn])] *)
Fixpoint bytes_of_ints (zs : list Z) : result bytes :=
  match zs with
  | [] => Ok []
  | z :: zs' =>
      b ← byte_of_int z;
      bs ← bytes_of_ints zs';
      Ok (b :: bs)
  end.

(** [seq[i]] with Python's negative indices. *)
Definition getitem (packet : bytes) (i : Z) : result Z :=
  let j := if i <? 0 then i + len packet else i in
  if (0 <=? j) && (j <? len packet) then
    match packet !! Z.to_nat j with
    | Some b => Ok (byte_val b)
    | None => Raise IndexError
    end
  else Raise IndexError.

(** How a slice bound is read: negative bounds count from the end, and
    every bound is clamped to [0..len]. *)
Definition slice_bound {A} (l : list A) (i : Z) : Z :=
  if i <? 0 then Z.max (i + len l) 0 else Z.min i (len l).

(** [seq[lo:hi]] *)
Definition slice {A} (l : list A) (lo hi : Z) : list A :=
  let lo' := slice_bound l lo in
  let hi' := slice_bound l hi in
  take (Z.to_nat (hi' - lo')) (drop (Z.to_nat lo') l).

(** [seq[lo:]] *)
Definition slice_from {A} (l : list A) (lo : Z) : list A :=
  drop (Z.to_nat (slice_bound l lo)) l.

(** [s.encode("utf-8")]: a [str] is held as its UTF-8 text. *)
Definition encode_utf8 (s : string) : bytes := String.list_byte_of_string s.

(** Python numbers that are not JSON documents: the arguments of
    [asyncio.sleep]. *)
Inductive number :=
| Int (n : Z)
| Float (f : spec_float).

(** JSON documents as [json.loads] returns them and [json.dumps] takes them:
    [None], [bool], [int], [float], [str], [list] and [dict] (members in
    insertion order). *)
Inductive json :=
| JNull
| JBool (b : bool)
| JInt (n : Z)
| JFloat (f : spec_float)
| JStr (s : string)
| JList (l : list json)
| JDict (d : list (string * json)).

(** Truth value of an object: [if x:]. *)
Definition truthy (v : json) : bool :=
  match v with
  | JNull => false
  | JBool b => b
  | JInt n => negb (n =? 0)
  | JFloat (S754_zero _) => false
  | JFloat _ => true
  | JStr s => negb (String.eqb s "")
  | JList l => match l with [] => false | _ => true end
  | JDict d => match d with [] => false | _ => true end
  end.

(** [d.get(key)] on the members of a dict. *)
Fixpoint assoc (key : string) (d : list (string * json)) : option json :=
  match d with
  | [] => None
  | (k, v) :: d' => if String.eqb k key then Some v else assoc key d'
  end.

(** [obj.get(key, default)]: only dicts have [get]. *)
Definition get (obj : json) (key : string) (default : json) : result json :=
  match obj with
  | JDict d => Ok (match assoc key d with Some v => v | None => default end)
  | _ => Raise AttributeError
  end.

(** [key in obj] for a dict [obj] (the one case the client meets: it has
    called [obj.get] before). *)
Definition has_key (obj : json) (key : string) : result bool :=
  match obj with
  | JDict d => Ok (bool_decide (is_Some (assoc key d)))
  | _ => Raise TypeError
  end.

(** The mapping a dict is, as [{**obj}] reads it; unpacking anything but a
    mapping is a [TypeError]. *)
Definition mapping (obj : json) : result (gmap string json) :=
  match obj with
  | JDict d => Ok (list_to_map d)
  | _ => Raise TypeError
  end.

End Py.
Import Py.

(** ** PacketCodec: the frame encoders and decoders of [DeermaMQTTClient] *)

(** [_encode_mqtt_remaining_length]: the body of [while True], run at most
    [fuel] times. *)
Fixpoint _encode_mqtt_remaining_length_loop
    (fuel : nat) (length : Z) (encoded : bytes) : result bytes :=
  match fuel with
  | O => OutOfFuel
  | S fuel' =>
      let byte := length `mod` 128 in
      let length := length `div` 128 in
      let byte := if 0 <? length then Z.lor byte 0x80 else byte in
      b ← byte_of_int byte;
      let encoded := encoded ++ [b] in
      if length =? 0 then Ok encoded
      else _encode_mqtt_remaining_length_loop fuel' length encoded
  end.

(** One pass of the loop divides [length] by 128, so a pass per bit of
    [length] (and one more) is fuel enough when [length] is not negative. *)
Definition _encode_mqtt_remaining_length (length : Z) : result bytes :=
  _encode_mqtt_remaining_length_loop (S (Z.to_nat (Z.log2 length))) length [].

(** [_parse_mqtt_remaining_length]: the [while] loop, with its local
    variables as arguments. *)
Fixpoint _parse_mqtt_remaining_length_loop
    (fuel : nat) (packet : bytes) (start_pos pos remaining_length multiplier : Z)
    : result (Z * Z) :=
  if (pos <? len packet) && (pos <? start_pos + 4) then
    match fuel with
    | O => OutOfFuel
    | S fuel' =>
        byte ← getitem packet pos;
        let remaining_length := remaining_length + Z.land byte 0x7F * multiplier in
        let multiplier := multiplier * 128 in
        let pos := pos + 1 in
        if Z.land byte 0x80 =? 0 then Ok (remaining_length, pos)
        else _parse_mqtt_remaining_length_loop
               fuel' packet start_pos pos remaining_length multiplier
    end
  else Ok (remaining_length, pos).

Definition _parse_mqtt_remaining_length (packet : bytes) (start_pos : Z)
    : result (Z * Z) :=
  _parse_mqtt_remaining_length_loop 4 packet start_pos start_pos 0 1.

(** The library calls the client makes on text: their code is Python's, not
    the client's, so the client is embedded over any implementation of them.
    Each of them terminates: it returns a value or raises. *)
Class PyLib := {
  (** [json.loads(s)] *)
  json_loads : string → json + exn;
  (** [json.dumps(obj, separators=(',', ':'))] *)
  json_dumps : json → string;
  (** [int(s)] *)
  int_of_str : string → Z + exn;
  (** [b.decode("utf-8")] *)
  decode_utf8 : bytes → string + exn;
  (** [b.decode("utf-8", errors="ignore")] *)
  decode_utf8_ignore : bytes → string;
}.

Definition call {A} (r : A + exn) : result A :=
  match r with
  | inl a => Ok a
  | inr e => Raise e
  end.

(** [needle in s] on [str]. *)
Fixpoint contains (needle s : string) : bool :=
  String.prefix needle s ||
  match s with
  | EmptyString => false
  | String _ s' => contains needle s'
  end.

Section PacketCodec.
Context `{!PyLib}.

Definition _build_mqtt_connect_packet (client_id : string) : result bytes :=
  let client_id_bytes := encode_utf8 client_id in
  let protocol_name := encode_utf8 "MQTT" in
  let remaining_length :=
    2 + len protocol_name + 1 + 1 + 2 + 2 + len client_id_bytes in
  remaining_length_bytes ← _encode_mqtt_remaining_length remaining_length;
  type_and_flags ← bytes_of_ints [0x10];
  let fixed_header := type_and_flags ++ remaining_length_bytes in
  protocol_name_length ←
    bytes_of_ints [Z.shiftr (len protocol_name) 8; Z.land (len protocol_name) 0xFF];
  protocol_level ← bytes_of_ints [0x04];
  connect_flags ← bytes_of_ints [0x02];
  keep_alive ← bytes_of_ints [0x00; 0x3C];
  client_id_length ←
    bytes_of_ints [Z.shiftr (len client_id_bytes) 8; Z.land (len client_id_bytes) 0xFF];
  Ok (fixed_header ++ protocol_name_length ++ protocol_name ++ protocol_level
      ++ connect_flags ++ keep_alive ++ client_id_length ++ client_id_bytes).

Definition _build_mqtt_subscribe_packet (topic : string) (packet_id : Z)
    : result bytes :=
  let topic_bytes := encode_utf8 topic in
  let remaining_length := 2 + 2 + len topic_bytes + 1 in
  remaining_length_bytes ← _encode_mqtt_remaining_length remaining_length;
  type_and_flags ← bytes_of_ints [0x82];
  let fixed_header := type_and_flags ++ remaining_length_bytes in
  packet_id_bytes ← bytes_of_ints [Z.shiftr packet_id 8; Z.land packet_id 0xFF];
  topic_length ←
    bytes_of_ints [Z.shiftr (len topic_bytes) 8; Z.land (len topic_bytes) 0xFF];
  qos ← bytes_of_ints [0x01];
  Ok (fixed_header ++ packet_id_bytes ++ topic_length ++ topic_bytes ++ qos).

Definition _build_mqtt_publish_packet (topic : string) (payload : json)
    (packet_id : Z) : result bytes :=
  let payload_str := json_dumps payload in
  let payload_bytes := encode_utf8 payload_str in
  let topic_bytes := encode_utf8 topic in
  let remaining_length := 2 + len topic_bytes + 2 + len payload_bytes in
  remaining_length_bytes ← _encode_mqtt_remaining_length remaining_length;
  type_and_flags ← bytes_of_ints [0x32];
  let fixed_header := type_and_flags ++ remaining_length_bytes in
  topic_length ←
    bytes_of_ints [Z.shiftr (len topic_bytes) 8; Z.land (len topic_bytes) 0xFF];
  packet_id_bytes ← bytes_of_ints [Z.shiftr packet_id 8; Z.land packet_id 0xFF];
  Ok (fixed_header ++ topic_length ++ topic_bytes ++ packet_id_bytes
      ++ payload_bytes).

(** [_parse_mqtt_publish_packet] returns the pair [(topic, payload_bytes)],
    or [(None, None)]. *)
Definition _parse_mqtt_publish_packet (packet : bytes)
    : result (option string * option bytes) :=
  if len packet <? 4 then Ok (None, None)
  else
    '(remaining_length, pos) ← _parse_mqtt_remaining_length packet 1;
    if (len packet <? pos + 2) || (remaining_length =? 0) then Ok (None, None)
    else
      hi ← getitem packet pos;
      lo ← getitem packet (pos + 1);
      let topic_length := Z.lor (Z.shiftl hi 8) lo in
      let pos := pos + 2 in
      if len packet <? pos + topic_length then Ok (None, None)
      else
        let topic := decode_utf8_ignore (slice packet pos (pos + topic_length)) in
        let pos := pos + topic_length in
        first ← getitem packet 0;
        let qos := Z.shiftr (Z.land first 0x06) 1 in
        if (1 <=? qos) && (len packet <? pos + 2) then Ok (None, None)
        else
          let pos := if 1 <=? qos then pos + 2 else pos in
          let payload_length :=
            remaining_length - 2 - topic_length - (if 1 <=? qos then 2 else 0) in
          let payload_bytes :=
            if (payload_length <? 0) || (len packet <? pos + payload_length)
            then slice_from packet pos
            else slice packet pos (pos + payload_length) in
          Ok (Some topic, Some payload_bytes).

End PacketCodec.

(** ** The state the client and the coordinator work on *)

Inductive log_level := DEBUG | INFO | WARNING | ERROR.

(** What the code does to the outside, in the order it does it. *)
Inductive event :=
| Log (level : log_level) (msg : string)   (* [_LOGGER.<level>(msg, ...)] *)
| Sleep (seconds : number)                 (* [await asyncio.sleep(seconds)] *)
| Opened (url : string)                    (* [websockets.connect(url, ...)] returned *)
| Sent (frame : bytes)                     (* [websocket.send(frame)] returned *)
| Closed                                   (* [websocket.close()] returned *)
| TaskCreated                              (* [hass.async_create_task(self._listen_messages())] *)
| TaskCancelled                            (* [self._listen_task.cancel()] *)
| ListenersUpdated.                        (* the coordinator told its listeners *)

(** What the outside answers at a given time. *)
Record environment := {
  (** what [_get_mqtt_config_from_api] returns (a dict, [{}] on any failure) *)
  mqtt_config_response : json;
  (** the exception [websockets.connect] raises, if it does *)
  ws_connect_error : option exn;
  (** the exception [websocket.send] raises, if it does *)
  ws_send_error : option exn;
  (** the exception [websocket.close] raises, if it does *)
  ws_close_error : option exn;
  (** what [api_client.get_water_data] returns or raises *)
  water_data_response : json + exn;
  (** what [api_client.get_device_status] returns or raises *)
  device_status_response : json + exn;
}.

Inductive task := TaskRunning | TaskDone.

(** What [websocket.recv()] returns: a binary or a text message. *)
Inductive message :=
| Binary (b : bytes)
| Text (s : string).

Record world := {
  (** [DeermaWaterCoordinator]: [self.data], [self.device_id] and the
      [last_update_success] flag it inherits *)
  data : option (gmap string json);
  coordinator_device_id : option string;
  last_update_success : bool;
  (** [DeermaMQTTClient] *)
  device_id : string;
  connected : bool;
  _websocket : option string;
  _listen_task : option task;
  _listening : bool;
  (** the outside: its answers now, and after each sleep to come; the
      messages the open connection still has to deliver, in order, each a
      message or the exception [recv] raises *)
  env : environment;
  upcoming : list environment;
  inbox : list (message + exn);
  trace : list event;
}.

Definition set_data (d : option (gmap string json)) (w : world) : world :=
  {| data := d;
     coordinator_device_id := coordinator_device_id w;
     last_update_success := last_update_success w;
     device_id := device_id w;
     connected := connected w;
     _websocket := _websocket w;
     _listen_task := _listen_task w;
     _listening := _listening w;
     env := env w;
     upcoming := upcoming w;
     inbox := inbox w;
     trace := trace w |}.

Definition set_last_update_success (b : bool) (w : world) : world :=
  {| data := data w;
     coordinator_device_id := coordinator_device_id w;
     last_update_success := b;
     device_id := device_id w;
     connected := connected w;
     _websocket := _websocket w;
     _listen_task := _listen_task w;
     _listening := _listening w;
     env := env w;
     upcoming := upcoming w;
     inbox := inbox w;
     trace := trace w |}.

Definition set_connected (b : bool) (w : world) : world :=
  {| data := data w;
     coordinator_device_id := coordinator_device_id w;
     last_update_success := last_update_success w;
     device_id := device_id w;
     connected := b;
     _websocket := _websocket w;
     _listen_task := _listen_task w;
     _listening := _listening w;
     env := env w;
     upcoming := upcoming w;
     inbox := inbox w;
     trace := trace w |}.

Definition set_websocket (ws : option string) (w : world) : world :=
  {| data := data w;
     coordinator_device_id := coordinator_device_id w;
     last_update_success := last_update_success w;
     device_id := device_id w;
     connected := connected w;
     _websocket := ws;
     _listen_task := _listen_task w;
     _listening := _listening w;
     env := env w;
     upcoming := upcoming w;
     inbox := inbox w;
     trace := trace w |}.

Definition set_listen_task (t : option task) (w : world) : world :=
  {| data := data w;
     coordinator_device_id := coordinator_device_id w;
     last_update_success := last_update_success w;
     device_id := device_id w;
     connected := connected w;
     _websocket := _websocket w;
     _listen_task := t;
     _listening := _listening w;
     env := env w;
     upcoming := upcoming w;
     inbox := inbox w;
     trace := trace w |}.

Definition set_listening (b : bool) (w : world) : world :=
  {| data := data w;
     coordinator_device_id := coordinator_device_id w;
     last_update_success := last_update_success w;
     device_id := device_id w;
     connected := connected w;
     _websocket := _websocket w;
     _listen_task := _listen_task w;
     _listening := b;
     env := env w;
     upcoming := upcoming w;
     inbox := inbox w;
     trace := trace w |}.

Definition set_inbox (msgs : list (message + exn)) (w : world) : world :=
  {| data := data w;
     coordinator_device_id := coordinator_device_id w;
     last_update_success := last_update_success w;
     device_id := device_id w;
     connected := connected w;
     _websocket := _websocket w;
     _listen_task := _listen_task w;
     _listening := _listening w;
     env := env w;
     upcoming := upcoming w;
     inbox := msgs;
     trace := trace w |}.

Definition emit (e : event) (w : world) : world :=
  {| data := data w;
     coordinator_device_id := coordinator_device_id w;
     last_update_success := last_update_success w;
     device_id := device_id w;
     connected := connected w;
     _websocket := _websocket w;
     _listen_task := _listen_task w;
     _listening := _listening w;
     env := env w;
     upcoming := upcoming w;
     inbox := inbox w;
     trace := trace w ++ [e] |}.

(** Time passes: the outside moves on to its next answers, if any are
    scripted. *)
Definition advance (w : world) : world :=
  match upcoming w with
  | [] => w
  | e :: es =>
      {| data := data w;
         coordinator_device_id := coordinator_device_id w;
         last_update_success := last_update_success w;
         device_id := device_id w;
         connected := connected w;
         _websocket := _websocket w;
         _listen_task := _listen_task w;
         _listening := _listening w;
         env := e;
         upcoming := es;
         inbox := inbox w;
         trace := trace w |}
  end.

(** *** Stateful code: a world in, a result and a world out *)

Definition M (A : Type) : Type := world → result A * world.

Definition ret {A} (a : A) : M A := λ w, (Ok a, w).

Definition mbindM {A B} (m : M A) (k : A → M B) : M B := λ w,
  match m w with
  | (Ok a, w') => k a w'
  | (Raise e, w') => (Raise e, w')
  | (OutOfFuel, w') => (OutOfFuel, w')
  end.

#[global] Instance M_ret : MRet M := @ret.
#[global] Instance M_bind : MBind M := λ A B k m, mbindM m k.

(** [raise e] *)
Definition raise {A} (e : exn) : M A := λ w, (Raise e, w).

(** A loop cut off by its fuel bound. *)
Definition out_of_fuel {A} : M A := λ w, (OutOfFuel, w).

(** A pure computation inside stateful code. *)
Definition pure {A} (r : result A) : M A := λ w, (r, w).

(** [try: body / except Exception as err: handler] *)
Definition try_except {A} (body : M A) (handler : exn → M A) : M A := λ w,
  match body w with
  | (Raise e, w') => handler e w'
  | r => r
  end.

(** [try: body / finally: cleanup] *)
Definition try_finally {A} (body : M A) (cleanup : M unit) : M A := λ w,
  match body w with
  | (OutOfFuel, w') => (OutOfFuel, w')
  | (r, w') =>
      match cleanup w' with
      | (Ok _, w'') => (r, w'')
      | (Raise e, w'') => (Raise e, w'')
      | (OutOfFuel, w'') => (OutOfFuel, w'')
      end
  end.

Definition gets {A} (f : world → A) : M A := λ w, (Ok (f w), w).
Definition modify (f : world → world) : M unit := λ w, (Ok (), f w).

Definition log (level : log_level) (msg : string) : M unit :=
  modify (emit (Log level msg)).

(** Awaiting an answer of the outside. *)
Definition await {A} (answer : environment → A + exn) : M A :=
  λ w, (call (answer (env w)), w).

(** [await asyncio.sleep(seconds)] *)
Definition sleep (seconds : number) : M unit :=
  modify (λ w, advance (emit (Sleep seconds) w)).

(** ** TransportSession: inbound frames *)

Section Inbound.
Context `{!PyLib}.
(** [self.callback], given to the client when it is built. *)
Variable callback : json → M unit.

(** The [try] block of [_handle_mqtt_packet]. *)
Definition _handle_publish_payload (payload_bytes : bytes) : M unit :=
  payload_str ← pure (call (decode_utf8 payload_bytes));
  payload_data ← pure (call (json_loads payload_str));
  state ← pure (get payload_data "state" (JDict []));
  reported ← pure (get state "reported" (JDict []));
  if truthy reported then
    log DEBUG "设备状态更新 (reported): %s";;
    callback reported
  else
    has_desired ← pure (has_key state "desired");
    if (has_desired : bool)
    then log DEBUG "收到 desired 状态，等待 reported 状态更新"
    else ret ().

Definition _handle_mqtt_packet (packet : bytes) : M unit :=
  if len packet <? 2 then ret ()
  else
    first ← pure (getitem packet 0);
    let packet_type := Z.shiftr (Z.land first 0xF0) 4 in
    if packet_type =? 0x02 then
      if 4 <=? len packet then
        connack_code ← pure (getitem packet 3);
        if connack_code =? 0 then log INFO "MQTT 连接已确认"
        else log ERROR "MQTT 连接失败，CONNACK 代码: 0x%02X"
      else ret ()
    else if packet_type =? 0x09 then log DEBUG "MQTT 订阅成功"
    else if packet_type =? 0x03 then
      '(topic, payload_bytes) ← pure (_parse_mqtt_publish_packet packet);
      match topic, payload_bytes with
      | Some topic, Some payload_bytes =>
          if negb (String.eqb topic "") && negb (bool_decide (payload_bytes = [])) then
            log DEBUG "收到 PUBLISH 消息，主题: %s";;
            if contains "/shadow/get/accepted" topic
               || contains "/shadow/update/accepted" topic
            then
              try_except (_handle_publish_payload payload_bytes)
                (λ err, log ERROR "解析 PUBLISH payload 失败: %s")
            else ret ()
          else ret ()
      | _, _ => ret ()
      end
    else ret ().

End Inbound.

(** ** DataFusionCoordinator: [DeermaWaterCoordinator] *)

(** [self.data or {}] *)
Definition data_or_empty (w : world) : gmap string json := default ∅ (data w).

(** [if self.data:] *)
Definition data_truthy (w : world) : bool :=
  match data w with
  | Some d => negb (bool_decide (d = ∅))
  | None => false
  end.

(** [DataUpdateCoordinator.async_set_updated_data], as far as the
    coordinator relies on it: the data is replaced and the listeners are
    told. *)
Definition async_set_updated_data (d : gmap string json) : M unit :=
  modify (set_data (Some d));;
  modify (set_last_update_success true);;
  modify (emit ListenersUpdated).

Definition _mqtt_callback (payload : json) : M unit :=
  current_data ← gets data_or_empty;
  payload_items ← pure (mapping payload);
  let merged_data := payload_items ∪ current_data in
  async_set_updated_data merged_data.

Definition _async_update_data : M (gmap string json) :=
  try_except
    (device ← gets coordinator_device_id;
     match device with
     | Some device_id =>
         if String.eqb device_id "" then gets data_or_empty
         else
           existing_data ← gets data_or_empty;
           let mqtt_data :=
             filter (λ kv : string * json, kv.1 ∉ ["water_data"; "device_id"])
                    existing_data in
           water_data ← await water_data_response;
           status ← await device_status_response;
           status_items ← pure (mapping status);
           ret (mqtt_data ∪ (status_items ∪
                  (<["device_id" := JStr device_id]>
                     (<["water_data" := water_data]> ∅))))
     | None => gets data_or_empty
     end)
    (λ err,
       has_data ← gets data_truthy;
       if (has_data : bool) then
         log WARNING "Error updating data, preserving existing data: %s";;
         gets data_or_empty
       else raise UpdateFailed).

(** [DataUpdateCoordinator.async_refresh], as far as the coordinator relies
    on it: the result of [_async_update_data] becomes [self.data]; when it
    raises, the data stays and [last_update_success] drops; the listeners are
    told either way. *)
Definition async_refresh : M unit :=
  try_except
    (d ← _async_update_data;
     modify (set_data (Some d));;
     modify (set_last_update_success true))
    (λ err,
       log ERROR "Error fetching %s data: %s";;
       modify (set_last_update_success false));;
  modify (emit ListenersUpdated).

(** ** TransportSession and ShadowCommandTranslator: [DeermaMQTTClient] *)

(** The topics set up by [__init__]. *)
Definition command_topic (w : world) : string :=
  "$aws/things/" +:+ device_id w +:+ "/shadow/update".
Definition state_topic (w : world) : string :=
  "$aws/things/" +:+ device_id w +:+ "/shadow/get/accepted".
Definition response_topic (w : world) : string :=
  "$aws/things/" +:+ device_id w +:+ "/shadow/update/accepted".
Definition get_topic (w : world) : string :=
  "$aws/things/" +:+ device_id w +:+ "/shadow/get".

(** [await websockets.connect(url, ...)] *)
Definition ws_connect (url : string) : M unit := λ w,
  match ws_connect_error (env w) with
  | Some e => (Raise e, w)
  | None => (Ok (), emit (Opened url) (set_websocket (Some url) w))
  end.

(** [await self._websocket.send(frame)]; [None] has no [send]. *)
Definition ws_send (frame : bytes) : M unit := λ w,
  match _websocket w with
  | None => (Raise AttributeError, w)
  | Some _ =>
      match ws_send_error (env w) with
      | Some e => (Raise e, w)
      | None => (Ok (), emit (Sent frame) w)
      end
  end.

(** [await self._websocket.close()] *)
Definition ws_close : M unit := λ w,
  match _websocket w with
  | None => (Raise AttributeError, w)
  | Some _ =>
      match ws_close_error (env w) with
      | Some e => (Raise e, w)
      | None => (Ok (), emit Closed w)
      end
  end.

(** [await self._websocket.recv()]: the next message of the connection;
    when it has none left the peer has closed it. *)
Definition ws_recv : M message := λ w,
  match _websocket w with
  | None => (Raise AttributeError, w)
  | Some _ =>
      match inbox w with
      | [] => (Raise ConnectionClosedOK, w)
      | m :: rest => (call m, set_inbox rest w)
      end
  end.

(** [if self._listen_task and not self._listen_task.done(): cancel it] *)
Definition cancel_listen_task : M unit :=
  t ← gets _listen_task;
  match t with
  | Some TaskRunning => modify (emit TaskCancelled)
  | _ => ret ()
  end.

(** The float [0.5]. *)
Definition half : spec_float := S754_finite false 1 (-1).

Section Session.
Context `{!PyLib}.

Definition _request_device_state : M unit :=
  c ← gets connected;
  ws ← gets _websocket;
  if negb c || negb (bool_decide (is_Some ws)) then ret ()
  else
    try_except
      (topic ← gets get_topic;
       get_packet ← pure (_build_mqtt_publish_packet topic (JDict []) 3);
       ws_send get_packet;;
       log DEBUG "已请求设备状态")
      (λ err, log ERROR "请求设备状态失败: %s").

(** [for i, topic in enumerate(subscribe_topics, 1)] *)
Fixpoint subscribe_all (i : Z) (subscribe_topics : list string) : M unit :=
  match subscribe_topics with
  | [] => ret ()
  | topic :: rest =>
      subscribe_packet ← pure (_build_mqtt_subscribe_packet topic i);
      ws_send subscribe_packet;;
      log DEBUG "已订阅主题: %s";;
      subscribe_all (i + 1) rest
  end.

(** The [try] block of [connect]. *)
Definition connect_attempt : M bool :=
  log INFO "开始连接MQTT WebSocket，device_id=%s";;
  mqtt_config ← gets (λ w, mqtt_config_response (env w));
  if negb (truthy mqtt_config) then
    log ERROR "无法获取MQTT配置";; ret false
  else
    wss_url ← pure (get mqtt_config "host" JNull);
    if negb (truthy wss_url) then
      log ERROR "未获取到有效的 WSS 连接地址";; ret false
    else
      configured_id ← pure (get mqtt_config "clientID" JNull);
      own_id ← gets device_id;
      let client_id := if truthy configured_id then configured_id else JStr own_id in
      (* [wss_url[:50] + "..."] is a [TypeError] unless the URL is a [str] *)
      url ← match wss_url with JStr url => ret url | _ => raise TypeError end;
      log DEBUG "使用 WSS URL: %s, clientID: %s";;
      ws_connect url;;
      modify (set_connected true);;
      log INFO "WebSocket 连接成功";;
      (* [client_id.encode] is an [AttributeError] unless it is a [str] *)
      connect_packet ←
        match client_id with
        | JStr client_id => pure (_build_mqtt_connect_packet client_id)
        | _ => raise AttributeError
        end;
      ws_send connect_packet;;
      log DEBUG "已发送 MQTT CONNECT 包";;
      sleep (Float half);;
      subscribe_all 1
        ["$aws/things/" +:+ own_id +:+ "/shadow/get/#";
         "$aws/things/" +:+ own_id +:+ "/shadow/update/accepted"];;
      cancel_listen_task;;
      modify (set_listen_task (Some TaskRunning));;
      modify (emit TaskCreated);;
      _request_device_state;;
      ret true.

(** The [except] block of [connect]. *)
Definition connect_failed (err : exn) : M bool :=
  log ERROR "WebSocket 连接失败: %s";;
  modify (set_connected false);;
  ws ← gets _websocket;
  match ws with
  | Some _ =>
      try_except ws_close (λ _, ret ());;
      modify (set_websocket None);;
      ret false
  | None => ret false
  end.

Definition connect : M bool :=
  c ← gets connected;
  if (c : bool) then
    log DEBUG "MQTT already connected";; ret true
  else
    try_except connect_attempt connect_failed.

Definition async_connect : M bool := connect.

Definition _ensure_connected : M bool :=
  c ← gets connected;
  (if (c : bool) then ret true
   else
     try_except (connect ≫= λ _, ret true)
       (λ err, log ERROR "无法建立MQTT连接: %s";; ret false)) ≫= λ go_on : bool,
  if go_on then gets connected else ret false.

(** [temp_mapping] of [async_set_temperature]. *)
Definition temp_mapping : gmap string Z :=
  list_to_map
    [("0", 0); ("1", 1); ("2", 2); ("3", 3); ("4", 4); ("5", 5);
     ("6", 6); ("7", 7); ("8", 8); ("9", 9); ("10", 10)].

Definition async_set_temperature (temp_code : string) : M bool :=
  ready ← _ensure_connected;
  if negb ready then ret false
  else
    try_except
      (let target_temp := default 0 (temp_mapping !! temp_code) in
       own_id ← gets device_id;
       let payload :=
         JDict [("state",
           JDict [("desired",
             JDict [("SetTemp", JInt target_temp);
                    ("CommandType", JStr "app");
                    ("EnduserId", JStr own_id)])])] in
       topic ← gets command_topic;
       publish_packet ← pure (_build_mqtt_publish_packet topic payload 4);
       ws_send publish_packet;;
       log INFO "已发送水温设置指令: code=%s, temp=%s";;
       ret true)
      (λ err, log ERROR "设置水温失败: %s";; ret false).

Definition async_set_volume (volume_code : string) : M bool :=
  ready ← _ensure_connected;
  if negb ready then ret false
  else
    try_except
      (target_volume ← pure (call (int_of_str volume_code));
       own_id ← gets device_id;
       let payload :=
         JDict [("state",
           JDict [("desired",
             JDict [("SetOutlet", JInt target_volume);
                    ("CommandType", JStr "app");
                    ("EnduserId", JStr own_id)])])] in
       topic ← gets command_topic;
       publish_packet ← pure (_build_mqtt_publish_packet topic payload 5);
       ws_send publish_packet;;
       log INFO "已发送出水量设置指令: code=%s, SetOutlet=%s";;
       ret true)
      (λ err, log ERROR "设置出水量失败: %s";; ret false).

Definition disconnect : M unit :=
  modify (set_connected false);;
  modify (set_listening false);;
  cancel_listen_task;;
  ws ← gets _websocket;
  match ws with
  | Some _ =>
      try_except
        (disconnect_packet ← pure (bytes_of_ints [0xE0; 0x00]);
         ws_send disconnect_packet;;
         ws_close;;
         log INFO "WebSocket MQTT 连接已断开")
        (λ err, log ERROR "断开 WebSocket 连接时出错: %s")
  | None => ret ()
  end;;
  modify (set_websocket None).

(** [for delay in delays:] of the [finally] block of [_listen_messages]. *)
Fixpoint reconnect_loop (delays : list Z) : M unit :=
  match delays with
  | [] => ret ()
  | delay :: rest =>
      c ← gets connected;
      if negb c then
        log INFO "尝试重连 WebSocket，延迟 %s 秒";;
        sleep (Int delay);;
        ok ← connect;
        if (ok : bool) then ret () else reconnect_loop rest
      else reconnect_loop rest
  end.

(** The [finally] block of [_listen_messages]. *)
Definition _listen_messages_finally : M unit :=
  modify (set_listening false);;
  modify (set_connected false);;
  reconnect_loop [5; 10; 15; 30].

Section Listen.
Variable callback : json → M unit.

(** One pass of [while self.connected and self._websocket]; the result
    tells whether the loop goes on ([false] is [break]). *)
Definition _listen_messages_step : M bool :=
  try_except
    (message ← ws_recv;
     match message with
     | Binary packet => _handle_mqtt_packet callback packet
     | Text _ => ret ()
     end;;
     ret true)
    (λ err,
       match err with
       | ConnectionClosedOK => log INFO "WebSocket 连接正常关闭";; ret false
       | ConnectionClosedError => log WARNING "WebSocket 连接异常关闭: %s";; ret false
       | _ => log ERROR "接收 WebSocket 消息出错: %s";; sleep (Int 1);; ret true
       end).

Fixpoint _listen_messages_loop (fuel : nat) : M unit :=
  c ← gets connected;
  ws ← gets _websocket;
  if c && bool_decide (is_Some ws) then
    match fuel with
    | O => out_of_fuel
    | S fuel' =>
        go_on ← _listen_messages_step;
        if (go_on : bool) then _listen_messages_loop fuel' else ret ()
    end
  else ret ().

Definition _listen_messages (fuel : nat) : M unit :=
  c ← gets connected;
  ws ← gets _websocket;
  if negb (bool_decide (is_Some ws)) || negb c then ret ()
  else
    busy ← gets _listening;
    if (busy : bool) then ret ()
    else
      modify (set_listening true);;
      try_finally
        (try_except (_listen_messages_loop fuel)
           (λ err, log ERROR "监听 WebSocket 消息时出错: %s"))
        _listen_messages_finally.

End Listen.
End Session.

(** ** The coordinator's client, the button and the temperature select *)

(** [DeermaMQTTClient(hass, device_id, callback, ...)]: a client for
    [device], not connected.  The client fields of the world describe the
    client of the coordinator, so a new client takes their place. *)
Definition new_client (device : string) (w : world) : world :=
  {| data := data w;
     coordinator_device_id := coordinator_device_id w;
     last_update_success := last_update_success w;
     device_id := device;
     connected := false;
     _websocket := None;
     _listen_task := None;
     _listening := false;
     env := env w;
     upcoming := upcoming w;
     inbox := inbox w;
     trace := trace w |}.

(** [if self.device_id:] of the coordinator. *)
Definition device_id_truthy (w : world) : bool :=
  match coordinator_device_id w with
  | Some device => negb (String.eqb device "")
  | None => false
  end.

(** [self.mqtt_client] of the coordinator is [None] or the client the world
    describes: its methods take which of the two as [mqtt_client], and
    [_setup_mqtt], which assigns it, returns what it is afterwards. *)
Module DeermaWaterCoordinator.
Section Methods.
Context `{!PyLib}.

Definition _setup_mqtt (mqtt_client : bool) : M bool :=
  has_id ← gets device_id_truthy;
  if negb has_id then
    log WARNING "Cannot setup MQTT: device_id is not available";;
    ret mqtt_client
  else
    try_except
      (log INFO "Setting up MQTT client for device: %s";;
       own_id ← gets (λ w, default "" (coordinator_device_id w));
       modify (new_client own_id);;
       success ← async_connect;
       if (success : bool) then
         log INFO "MQTT client connected successfully";;
         ret true
       else
         log ERROR "MQTT client connection failed";;
         ret false)
      (λ err, log ERROR "Failed to setup MQTT: %s";; ret false).

(** The call in the last line is the client's [async_set_temperature]. *)
Definition async_set_temperature (mqtt_client : bool) (temp_code : string)
    : M bool :=
  has_id ← gets device_id_truthy;
  if negb has_id || negb mqtt_client then
    log WARNING "MQTT client not available, cannot set temperature";;
    ret false
  else async_set_temperature temp_code.

Definition async_set_water_volume (mqtt_client : bool) (volume_code : string)
    : M bool :=
  has_id ← gets device_id_truthy;
  if negb has_id || negb mqtt_client then
    log WARNING "MQTT client not available, cannot set water volume";;
    ret false
  else async_set_volume volume_code.

End Methods.
End DeermaWaterCoordinator.

Module DeermaQuick55Button.

Definition async_press `{!PyLib} (mqtt_client : bool) : M unit :=
  success ← DeermaWaterCoordinator.async_set_temperature mqtt_client "6";
  if (success : bool) then log INFO "已通过按钮设置水温为55度"
  else log ERROR "通过按钮设置55度水温失败".

End DeermaQuick55Button.

Module DeermaTemperatureSelect.

(** What [__init__] sets: the options in the order of display, and the
    items of the dict [_temp_mapping], which gives each option its code (a
    [str]), in insertion order. *)
Record attributes := {
  _attr_options : list string;
  _temp_mapping : list (string * string);
}.

(** The mapping [__init__] falls back to when the entry has none for
    [SetTemp]. *)
Definition fallback : attributes :=
  let mapping :=
    [("常温", "0"); ("45℃", "1"); ("65℃", "2"); ("85°C", "3"); ("99℃", "4");
     ("5℃", "5"); ("55℃", "6"); ("75℃", "7"); ("95℃", "8"); ("97℃", "9");
     ("100℃", "10")] in
  {| _attr_options := mapping.*1; _temp_mapping := mapping |}.

Section Methods.
Context `{!PyLib}.
(** [str(obj)], which is Python's, and [async_request_refresh], which the
    coordinator inherits: the select is embedded over any implementation of
    them. *)
Variable str : json → string.
Variable async_request_refresh : M unit.
Variable self : attributes.

(** [self._temp_mapping.get(chosen)] *)
Definition code_of (chosen : string) : option string :=
  snd <$> List.find (λ item : string * string, String.eqb item.1 chosen)
            (_temp_mapping self).

(** The first option whose code is [temp_code_str]:
    [for option, code in self._temp_mapping.items(): if str(code) == temp_code_str]
    ([str] of a [str] is the [str]). *)
Definition option_of (temp_code_str : string) : option string :=
  fst <$> List.find (λ item : string * string, String.eqb item.2 temp_code_str)
            (_temp_mapping self).

(** [data.get("SetTemp") or data.get("setTemp") or data.get("temperature_code")] *)
Definition temp_code (data : gmap string json) : json :=
  let get key := default JNull (data !! key) in
  let temp_code := get "SetTemp" in
  let temp_code := if truthy temp_code then temp_code else get "setTemp" in
  if truthy temp_code then temp_code else get "temperature_code".

(** [self._attr_options[0] if self._attr_options else "常温"] *)
Definition default_option : string :=
  match _attr_options self with
  | first :: _ => first
  | [] => "常温"
  end.

Definition current_option : M string :=
  data ← gets data_or_empty;
  found ←
    match temp_code data with
    | JNull => ret None
    | temp_code =>
        let temp_code_str := str temp_code in
        match option_of temp_code_str with
        | Some found =>
            log DEBUG "SetTemp=%s -> code=%s -> option=%s";;
            ret (Some found)
        | None =>
            log WARNING "无法找到 SetTemp=%s 对应的选项，映射表: %s";;
            ret None
        end
    end;
  match found with
  | Some found => ret found
  | None => log DEBUG "使用默认选项: %s";; ret default_option
  end.

Definition async_select_option (mqtt_client : bool) (chosen : string) : M unit :=
  let temp_code := default "" (code_of chosen) in
  if String.eqb temp_code "" then log ERROR "Unknown temperature option: %s"
  else
    success ← DeermaWaterCoordinator.async_set_temperature mqtt_client temp_code;
    if (success : bool) then async_request_refresh
    else log ERROR "Failed to set temperature to %s".

End Methods.
End DeermaTemperatureSelect.

(** ** A reference implementation of the library calls

    Used to run the embedding on concrete frames.  It follows Python on
    UTF-8 decoding, on [int] of an ASCII numeral and on JSON documents whose
    numbers are integers; a JSON number with a fraction or an exponent and
    a [\u] escape of a surrogate are answered with an exception where
    Python returns a value, and a float is printed by its exact decimal
    expansion.  No theorem below depends on the choices made here: each is
    stated for every [PyLib]. *)

Module Reference.

Definition codes (s : string) : list Z := byte_val <$> encode_utf8 s.

Definition text (l : list Z) : string :=
  String.string_of_list_byte ((λ z, default x00 (Byte.of_N (Z.to_N z))) <$> l).

(** *** UTF-8 *)

Inductive utf8_step :=
| Char (code_point : Z) (width : nat)  (* a well-formed sequence *)
| Bad (width : nat)                    (* ill-formed: [width] bytes in error *)
| BadToEnd.                            (* cut off by the end of the data *)

Definition is_continuation (b : Z) : bool := (0x80 <=? b) && (b <=? 0xBF).

Definition low6 (b : Z) : Z := Z.land b 0x3F.

Definition utf8_head (l : list Z) : utf8_step :=
  match l with
  | [] => BadToEnd
  | ch :: t =>
      if ch <? 0x80 then Char ch 1
      else if ch <? 0xC2 then Bad 1
      else if ch <? 0xE0 then
        match t with
        | [] => BadToEnd
        | ch2 :: _ =>
            if is_continuation ch2
            then Char (Z.lor (Z.shiftl (Z.land ch 0x1F) 6) (low6 ch2)) 2
            else Bad 1
        end
      else if ch <? 0xF0 then
        match t with
        | [] => BadToEnd
        | ch2 :: t2 =>
            if negb (is_continuation ch2)
               || ((ch =? 0xE0) && (ch2 <? 0xA0))
               || ((ch =? 0xED) && (0xA0 <=? ch2))
            then Bad 1
            else
              match t2 with
              | [] => BadToEnd
              | ch3 :: _ =>
                  if is_continuation ch3
                  then Char (Z.lor (Z.shiftl (Z.land ch 0x0F) 12)
                               (Z.lor (Z.shiftl (low6 ch2) 6) (low6 ch3))) 3
                  else Bad 2
              end
        end
      else if ch <? 0xF5 then
        match t with
        | [] => BadToEnd
        | ch2 :: t2 =>
            if negb (is_continuation ch2)
               || ((ch =? 0xF0) && (ch2 <? 0x90))
               || ((ch =? 0xF4) && (0x90 <=? ch2))
            then Bad 1
            else
              match t2 with
              | [] => BadToEnd
              | ch3 :: t3 =>
                  if negb (is_continuation ch3) then Bad 2
                  else
                    match t3 with
                    | [] => BadToEnd
                    | ch4 :: _ =>
                        if is_continuation ch4
                        then Char (Z.lor (Z.shiftl (Z.land ch 0x07) 18)
                                     (Z.lor (Z.shiftl (low6 ch2) 12)
                                        (Z.lor (Z.shiftl (low6 ch3) 6) (low6 ch4)))) 4
                        else Bad 3
                    end
              end
        end
      else Bad 1
  end.

(** The code points of the well-formed sequences of [l], and whether an
    ill-formed one was met. *)
Fixpoint utf8_scan (fuel : nat) (l : list Z) : list (Z * list Z) * bool :=
  match fuel, l with
  | O, _ | _, [] => ([], false)
  | S fuel', _ =>
      match utf8_head l with
      | Char cp n =>
          let '(chars, bad) := utf8_scan fuel' (drop n l) in
          ((cp, take n l) :: chars, bad)
      | Bad n => (fst (utf8_scan fuel' (drop n l)), true)
      | BadToEnd => ([], true)
      end
  end.

Definition code_points (l : list Z) : list (Z * list Z) * bool :=
  utf8_scan (length l) l.

Definition decode_ignore (b : bytes) : string :=
  text (concat (snd <$> fst (code_points (byte_val <$> b)))).

Definition decode_strict (b : bytes) : string + exn :=
  let '(chars, bad) := code_points (byte_val <$> b) in
  if (bad : bool) then inr UnicodeDecodeError else inl (text (concat (snd <$> chars))).

(** The UTF-8 bytes of a code point. *)
Definition utf8_of (cp : Z) : list Z :=
  if cp <? 0x80 then [cp]
  else if cp <? 0x800 then
    [Z.lor 0xC0 (Z.shiftr cp 6); Z.lor 0x80 (low6 cp)]
  else if cp <? 0x10000 then
    [Z.lor 0xE0 (Z.shiftr cp 12); Z.lor 0x80 (low6 (Z.shiftr cp 6));
     Z.lor 0x80 (low6 cp)]
  else
    [Z.lor 0xF0 (Z.shiftr cp 18); Z.lor 0x80 (low6 (Z.shiftr cp 12));
     Z.lor 0x80 (low6 (Z.shiftr cp 6)); Z.lor 0x80 (low6 cp)].

(** *** [int(s)] *)

Definition is_space (c : Z) : bool :=
  (c =? 32) || ((9 <=? c) && (c <=? 13)) || ((28 <=? c) && (c <=? 31)).

Definition is_digit (c : Z) : bool := (48 <=? c) && (c <=? 57).

Fixpoint lstrip (l : list Z) : list Z :=
  match l with
  | c :: l' => if is_space c then lstrip l' else l
  | [] => []
  end.

Definition strip (l : list Z) : list Z := reverse (lstrip (reverse (lstrip l))).

(** Digits, single underscores allowed between them; [after_digit] tells
    whether the character before was a digit. *)
Fixpoint digits (acc : Z) (after_digit : bool) (l : list Z) : option Z :=
  match l with
  | [] => if after_digit then Some acc else None
  | c :: l' =>
      if is_digit c then digits (acc * 10 + (c - 48)) true l'
      else if (c =? 95) && after_digit
           && match l' with d :: _ => is_digit d | [] => false end
      then digits acc false l'
      else None
  end.

Definition int_of (s : string) : Z + exn :=
  let body := strip (codes s) in
  let '(negative, body) :=
    match body with
    | 45 :: l => (true, l)
    | 43 :: l => (false, l)
    | _ => (false, body)
    end in
  match digits 0 false body with
  | Some n => inl (if (negative : bool) then - n else n)
  | None => inr ValueError
  end.

(** *** [json.dumps] *)

Definition hex_digit (n : Z) : Z := if n <? 10 then 48 + n else 87 + n.

(** [\uXXXX] *)
Definition u_escape (unit : Z) : list Z :=
  [92; 117; hex_digit (Z.land (Z.shiftr unit 12) 15);
   hex_digit (Z.land (Z.shiftr unit 8) 15);
   hex_digit (Z.land (Z.shiftr unit 4) 15); hex_digit (Z.land unit 15)].

Definition escape_char (cp : Z) : list Z :=
  if cp =? 34 then [92; 34]
  else if cp =? 92 then [92; 92]
  else if cp =? 10 then [92; 110]
  else if cp =? 13 then [92; 114]
  else if cp =? 9 then [92; 116]
  else if cp =? 8 then [92; 98]
  else if cp =? 12 then [92; 102]
  else if (32 <=? cp) && (cp <=? 126) then [cp]
  else if cp <? 0x10000 then u_escape cp
  else
    let v := cp - 0x10000 in
    u_escape (Z.lor 0xD800 (Z.land (Z.shiftr v 10) 0x3FF))
    ++ u_escape (Z.lor 0xDC00 (Z.land v 0x3FF)).

Definition quote (s : string) : string :=
  text ([34] ++ concat ((λ c, escape_char (fst c)) <$> fst (code_points (codes s)))
        ++ [34]).

(** The digits of [n] after the decimal point, [k] of them. *)
Definition fraction_digits (n : Z) (k : nat) : string :=
  let d := pretty n in
  String.string_of_list_byte (replicate (k - String.length d) x30) +:+ d.

Definition float_repr (f : spec_float) : string :=
  match f with
  | S754_zero s => if s then "-0.0" else "0.0"
  | S754_infinity s => if s then "-Infinity" else "Infinity"
  | S754_nan => "NaN"
  | S754_finite s m e =>
      (if s then "-" else "") +:+
      (if 0 <=? e then pretty (Z.pos m * 2 ^ e) +:+ ".0"
       else
         let k := Z.to_nat (- e) in
         let scaled := Z.pos m * 5 ^ (- e) in
         pretty (scaled `div` 10 ^ (- e)) +:+ "." +:+
         fraction_digits (scaled `mod` 10 ^ (- e)) k)
  end.

Fixpoint dumps (v : json) : string :=
  match v with
  | JNull => "null"
  | JBool b => if b then "true" else "false"
  | JInt n => pretty n
  | JFloat f => float_repr f
  | JStr s => quote s
  | JList l =>
      "[" +:+
      (fix items (l : list json) : string :=
         match l with
         | [] => ""
         | [x] => dumps x
         | x :: l' => dumps x +:+ "," +:+ items l'
         end) l +:+ "]"
  | JDict d =>
      "{" +:+
      (fix members (d : list (string * json)) : string :=
         match d with
         | [] => ""
         | [(k, x)] => quote k +:+ ":" +:+ dumps x
         | (k, x) :: d' => quote k +:+ ":" +:+ dumps x +:+ "," +:+ members d'
         end) d +:+ "}"
  end.

(** *** [json.loads] *)

(** [d[key] = value] on the members of a dict. *)
Fixpoint dict_set (key : string) (value : json) (d : list (string * json))
    : list (string * json) :=
  match d with
  | [] => [(key, value)]
  | (k, v) :: d' =>
      if String.eqb k key then (k, value) :: d' else (k, v) :: dict_set key value d'
  end.

Fixpoint skip_ws (l : list Z) : list Z :=
  match l with
  | c :: l' =>
      if (c =? 32) || (c =? 9) || (c =? 10) || (c =? 13) then skip_ws l' else l
  | [] => []
  end.

Definition hex_value (c : Z) : option Z :=
  if is_digit c then Some (c - 48)
  else if (97 <=? c) && (c <=? 102) then Some (c - 87)
  else if (65 <=? c) && (c <=? 70) then Some (c - 55)
  else None.

(** The characters of a string literal, after its opening quote. *)
Fixpoint parse_chars (fuel : nat) (acc : list Z) (l : list Z)
    : option (string * list Z) :=
  match fuel, l with
  | S fuel', 34 :: rest => Some (text acc, rest)
  | S fuel', 92 :: c :: rest =>
      if c =? 117 then
        match rest with
        | h1 :: h2 :: h3 :: h4 :: rest' =>
            a ← hex_value h1; b ← hex_value h2; c ← hex_value h3; d ← hex_value h4;
            let cp := ((a * 16 + b) * 16 + c) * 16 + d in
            if (0xD800 <=? cp) && (cp <=? 0xDFFF) then None
            else parse_chars fuel' (acc ++ utf8_of cp) rest'
        | _ => None
        end
      else
        unescaped ←
          (if c =? 34 then Some 34 else if c =? 92 then Some 92
           else if c =? 47 then Some 47 else if c =? 98 then Some 8
           else if c =? 102 then Some 12 else if c =? 110 then Some 10
           else if c =? 114 then Some 13 else if c =? 116 then Some 9
           else None);
        parse_chars fuel' (acc ++ [unescaped]) rest
  | S fuel', c :: rest =>
      if c <? 32 then None else parse_chars fuel' (acc ++ [c]) rest
  | _, _ => None
  end.

Fixpoint parse_digits (acc : Z) (l : list Z) : Z * list Z :=
  match l with
  | c :: l' => if is_digit c then parse_digits (acc * 10 + (c - 48)) l' else (acc, l)
  | [] => (acc, [])
  end.

(** An optional minus sign, then 0 or a numeral without leading zero, not
    followed by a fraction or an exponent. *)
Definition parse_int (l : list Z) : option (json * list Z) :=
  let '(negative, l) := match l with 45 :: l' => (true, l') | _ => (false, l) end in
  match l with
  | c :: l' =>
      if is_digit c then
        let '(n, rest) := if c =? 48 then (0, l') else parse_digits 0 l in
        match rest with
        | 46 :: _ | 101 :: _ | 69 :: _ => None
        | _ => Some (JInt (if (negative : bool) then - n else n), rest)
        end
      else None
  | [] => None
  end.

Definition strip_prefix (word : string) (l : list Z) : option (list Z) :=
  let w := codes word in
  if bool_decide (take (length w) l = w) then Some (drop (length w) l) else None.

Fixpoint parse_value (fuel : nat) (l : list Z) : option (json * list Z) :=
  match fuel with
  | O => None
  | S fuel' =>
      match skip_ws l with
      | 123 :: rest =>
          match skip_ws rest with
          | 125 :: rest' => Some (JDict [], rest')
          | _ => parse_members fuel' [] rest
          end
      | 91 :: rest =>
          match skip_ws rest with
          | 93 :: rest' => Some (JList [], rest')
          | _ => parse_items fuel' [] rest
          end
      | 34 :: rest =>
          '(s, rest') ← parse_chars (length rest) [] rest; Some (JStr s, rest')
      | l' =>
          match strip_prefix "true" l', strip_prefix "false" l',
                strip_prefix "null" l', strip_prefix "NaN" l',
                strip_prefix "Infinity" l', strip_prefix "-Infinity" l' with
          | Some r, _, _, _, _, _ => Some (JBool true, r)
          | _, Some r, _, _, _, _ => Some (JBool false, r)
          | _, _, Some r, _, _, _ => Some (JNull, r)
          | _, _, _, Some r, _, _ => Some (JFloat S754_nan, r)
          | _, _, _, _, Some r, _ => Some (JFloat (S754_infinity false), r)
          | _, _, _, _, _, Some r => Some (JFloat (S754_infinity true), r)
          | _, _, _, _, _, _ => parse_int l'
          end
      end
  end
with parse_items (fuel : nat) (acc : list json) (l : list Z)
    : option (json * list Z) :=
  match fuel with
  | O => None
  | S fuel' =>
      '(v, rest) ← parse_value fuel' l;
      match skip_ws rest with
      | 44 :: rest' => parse_items fuel' (acc ++ [v]) rest'
      | 93 :: rest' => Some (JList (acc ++ [v]), rest')
      | _ => None
      end
  end
with parse_members (fuel : nat) (acc : list (string * json)) (l : list Z)
    : option (json * list Z) :=
  match fuel with
  | O => None
  | S fuel' =>
      match skip_ws l with
      | 34 :: rest =>
          '(k, rest) ← parse_chars (length rest) [] rest;
          match skip_ws rest with
          | 58 :: rest =>
              '(v, rest) ← parse_value fuel' rest;
              match skip_ws rest with
              | 44 :: rest' => parse_members fuel' (dict_set k v acc) rest'
              | 125 :: rest' => Some (JDict (dict_set k v acc), rest')
              | _ => None
              end
          | _ => None
          end
      | _ => None
      end
  end.

Definition loads (s : string) : json + exn :=
  let l := codes s in
  match parse_value (2 * length l + 2) l with
  | Some (v, rest) =>
      match skip_ws rest with
      | [] => inl v
      | _ => inr JSONDecodeError
      end
  | None => inr JSONDecodeError
  end.

#[export] Instance python : PyLib := {|
  json_loads := loads;
  json_dumps := dumps;
  int_of_str := int_of;
  decode_utf8 := decode_strict;
  decode_utf8_ignore := decode_ignore;
|}.

End Reference.

(** ** Notions the statements below are written with *)

(** The value of a base-128 numeral, least significant digit first: the low
    seven bits of each byte are a digit. *)
Fixpoint base128 (l : list Z) : Z :=
  match l with
  | [] => 0
  | b :: l' => Z.land b 0x7F + 128 * base128 l'
  end.

(** The bytes of [l] through the first one whose continuation bit is clear
    (all of [l] when there is none). *)
Fixpoint through_last (l : list Z) : list Z :=
  match l with
  | [] => []
  | b :: l' => if Z.land b 0x80 =? 0 then [b] else b :: through_last l'
  end.

(** A remaining-length numeral: the continuation bit is set on every byte
    but the last one. *)
Fixpoint well_terminated (l : list Z) : bool :=
  match l with
  | [] => false
  | b :: l' =>
      if Z.land b 0x80 =? 0 then bool_decide (l' = []) else well_terminated l'
  end.

(** The bytes the decoder may look at from [pos] on: those of the packet
    before [start_pos + 4]. *)
Definition window (packet : bytes) (start_pos pos : Z) : list Z :=
  byte_val <$> take (Z.to_nat (start_pos + 4 - pos)) (drop (Z.to_nat pos) packet).

(** Stateful code that is not cut off, and stateful code that returns a
    value (raises nothing and is not cut off), whatever the world. *)
Definition terminates {A} (m : M A) : Prop := ∀ w, (m w).1 ≠ OutOfFuel.
Definition returns {A} (m : M A) : Prop := ∀ w, ∃ a w', m w = (Ok a, w').

(** A world after some more events. *)
Definition emit_all (events : list event) (w : world) : world :=
  foldl (λ w e, emit e w) w events.

Definition is_log (e : event) : bool :=
  match e with
  | Log _ _ => true
  | _ => false
  end.

(** The header of a PUBLISH packet ends after the packet: the two bytes of
    the topic length, the topic, or the packet identifier a QoS of 1 or 2
    announces. *)
Definition header_overruns (packet : bytes) : Prop :=
  ∃ rl body,
    _parse_mqtt_remaining_length packet 1 = Ok (rl, body) ∧
    (len packet < body + 2
     ∨ ∃ hi lo first,
         getitem packet body = Ok hi ∧ getitem packet (body + 1) = Ok lo
         ∧ getitem packet 0 = Ok first
         ∧ len packet < body + 2 + Z.lor (Z.shiftl hi 8) lo
                        + (if 1 <=? Z.shiftr (Z.land first 0x06) 1 then 2 else 0)).

(** The packet type in the first byte of a packet. *)
Definition has_type (packet : bytes) (packet_type : Z) : Prop :=
  ∃ first, getitem packet 0 = Ok first
           ∧ Z.shiftr (Z.land first 0xF0) 4 = packet_type.

(** An inbound PUBLISH packet at QoS 0 for a short topic and payload, as
    the broker frames it. *)
Definition inbound_publish (topic payload : string) : bytes :=
  let small (n : nat) : byte := default x00 (Byte.of_N (N.of_nat n)) in
  [x30; small (2 + String.length topic + String.length payload)%nat;
   x00; small (String.length topic)]
  ++ encode_utf8 topic ++ encode_utf8 payload.

(** An outside where nothing answers: no MQTT configuration, no connection,
    and an API that raises. *)
Definition silent : environment :=
  {| mqtt_config_response := JDict [];
     ws_connect_error := Some OSError;
     ws_send_error := Some ConnectionClosedError;
     ws_close_error := None;
     water_data_response := inr ClientError;
     device_status_response := inr ClientError |}.

(** An outside where everything answers: the API returns [water_data] and
    [status], the broker accepts connections and frames. *)
Definition online (water_data status : json) : environment :=
  {| mqtt_config_response :=
       JDict [("host", JStr "wss://broker"); ("clientID", JStr "client-1")];
     ws_connect_error := None;
     ws_send_error := None;
     ws_close_error := None;
     water_data_response := inl water_data;
     device_status_response := inl status |}.

(** A coordinator and a client for device ["dev1"], not connected, holding
    [snapshot], in the outside [e] for good. *)
Definition idle (snapshot : option (gmap string json)) (e : environment) : world :=
  {| data := snapshot;
     coordinator_device_id := Some "dev1";
     last_update_success := true;
     device_id := "dev1";
     connected := false;
     _websocket := None;
     _listen_task := None;
     _listening := false;
     env := e;
     upcoming := [];
     inbox := [];
     trace := [] |}.

(** The same with an open connection. *)
Definition active (snapshot : option (gmap string json)) (e : environment) : world :=
  set_listen_task (Some TaskRunning)
    (set_websocket (Some "wss://broker") (set_connected true (idle snapshot e))).

(** The [except] block of [_async_update_data]. *)
Definition preserve_or_fail (w : world) : result (gmap string json) * world :=
  if data_truthy w
  then (Ok (data_or_empty w),
        emit (Log WARNING "Error updating data, preserving existing data: %s") w)
  else (Raise UpdateFailed, w).

(** The delays slept for a whole number of seconds, in order: those of the
    reconnection loop (the grace delay of [connect] is the float 0.5). *)
Definition delays (events : list event) : list Z :=
  omap (λ e, match e with Sleep (Int n) => Some n | _ => None end) events.

(** The frames sent, in order. *)
Definition frames (events : list event) : list bytes :=
  omap (λ e, match e with Sent frame => Some frame | _ => None end) events.

(** The packet identifier a PUBLISH packet of QoS 1 carries: the two bytes
    after its topic, which [_parse_mqtt_publish_packet] steps over. *)
Definition packet_identifier (packet : bytes) : result Z :=
  '(remaining_length, pos) ← _parse_mqtt_remaining_length packet 1;
  hi ← getitem packet pos;
  lo ← getitem packet (pos + 1);
  let topic_length := Z.lor (Z.shiftl hi 8) lo in
  let pos := pos + 2 + topic_length in
  id_hi ← getitem packet pos;
  id_lo ← getitem packet (pos + 1);
  Ok (Z.lor (Z.shiftl id_hi 8) id_lo).

(** Stateful code that takes every world to one related to it by [R]. *)
Definition respects (R : relation world) {A} (m : M A) : Prop :=
  ∀ w, R w (m w).2.

(** The connection flag is as it was. *)
Definition same_connected : relation world :=
  λ w w', connected w' = connected w.

(** The trace has grown, by events none of which is a sleep of a whole
    number of seconds. *)
Definition no_delay : relation world :=
  λ w w', ∃ events, trace w' = trace w ++ events ∧ delays events = [].

(** Code that can only answer [b]. *)
Definition answers (b : bool) (m : M bool) : Prop :=
  ∀ w b' w', m w = (Ok b', w') → b' = b.

(** Code whose answer tells the connection flag: it is set after [True],
    and as it was after [False]. *)
Definition tells_connected (m : M bool) : Prop :=
  ∀ w b w', m w = (Ok b, w') →
            if b then connected w' = true else connected w' = connected w.

(** ** Notions of the further properties *)

(** A frame that starts with the byte [first] and whose remaining length,
    decoded at position 1, ends where the frame ends. *)
Definition well_framed (first : Z) (frame : bytes) : Prop :=
  getitem frame 0 = Ok first
  ∧ ∃ rl pos, _parse_mqtt_remaining_length frame 1 = Ok (rl, pos)
              ∧ pos + rl = len frame.

(** An event that is a log line or a notification of the listeners: nothing
    sent, opened, closed or slept. *)
Definition is_report (e : event) : bool :=
  match e with
  | Log _ _ | ListenersUpdated => true
  | _ => false
  end.

(** The client is as it was, in the same outside, and the trace has grown
    by log lines and notifications only. *)
Definition same_session : relation world := λ w w',
  device_id w' = device_id w ∧ connected w' = connected w
  ∧ _websocket w' = _websocket w ∧ _listen_task w' = _listen_task w
  ∧ _listening w' = _listening w ∧ coordinator_device_id w' = coordinator_device_id w
  ∧ env w' = env w ∧ upcoming w' = upcoming w ∧ inbox w' = inbox w
  ∧ ∃ events, trace w' = trace w ++ events ∧ forallb is_report events = true.

(** A PUBLISH packet on one of the two accepted topics whose payload is the
    text of the JSON document [document]. *)
Definition carries `{!PyLib} (packet : bytes) (document : json) : Prop :=
  has_type packet 3
  ∧ ∃ topic payload_bytes payload_str,
      _parse_mqtt_publish_packet packet = Ok (Some topic, Some payload_bytes)
      ∧ topic ≠ "" ∧ payload_bytes ≠ []
      ∧ contains "/shadow/get/accepted" topic
        || contains "/shadow/update/accepted" topic = true
      ∧ decode_utf8 payload_bytes = inl payload_str
      ∧ json_loads payload_str = inl document.

(** The [reported] member of the [state] member of a document, read as the
    handler reads it: with [get], an empty dict standing for a missing
    member. *)
Definition reported_of (document : json) : result json :=
  state ← get document "state" (JDict []);
  get state "reported" (JDict []).

(** [f] has the value it had. *)
Definition kept {A} (f : world → A) : relation world := λ w w', f w' = f w.

(** What the coordinator holds. *)
Definition snapshot_of (w : world) : option (gmap string json) * bool * option string :=
  (data w, last_update_success w, coordinator_device_id w).

(** The connection flag and the socket of the client. *)
Definition session_of (w : world) : bool * option string :=
  (connected w, _websocket w).

(** A client that says it is connected holds a socket. *)
Definition consistent (w : world) : Prop :=
  connected w = true → is_Some (_websocket w).

(** Code after which the client holds a socket whenever it answers [True]. *)
Definition opens (m : M bool) : Prop :=
  ∀ w w', m w = (Ok true, w') → is_Some (_websocket w').

(** Code that leaves the connection flag and the socket alone unless it
    answers [True]. *)
Definition keeps_session_unless_true (m : M bool) : Prop :=
  ∀ w w', m w = (Ok false, w') → kept session_of w w'.

(** Code that keeps a property of the world. *)
Definition preserves (P : world → Prop) {A} (m : M A) : Prop :=
  ∀ w, P w → P (m w).2.

(** Whether the socket was closed. *)
Definition closed (events : list event) : bool :=
  existsb (λ e, match e with Closed => true | _ => false end) events.

(** [mqtt_config.get("clientID") or self.device_id] *)
Definition chosen_client_id (config : list (string * json)) (device : string) : json :=
  let configured := default JNull (assoc "clientID" config) in
  if truthy configured then configured else JStr device.

(** The events that are not log lines. *)
Definition actions (events : list event) : list event :=
  List.filter (λ e, negb (is_log e)) events.

(** The members a packet pushes into the snapshot: those of the [reported]
    object, when it is an object that is not empty, of the [state] of the
    JSON document in the payload of a PUBLISH packet on an accepted
    topic. *)
Definition pushed_by `{!PyLib} (packet : bytes) : option (list (string * json)) :=
  if len packet <? 2 then None
  else
    match getitem packet 0, _parse_mqtt_publish_packet packet with
    | Ok first, Ok (Some topic, Some payload_bytes) =>
        if (Z.shiftr (Z.land first 0xF0) 4 =? 3)
           && negb (String.eqb topic "") && negb (bool_decide (payload_bytes = []))
           && (contains "/shadow/get/accepted" topic
               || contains "/shadow/update/accepted" topic)
        then
          match decode_utf8 payload_bytes with
          | inl payload_str =>
              match json_loads payload_str with
              | inl document =>
                  match reported_of document with
                  | Ok (JDict (member :: members)) => Some (member :: members)
                  | _ => None
                  end
              | inr _ => None
              end
          | inr _ => None
          end
        else None
    | _, _ => None
    end.

(** What a push does to the snapshot. *)
Definition overlay (members : option (list (string * json)))
    (snapshot : option (gmap string json)) : option (gmap string json) :=
  match members with
  | Some members => Some (list_to_map members ∪ default ∅ snapshot)
  | None => snapshot
  end.


(** What the listener keeps for itself and what the coordinator holds:
    [connect] and the reconnection loop leave both alone. *)
Definition listening_and_snapshot (w : world)
    : bool * (option (gmap string json) * bool * option string) :=
  (_listening w, snapshot_of w).

(** The document a temperature command publishes. *)
Definition desired_temperature (n : Z) (device : string) : json :=
  JDict [("state",
    JDict [("desired",
      JDict [("SetTemp", JInt n);
             ("CommandType", JStr "app");
             ("EnduserId", JStr device)])])].

(** The world in which the attempt that follows a delay of [delay] seconds
    starts: the delay has been announced and slept. *)
Definition after_delay (delay : Z) (w : world) : world :=
  advance (emit (Sleep (Int delay))
             (emit (Log INFO "尝试重连 WebSocket，延迟 %s 秒") w)).

(** The backoff as the delays and the answers of [connect] tell it:
    [attempts delays w slept w'] says that, from [w], the client sleeps the
    delays [slept] and ends in [w'], where each delay is followed by one
    call of [connect]; the call after every delay of [slept] but the last
    answers [False]; and either the last call answers [True], which ends
    the attempts, or all of [delays] have been slept and the client gives
    up. *)
Inductive attempts `{!PyLib} : list Z → world → list Z → world → Prop :=
| attempts_given_up (w : world) : attempts [] w [] w
| attempts_succeeded (delay : Z) (rest : list Z) (w w' : world) :
    connect (after_delay delay w) = (Ok true, w') →
    attempts (delay :: rest) w [delay] w'
| attempts_failed (delay : Z) (rest slept : list Z) (w w1 w' : world) :
    connect (after_delay delay w) = (Ok false, w1) →
    attempts rest w1 slept w' →
    attempts (delay :: rest) w (delay :: slept) w'.

(** A remaining-length field that says [n]: a numeral, every byte but the
    last with the continuation bit, of value [n]. *)
Definition remaining_length_field (n : Z) (field : bytes) : Prop :=
  well_terminated (byte_val <$> field) = true ∧ base128 (byte_val <$> field) = n.

(** A two-byte field that says [n], high byte first. *)
Definition two_byte_field (n : Z) (field : bytes) : Prop :=
  ∃ hi lo, field = [hi; lo] ∧ Z.lor (Z.shiftl (byte_val hi) 8) (byte_val lo) = n.

(** A PUBLISH packet of QoS 1 as it goes on the wire: the byte 0x32, the
    length of what follows, the length of the topic on two bytes, the UTF-8
    bytes of the topic, the packet identifier on two bytes, and the UTF-8
    bytes of the payload. *)
Definition publish_layout (topic : string) (packet_id : Z) (payload : string)
    (frame : bytes) : Prop :=
  ∃ length_field topic_length id_field,
    frame = [x32] ++ length_field ++ topic_length ++ encode_utf8 topic
            ++ id_field ++ encode_utf8 payload
    ∧ remaining_length_field
        (2 + len (encode_utf8 topic) + 2 + len (encode_utf8 payload)) length_field
    ∧ two_byte_field (len (encode_utf8 topic)) topic_length
    ∧ two_byte_field packet_id id_field.

(** A CONNECT packet on the wire: the byte 0x10, the length of what
    follows, the protocol name [MQTT] with its length, level 4, the flag of
    a clean session, a keep-alive of 60 seconds, and the client id with its
    length. *)
Definition connect_layout (client_id : string) (frame : bytes) : Prop :=
  ∃ length_field id_length,
    frame = [x10] ++ length_field
            ++ [x00; x04; x4d; x51; x54; x54; x04; x02; x00; x3c]
            ++ id_length ++ encode_utf8 client_id
    ∧ remaining_length_field (12 + len (encode_utf8 client_id)) length_field
    ∧ two_byte_field (len (encode_utf8 client_id)) id_length.

(** A SUBSCRIBE packet on the wire: the byte 0x82, the length of what
    follows, the packet identifier, and one topic filter with its length
    and the requested QoS 1. *)
Definition subscribe_layout (topic : string) (packet_id : Z) (frame : bytes)
    : Prop :=
  ∃ length_field id_field topic_length,
    frame = [x82] ++ length_field ++ id_field ++ topic_length
            ++ encode_utf8 topic ++ [x01]
    ∧ remaining_length_field (2 + 2 + len (encode_utf8 topic) + 1) length_field
    ∧ two_byte_field packet_id id_field
    ∧ two_byte_field (len (encode_utf8 topic)) topic_length.

(** * Properties *)

(** ** Facts on bytes *)

(** A property of the integers below [n], checked on each of them. *)
Lemma below_forall (P : Z → bool) (n : Z) :
  forallb P (seqZ 0 n) = true → ∀ x, 0 ≤ x < n → P x = true.
Proof.
  intros Hall x Hx.
  apply (proj1 (forallb_forall P _) Hall), list_elem_of_In, elem_of_seqZ. lia.
Qed.

Lemma byte_val_range (b : byte) : 0 ≤ byte_val b < 256.
Proof.
  unfold byte_val. pose proof (Byte.to_N_bounded b). lia.
Qed.

Lemma byte_of_int_ok (z : Z) :
  0 ≤ z < 256 → ∃ b, byte_of_int z = Ok b ∧ byte_val b = z.
Proof.
  intros Hz. unfold byte_of_int.
  replace ((0 <=? z) && (z <? 256)) with true by lia.
  destruct (Byte.of_N (Z.to_N z)) as [b|] eqn:Hb.
  - exists b. split; [done|]. unfold byte_val.
    rewrite (Byte.to_of_N _ Hb). lia.
  - apply Byte.of_N_None_iff in Hb. lia.
Qed.

Lemma low7_set_high (x : Z) :
  0 ≤ x < 128 →
  Z.lor x 0x80 = x + 128 ∧ Z.land (Z.lor x 0x80) 0x7F = x
  ∧ Z.land (Z.lor x 0x80) 0x80 ≠ 0 ∧ Z.land x 0x7F = x ∧ Z.land x 0x80 = 0.
Proof.
  intros Hx.
  pose proof (below_forall
    (λ x, bool_decide (Z.lor x 0x80 = x + 128 ∧ Z.land (Z.lor x 0x80) 0x7F = x
                       ∧ Z.land (Z.lor x 0x80) 0x80 ≠ 0 ∧ Z.land x 0x7F = x
                       ∧ Z.land x 0x80 = 0)) 128 eq_refl x Hx) as H.
  by apply bool_decide_eq_true in H.
Qed.

(** ** The remaining-length codec *)

Lemma encode_loop_spec (k : nat) :
  ∀ (fuel : nat) (n : Z) (acc : bytes),
    0 ≤ n < 128 ^ Z.of_nat (S k) → (k < fuel)%nat →
    ∃ bs, _encode_mqtt_remaining_length_loop fuel n acc = Ok (acc ++ bs)
          ∧ well_terminated (byte_val <$> bs) = true
          ∧ base128 (byte_val <$> bs) = n
          ∧ (length bs ≤ S k)%nat.
Proof.
  induction k as [|k IH]; intros fuel n acc Hn Hfuel;
    (destruct fuel as [|fuel]; [lia|]); cbn [_encode_mqtt_remaining_length_loop].
  - assert (n `div` 128 = 0) as -> by (apply Z.div_small; lia).
    assert (n `mod` 128 = n) as -> by (apply Z.mod_small; lia).
    cbn [Z.ltb Z.compare Z.eqb].
    destruct (byte_of_int_ok n) as (b & -> & Hb); [lia|].
    exists [b]. cbn. rewrite Hb.
    destruct (low7_set_high n) as (_ & _ & _ & -> & ->); [lia|].
    repeat split; [lia | lia].
  - pose proof (Z.mod_pos_bound n 128 eq_refl) as Hx.
    pose proof (Z.div_mod n 128) as Hdm.
    assert (0 ≤ n `div` 128 < 128 ^ Z.of_nat (S k)) as Hq.
    { split; [apply Z.div_pos; lia|].
      apply Z.div_lt_upper_bound; [lia|].
      rewrite <- Z.pow_succ_r by lia. rewrite <- Nat2Z.inj_succ. lia. }
    set (x := n `mod` 128) in *. set (q := n `div` 128) in *.
    destruct (low7_set_high x Hx) as (Hor & Hlow & Hhigh & Hlow' & Hhigh').
    destruct (Z.ltb_spec 0 q) as [Hpos|Hzero].
    + destruct (byte_of_int_ok (Z.lor x 0x80)) as (b & -> & Hb); [lia|].
      cbn [mbind result_bind bind].
      replace (q =? 0) with false by lia.
      destruct (IH fuel q (acc ++ [b]) Hq) as (bs & -> & Hwt & Hval & Hlen); [lia|].
      exists (b :: bs). rewrite <- app_assoc. split; [done|].
      cbn [fmap list_fmap well_terminated base128 length]. rewrite Hb.
      replace (Z.land (Z.lor x 128) 128 =? 0) with false by lia.
      rewrite Hlow. repeat split; [done | | lia].
      change (list_fmap _ _ byte_val bs) with (byte_val <$> bs). lia.
    + assert (q = 0) as Hq0 by lia.
      destruct (byte_of_int_ok x) as (b & -> & Hb); [lia|].
      cbn [mbind result_bind bind]. rewrite Hq0. cbn [Z.eqb].
      exists [b]. cbn. rewrite Hb, Hlow', Hhigh'.
      repeat split; [lia | lia].
Qed.

Lemma log2_base128 (n : Z) : 0 ≤ n → n < 128 ^ Z.of_nat (S (Z.to_nat (Z.log2 n))).
Proof.
  intros Hn. destruct (decide (n = 0)) as [->|Hne]; [done|].
  pose proof (Z.log2_nonneg n).
  pose proof (Z.log2_spec n ltac:(lia)) as [_ Hlt].
  eapply Z.lt_le_trans; [exact Hlt|].
  rewrite Nat2Z.inj_succ, Z2Nat.id by done.
  apply Z.pow_le_mono_l. lia.
Qed.

(** The encoder returns for every length that is not negative; what it
    returns is a numeral of that length, of at most [j] bytes when the
    length is below [128 ^ j]. *)
Lemma encode_remaining_length_spec (n : Z) :
  0 ≤ n →
  ∃ bs, _encode_mqtt_remaining_length n = Ok bs
        ∧ well_terminated (byte_val <$> bs) = true
        ∧ base128 (byte_val <$> bs) = n
        ∧ ∀ j : nat, n < 128 ^ Z.of_nat (S j) → (length bs ≤ S j)%nat.
Proof.
  intros Hn. unfold _encode_mqtt_remaining_length.
  destruct (encode_loop_spec (Z.to_nat (Z.log2 n)) (S (Z.to_nat (Z.log2 n))) n [])
    as (bs & Hbs & Hwt & Hval & _); [split; [done|by apply log2_base128] | lia |].
  exists bs. repeat split; [done..|].
  intros j Hj.
  destruct (encode_loop_spec (j `min` Z.to_nat (Z.log2 n))
              (S (Z.to_nat (Z.log2 n))) n []) as (bs' & Hbs' & _ & _ & Hlen).
  - split; [done|]. destruct (Nat.min_spec j (Z.to_nat (Z.log2 n))) as [[_ ->]|[_ ->]];
      [done | by apply log2_base128].
  - lia.
  - rewrite Hbs in Hbs'. injection Hbs' as <-. lia.
Qed.

(** The encoder diverges on a negative length: whatever the fuel, the loop
    is cut off. *)
Lemma encode_loop_negative (fuel : nat) :
  ∀ (n : Z) (acc : bytes),
    n < 0 → _encode_mqtt_remaining_length_loop fuel n acc = OutOfFuel.
Proof.
  induction fuel as [|fuel IH]; intros n acc Hn; [done|].
  cbn [_encode_mqtt_remaining_length_loop].
  pose proof (Z.mod_pos_bound n 128 eq_refl) as Hx.
  assert (n `div` 128 < 0) as Hq by (apply Z.div_lt_upper_bound; lia).
  replace (0 <? n `div` 128) with false by lia.
  destruct (byte_of_int_ok (n `mod` 128)) as (b & -> & _); [lia|].
  cbn [mbind result_bind bind].
  replace (n `div` 128 =? 0) with false by lia. by apply IH.
Qed.

Lemma len_nonneg {A} (l : list A) : 0 ≤ len l.
Proof. unfold len. lia. Qed.

Lemma len_app {A} (l1 l2 : list A) : len (l1 ++ l2) = len l1 + len l2.
Proof. unfold len. rewrite length_app. lia. Qed.

Lemma len_cons {A} (x : A) (l : list A) : len (x :: l) = 1 + len l.
Proof. unfold len. cbn [length]. lia. Qed.

(** Reading inside the bounds returns the byte there. *)
Lemma getitem_lookup (packet : bytes) (i : Z) :
  0 ≤ i < len packet →
  ∃ b, packet !! Z.to_nat i = Some b ∧ getitem packet i = Ok (byte_val b).
Proof.
  intros Hi. unfold getitem, len in *.
  replace (i <? 0) with false by lia.
  replace ((0 <=? i) && (i <? Z.of_nat (length packet))) with true by lia.
  destruct (lookup_lt_is_Some_2 packet (Z.to_nat i)) as [b Hb]; [lia|].
  exists b. by rewrite Hb.
Qed.

(** A slice with bounds that are not negative. *)
Lemma slice_take_drop {A} (l : list A) (lo hi : Z) :
  0 ≤ lo → 0 ≤ hi →
  slice l lo hi = take (Z.to_nat (hi - lo)) (drop (Z.to_nat lo) l).
Proof.
  intros Hlo Hhi. unfold slice, slice_bound, len.
  replace (lo <? 0) with false by lia. replace (hi <? 0) with false by lia.
  destruct (Z.le_gt_cases lo (Z.of_nat (length l))) as [Hin|Hout].
  - rewrite (Z.min_l lo) by done.
    destruct (Z.le_gt_cases hi (Z.of_nat (length l))) as [Hin'|Hout'].
    + by rewrite (Z.min_l hi).
    + rewrite (Z.min_r hi) by lia.
      rewrite !take_ge; [done | rewrite length_drop; lia..].
  - rewrite (Z.min_r lo) by lia.
    rewrite !drop_ge by lia. by rewrite !take_nil.
Qed.

Lemma slice_from_drop {A} (l : list A) (lo : Z) :
  0 ≤ lo → slice_from l lo = drop (Z.to_nat lo) l.
Proof.
  intros Hlo. unfold slice_from, slice_bound, len.
  replace (lo <? 0) with false by lia.
  destruct (Z.le_gt_cases lo (Z.of_nat (length l))) as [Hin|Hout].
  - by rewrite Z.min_l.
  - rewrite Z.min_r by lia. rewrite !drop_ge; [done | lia..].
Qed.

Lemma parse_loop_spec (packet : bytes) (start_pos : Z) :
  ∀ (fuel : nat) (pos remaining_length multiplier : Z),
    0 ≤ pos → (Z.to_nat (start_pos + 4 - pos) ≤ fuel)%nat →
    let consumed := through_last (window packet start_pos pos) in
    _parse_mqtt_remaining_length_loop
      fuel packet start_pos pos remaining_length multiplier
    = Ok (remaining_length + multiplier * base128 consumed, pos + len consumed).
Proof.
  induction fuel as [|fuel IH]; intros pos rl mult Hpos Hfuel consumed;
    subst consumed; unfold window.
  - cbn [_parse_mqtt_remaining_length_loop].
    replace (pos <? start_pos + 4) with false by lia.
    rewrite andb_false_r.
    replace (Z.to_nat (start_pos + 4 - pos)) with 0%nat by lia.
    rewrite take_0. cbn. f_equal. f_equal; unfold len; cbn; lia.
  - cbn [_parse_mqtt_remaining_length_loop].
    destruct (Z.ltb_spec pos (len packet)) as [Hin|Hout]; cbn [andb].
    2:{ rewrite drop_ge by (unfold len in Hout; lia). rewrite take_nil.
        destruct (pos <? start_pos + 4); cbn; f_equal; f_equal; unfold len; cbn; lia. }
    destruct (Z.ltb_spec pos (start_pos + 4)) as [Hlt|Hge].
    2:{ replace (Z.to_nat (start_pos + 4 - pos)) with 0%nat by lia.
        rewrite take_0. cbn. f_equal. f_equal; unfold len; cbn; lia. }
    destruct (getitem_lookup packet pos) as (b & Hb & ->); [lia|].
    cbn [mbind result_bind bind].
    replace (Z.to_nat (start_pos + 4 - pos))
      with (S (Z.to_nat (start_pos + 4 - (pos + 1)))) by lia.
    rewrite (drop_S _ _ _ Hb). cbn [take fmap list_fmap through_last].
    destruct (Z.eqb_spec (Z.land (byte_val b) 128) 0) as [Hstop|Hmore].
    + cbn [base128]. f_equal. f_equal; unfold len; cbn; lia.
    + rewrite IH by lia. unfold window.
      replace (Z.to_nat (pos + 1)) with (S (Z.to_nat pos)) by lia.
      cbn [base128]. rewrite len_cons. f_equal. f_equal; lia.
Qed.

(** What the decoder returns on an offset that is not negative: it reads
    the bytes from [start_pos] through the first one without continuation
    bit, four at most, and never fails. *)
Lemma parse_remaining_length_spec (packet : bytes) (start_pos : Z) :
  0 ≤ start_pos →
  let consumed := through_last (byte_val <$> slice packet start_pos (start_pos + 4)) in
  _parse_mqtt_remaining_length packet start_pos
  = Ok (base128 consumed, start_pos + len consumed).
Proof.
  intros Hstart consumed. unfold _parse_mqtt_remaining_length.
  rewrite parse_loop_spec by lia. unfold window.
  subst consumed. rewrite slice_take_drop by lia.
  replace (start_pos + 4 - start_pos) with 4 by lia.
  f_equal. f_equal; lia.
Qed.

Lemma through_last_length (l : list Z) : (length (through_last l) ≤ length l)%nat.
Proof.
  induction l as [|b l IH]; cbn; [done|].
  destruct (Z.land b 128 =? 0); cbn; lia.
Qed.

Lemma through_last_numeral (l rest : list Z) :
  well_terminated l = true → through_last (l ++ rest) = l.
Proof.
  induction l as [|b l IH]; cbn; [done|].
  destruct (Z.land b 128 =? 0).
  - intros ->%bool_decide_eq_true. done.
  - intros H. by rewrite IH.
Qed.

Lemma well_terminated_take (l rest : list Z) (n : nat) :
  well_terminated l = true → (length l ≤ n)%nat →
  through_last (take n (l ++ rest)) = l.
Proof.
  intros Hwt Hlen. rewrite take_app_ge by done.
  by apply through_last_numeral.
Qed.

(** Decoding inverts encoding below [128 ^ 4], wherever the numeral sits
    in the packet. *)
Lemma remaining_length_roundtrip (n : Z) (before after : bytes) :
  0 ≤ n < 128 ^ 4 →
  ∃ bs, _encode_mqtt_remaining_length n = Ok bs
        ∧ (1 ≤ length bs ≤ 4)%nat
        ∧ _parse_mqtt_remaining_length (before ++ bs ++ after) (len before)
          = Ok (n, len before + len bs).
Proof.
  intros Hn.
  destruct (encode_remaining_length_spec n) as (bs & Hbs & Hwt & Hval & Hlen); [lia|].
  specialize (Hlen 3%nat (proj2 Hn)).
  exists bs. split; [done|]. split.
  { split; [|done]. destruct bs; [done | cbn; lia]. }
  rewrite parse_remaining_length_spec by apply len_nonneg.
  assert (through_last
            (byte_val <$> slice (before ++ bs ++ after) (len before) (len before + 4))
          = byte_val <$> bs) as ->.
  { rewrite slice_take_drop by (pose proof (len_nonneg before); lia).
    replace (len before + 4 - len before) with 4 by lia.
    unfold len. rewrite Nat2Z.id, drop_app_length.
    rewrite fmap_take, fmap_app.
    apply well_terminated_take; [done|by rewrite length_fmap]. }
  rewrite Hval. unfold len. by rewrite length_fmap.
Qed.

(** C2. Remaining-length round trip: for each of 0, 1, 127, 128, 16383,
    16384 and 2097151 the encoder returns 1, 1, 1, 2, 2, 3 and 3 bytes, and
    decoding them from their first byte returns the integer (and the offset
    after the last byte). *)
Theorem remaining_length_roundtrip_samples :
  Forall (λ sample : Z * Z,
            ∃ bs, _encode_mqtt_remaining_length sample.1 = Ok bs
                  ∧ len bs = sample.2
                  ∧ _parse_mqtt_remaining_length bs 0 = Ok (sample.1, sample.2))
    [(0, 1); (1, 1); (127, 1); (128, 2); (16383, 2); (16384, 3); (2097151, 3)].
Proof.
  repeat first [apply List.Forall_nil | apply List.Forall_cons];
    eexists; (split; [vm_compute; reflexivity|]); split; reflexivity.
Qed.

(** C9, as the code has it: from an offset that is not negative the decoder
    never fails and never reads past the fourth byte; it returns the value
    of the bytes it read, which are those through the first byte without
    continuation bit, or all four when each has it. *)
Theorem parse_remaining_length_at_most_four (packet : bytes) (start_pos : Z) :
  0 ≤ start_pos →
  let consumed :=
    through_last (byte_val <$> slice packet start_pos (start_pos + 4)) in
  _parse_mqtt_remaining_length packet start_pos
  = Ok (base128 consumed, start_pos + len consumed)
  ∧ len consumed ≤ 4.
Proof.
  intros Hstart consumed. split; [by apply parse_remaining_length_spec|].
  subst consumed. unfold len.
  pose proof (through_last_length
                (byte_val <$> slice packet start_pos (start_pos + 4))) as Hlen.
  rewrite length_fmap in Hlen.
  assert (length (slice packet start_pos (start_pos + 4)) ≤ 4)%nat.
  { rewrite slice_take_drop, length_take by lia. lia. }
  lia.
Qed.

(** Four bytes with the continuation bit and a fifth byte: the decoder
    returns a value (the 28 bits of the four) and the offset 4. *)
Lemma parse_remaining_length_fifth_byte :
  _parse_mqtt_remaining_length [xff; xff; xff; xff; x01] 0 = Ok (268435455, 4).
Proof. reflexivity. Qed.

Lemma parse_remaining_length_at_most_four_witness :
  _parse_mqtt_remaining_length [xff; xff; xff; xff; x01] 0
  = Ok (base128 [255; 255; 255; 255], 0 + 4)
  ∧ 4 ≤ 4.
Proof.
  apply (parse_remaining_length_at_most_four [xff; xff; xff; xff; x01] 0). lia.
Defined.

(** ** The PUBLISH decoder *)

Section PublishDecoder.
Context `{!PyLib}.

(** Every case of [_parse_mqtt_publish_packet]: it never fails; it answers
    [(None, None)] when the packet is shorter than four bytes, when its
    remaining length is 0, or when the topic length, the topic or the
    packet identifier would end after the packet; otherwise the topic and
    the payload, which is cut at the declared length when the packet holds
    that many bytes and is the rest of the packet when it does not. *)
Lemma parse_publish_spec (packet : bytes) :
  ∃ rl body,
    _parse_mqtt_remaining_length packet 1 = Ok (rl, body) ∧ 1 ≤ body ∧
    ((len packet < 4 ∨ len packet < body + 2 ∨ rl = 0)
     ∧ _parse_mqtt_publish_packet packet = Ok (None, None)
     ∨ 4 ≤ len packet ∧ body + 2 ≤ len packet ∧ rl ≠ 0 ∧
       ∃ hi lo first,
         getitem packet body = Ok hi ∧ getitem packet (body + 1) = Ok lo
         ∧ getitem packet 0 = Ok first ∧
         let topic_length := Z.lor (Z.shiftl hi 8) lo in
         let id_length := if 1 <=? Z.shiftr (Z.land first 0x06) 1 then 2 else 0 in
         let pos := body + 2 + topic_length + id_length in
         let payload_length := rl - 2 - topic_length - id_length in
         0 ≤ topic_length ∧
         (len packet < pos
          ∧ _parse_mqtt_publish_packet packet = Ok (None, None)
          ∨ pos ≤ len packet
            ∧ _parse_mqtt_publish_packet packet
              = Ok (Some (decode_utf8_ignore
                            (slice packet (body + 2) (body + 2 + topic_length))),
                    Some (if (payload_length <? 0)
                             || (len packet <? pos + payload_length)
                          then slice_from packet pos
                          else slice packet pos (pos + payload_length))))).
Proof.
  pose proof (parse_remaining_length_spec packet 1 ltac:(lia)) as Hrl.
  cbv zeta in Hrl.
  set (consumed := through_last (byte_val <$> slice packet 1 (1 + 4))) in *.
  pose proof (len_nonneg consumed) as Hc.
  exists (base128 consumed), (1 + len consumed). split; [done|]. split; [lia|].
  unfold _parse_mqtt_publish_packet. rewrite Hrl.
  set (rl := base128 consumed). set (body := 1 + len consumed).
  destruct (Z.ltb_spec (len packet) 4) as [Hshort|Hlong]; [left; split; [lia|done]|].
  cbn [mbind result_bind bind].
  destruct (Z.ltb_spec (len packet) (body + 2)) as [Hshort|Hbody];
    cbn [orb]; [left; split; [lia|done]|].
  destruct (Z.eqb_spec rl 0) as [Hzero|Hnz]; [left; split; [lia|done]|].
  right. repeat (split; [done|]).
  destruct (getitem_lookup packet body) as (bhi & _ & Hhi); [lia|].
  destruct (getitem_lookup packet (body + 1)) as (blo & _ & Hlo); [lia|].
  destruct (getitem_lookup packet 0) as (bfirst & _ & Hfirst); [lia|].
  exists (byte_val bhi), (byte_val blo), (byte_val bfirst).
  repeat (split; [done|]). rewrite Hhi, Hlo. cbn [mbind result_bind bind].
  pose proof (byte_val_range bhi) as Hrhi. pose proof (byte_val_range blo) as Hrlo.
  set (topic_length := Z.lor (Z.shiftl (byte_val bhi) 8) (byte_val blo)).
  assert (0 ≤ topic_length) as Htl.
  { apply Z.lor_nonneg. split; [apply Z.shiftl_nonneg|]; lia. }
  cbv zeta. split; [done|]. rewrite Hfirst. cbn [mbind result_bind bind].
  set (qos := Z.shiftr (Z.land (byte_val bfirst) 6) 1).
  destruct (Z.ltb_spec (len packet) (body + 2 + topic_length)) as [Hcut|Htopic].
  { left. split; [destruct (1 <=? qos); lia | done]. }
  destruct (Z.leb_spec 1 qos) as [Hqos|Hqos]; cbn [andb].
  - destruct (Z.ltb_spec (len packet) (body + 2 + topic_length + 2)) as [Hcut|Hid].
    + left. split; [lia|done].
    + right. split; [lia|done].
  - right. split; [lia|].
    replace (body + 2 + topic_length + 0) with (body + 2 + topic_length) by lia.
    done.
Qed.

End PublishDecoder.

(** A remaining length that is not 0 takes at least one byte. *)
Lemma parse_remaining_length_consumes (packet : bytes) (rl body : Z) :
  _parse_mqtt_remaining_length packet 1 = Ok (rl, body) → rl ≠ 0 → 2 ≤ body.
Proof.
  rewrite parse_remaining_length_spec by lia. cbv zeta.
  destruct (through_last _) as [|b consumed]; intros [= <- <-]; [done|].
  rewrite len_cons. pose proof (len_nonneg consumed). lia.
Qed.

(** C3, as the code has it: a PUBLISH packet that declares more bytes than
    it holds is decoded without error, and the bytes it holds decide to
    what.  When the two bytes of the topic length end after the packet, or
    the topic or the packet identifier do, the decoder answers
    [(None, None)]; in every other case it answers the topic with every
    byte that is left after the header as payload. *)
Theorem publish_declares_more_than_held `{!PyLib} (packet : bytes) (rl body : Z) :
  _parse_mqtt_remaining_length packet 1 = Ok (rl, body) →
  len packet - body < rl →
  (len packet < body + 2 → _parse_mqtt_publish_packet packet = Ok (None, None))
  ∧ (body + 2 ≤ len packet →
     ∃ hi lo first,
       getitem packet body = Ok hi ∧ getitem packet (body + 1) = Ok lo
       ∧ getitem packet 0 = Ok first ∧
       let topic_length := Z.lor (Z.shiftl hi 8) lo in
       let pos := body + 2 + topic_length
                  + (if 1 <=? Z.shiftr (Z.land first 0x06) 1 then 2 else 0) in
       (len packet < pos → _parse_mqtt_publish_packet packet = Ok (None, None))
       ∧ (pos ≤ len packet →
          _parse_mqtt_publish_packet packet
          = Ok (Some (decode_utf8_ignore
                        (slice packet (body + 2) (body + 2 + topic_length))),
                Some (slice_from packet pos)))).
Proof.
  intros Hrl Hmore.
  destruct (parse_publish_spec packet) as (rl' & body' & Hrl' & Hbody & Hcases).
  rewrite Hrl in Hrl'. injection Hrl' as <- <-.
  split.
  - intros Hshort.
    destruct Hcases as [[_ Hnone]|(_ & Hheld & _)]; [done|lia].
  - intros Hheld.
    assert (rl ≠ 0) as Hnz by lia.
    pose proof (parse_remaining_length_consumes packet rl body Hrl Hnz) as Htwo.
    destruct Hcases as [[Hout _]|(_ & _ & _ & hi & lo & first & Hhi & Hlo & Hfirst & Hrest)];
      [lia|].
    cbv zeta in Hrest. destruct Hrest as [_ Hrest].
    exists hi, lo, first. repeat (split; [done|]). cbv zeta.
    set (id_length := if 1 <=? _ then 2 else 0) in *.
    set (topic_length := Z.lor _ _) in *.
    split.
    + intros Hcut. destruct Hrest as [[_ Hnone]|[Hpos _]]; [done|lia].
    + intros Hpos. destruct Hrest as [[Hcut _]|[_ Hsome]]; [lia|].
      rewrite Hsome.
      replace ((rl - 2 - topic_length - id_length <? 0)
               || (len packet <? body + 2 + topic_length + id_length
                                 + (rl - 2 - topic_length - id_length)))
        with true by lia.
      done.
Qed.

(** A PUBLISH packet that declares ten bytes and holds five: the decoder
    returns its topic and the two bytes it has of the payload. *)
Lemma publish_declares_more_than_held_sample :
  _parse_mqtt_publish_packet (H := Reference.python)
    [x30; x0a; x00; x01; x74; x61; x62]
  = Ok (Some "t", Some [x61; x62]).
Proof. reflexivity. Qed.

Lemma publish_declares_more_than_held_witness :
  let truncated := [x30; x0a; x00; x01; x74; x61; x62] in
  let cut_topic := [x30; x0a; x00; x05; x74; x61; x62] in
  let cut_header := [x30; x0a; x00] in
  _parse_mqtt_publish_packet (H := Reference.python) truncated
  = Ok (Some "t", Some [x61; x62])
  ∧ _parse_mqtt_publish_packet (H := Reference.python) cut_topic = Ok (None, None)
  ∧ _parse_mqtt_publish_packet (H := Reference.python) cut_header = Ok (None, None).
Proof.
  intros truncated cut_topic cut_header.
  destruct (publish_declares_more_than_held (H := Reference.python)
              truncated 10 2 eq_refl eq_refl) as [_ Hheld].
  destruct (Hheld ltac:(by vm_compute))
    as (hi & lo & first & Hhi & Hlo & Hfirst & _ & Hsome).
  injection Hhi as <-. injection Hlo as <-. injection Hfirst as <-.
  split; [exact (Hsome ltac:(by vm_compute))|].
  destruct (publish_declares_more_than_held (H := Reference.python)
              cut_topic 10 2 eq_refl eq_refl) as [_ Hheld'].
  destruct (Hheld' ltac:(by vm_compute))
    as (hi & lo & first & Hhi & Hlo & Hfirst & Hnone & _).
  injection Hhi as <-. injection Hlo as <-. injection Hfirst as <-.
  split; [exact (Hnone ltac:(by vm_compute))|].
  destruct (publish_declares_more_than_held (H := Reference.python)
              cut_header 10 2 eq_refl eq_refl) as [Hshort _].
  exact (Hshort ltac:(by vm_compute)).
Defined.

(** ** Stateful code: how results compose *)

Lemma bind_ok {A B} (m : M A) (k : A → M B) (w w' : world) (a : A) :
  m w = (Ok a, w') → (m ≫= k) w = k a w'.
Proof. intros Hm. unfold mbind, M_bind, mbindM. by rewrite Hm. Qed.

Lemma returns_terminates {A} (m : M A) : returns m → terminates m.
Proof. intros Hm w. by destruct (Hm w) as (a & w' & ->). Qed.

Lemma terminates_bind {A B} (m : M A) (k : A → M B) :
  terminates m → (∀ a, terminates (k a)) → terminates (m ≫= k).
Proof.
  intros Hm Hk w. unfold mbind, M_bind, mbindM.
  specialize (Hm w). destruct (m w) as [[a|e|] w']; [apply Hk|done..].
Qed.

Lemma returns_bind {A B} (m : M A) (k : A → M B) :
  returns m → (∀ a, returns (k a)) → returns (m ≫= k).
Proof.
  intros Hm Hk w. destruct (Hm w) as (a & w' & Ha).
  rewrite (bind_ok _ _ _ _ _ Ha). apply Hk.
Qed.

Lemma returns_ret {A} (a : A) : returns (ret a).
Proof. intros w. by eexists _, _. Qed.

Lemma returns_gets {A} (f : world → A) : returns (gets f).
Proof. intros w. by eexists _, _. Qed.

Lemma returns_modify (f : world → world) : returns (modify f).
Proof. intros w. by eexists _, _. Qed.

Lemma returns_log (level : log_level) (msg : string) : returns (log level msg).
Proof. apply returns_modify. Qed.

Lemma returns_sleep (seconds : number) : returns (sleep seconds).
Proof. apply returns_modify. Qed.

Lemma terminates_raise {A} (e : exn) : terminates (raise (A := A) e).
Proof. by intros w. Qed.

Lemma terminates_pure {A} (r : result A) : r ≠ OutOfFuel → terminates (pure r).
Proof. by intros Hr w. Qed.

Lemma call_terminates {A} (r : A + exn) : call r ≠ OutOfFuel.
Proof. by destruct r. Qed.

Lemma get_terminates (obj : json) (key : string) (default : json) :
  get obj key default ≠ OutOfFuel.
Proof. by destruct obj. Qed.

Lemma has_key_terminates (obj : json) (key : string) :
  has_key obj key ≠ OutOfFuel.
Proof. by destruct obj. Qed.

Lemma mapping_terminates (obj : json) : mapping obj ≠ OutOfFuel.
Proof. by destruct obj. Qed.

Lemma getitem_terminates (packet : bytes) (i : Z) : getitem packet i ≠ OutOfFuel.
Proof. unfold getitem. by repeat case_match. Qed.

(** [try ... except Exception] returns when its body is not cut off and
    its handler returns. *)
Lemma try_except_returns {A} (body : M A) (handler : exn → M A) :
  terminates body → (∀ e, returns (handler e)) → returns (try_except body handler).
Proof.
  intros Hbody Hhandler w. unfold try_except.
  specialize (Hbody w). destruct (body w) as [[a|e|] w']; [by eexists _, _| |done].
  apply Hhandler.
Qed.

Lemma try_except_terminates {A} (body : M A) (handler : exn → M A) :
  terminates body → (∀ e, terminates (handler e)) →
  terminates (try_except body handler).
Proof.
  intros Hbody Hhandler w. unfold try_except.
  specialize (Hbody w). destruct (body w) as [[a|e|] w']; [done| |done].
  apply Hhandler.
Qed.

Create HintDb returns.
#[local] Hint Resolve returns_ret returns_gets returns_modify returns_log
  returns_sleep returns_terminates terminates_raise call_terminates
  get_terminates has_key_terminates mapping_terminates getitem_terminates
  : returns.

(** ** The coordinator *)

Lemma async_set_updated_data_returns (d : gmap string json) :
  returns (async_set_updated_data d).
Proof. intros w. by eexists _, _. Qed.

Lemma _mqtt_callback_terminates (payload : json) : terminates (_mqtt_callback payload).
Proof.
  unfold _mqtt_callback. apply terminates_bind; [auto with returns|]; intros d.
  apply terminates_bind; [apply terminates_pure; auto with returns|]; intros items.
  apply returns_terminates, async_set_updated_data_returns.
Qed.

(** ** Inbound frames *)

Section InboundFacts.
Context `{!PyLib}.
Variable callback : json → M unit.
Hypothesis callback_terminates : ∀ payload, terminates (callback payload).

Lemma handle_publish_payload_terminates (payload_bytes : bytes) :
  terminates (_handle_publish_payload callback payload_bytes).
Proof.
  unfold _handle_publish_payload.
  repeat (apply terminates_bind; [apply terminates_pure; auto with returns|]; intros ?).
  case_match.
  - apply terminates_bind; [auto with returns|]. intros _. apply callback_terminates.
  - apply terminates_bind; [apply terminates_pure; auto with returns|]. intros b.
    destruct b; auto with returns.
Qed.

Lemma handle_mqtt_packet_returns (packet : bytes) :
  returns (_handle_mqtt_packet callback packet).
Proof.
  unfold _handle_mqtt_packet.
  destruct (Z.ltb_spec (len packet) 2) as [Hshort|Hlong]; [auto with returns|].
  destruct (getitem_lookup packet 0) as (first & _ & Hfirst); [lia|].
  apply returns_bind; [intros w; rewrite Hfirst; by eexists _, _|]. intros first'.
  repeat case_match; auto with returns.
  - destruct (getitem_lookup packet 3) as (code & _ & Hcode); [lia|].
    apply returns_bind; [intros w; rewrite Hcode; by eexists _, _|]. intros code'.
    case_match; auto with returns.
  - destruct (parse_publish_spec packet) as (rl & body & _ & _ & Hcases).
    assert (∃ r, _parse_mqtt_publish_packet packet = Ok r) as [r Hr].
    { destruct Hcases as [[_ ->]|(_ & _ & _ & hi & lo & f & _ & _ & _ & Hrest)];
        [by eexists|].
      cbv zeta in Hrest. destruct Hrest as [_ [[_ ->]|[_ ->]]]; by eexists. }
    apply returns_bind; [intros w; rewrite Hr; by eexists _, _|].
    intros [[topic|] [payload_bytes|]]; auto with returns.
    case_match; auto with returns.
    apply returns_bind; [auto with returns|]. intros _.
    case_match; auto with returns.
    apply try_except_returns; [apply handle_publish_payload_terminates|].
    auto with returns.
Qed.

End InboundFacts.

Lemma bind_pure {A B} (r : result A) (k : A → M B) (w : world) (a : A) :
  r = Ok a → (pure r ≫= k) w = k a w.
Proof. by intros ->. Qed.

Lemma bind_log {B} (level : log_level) (msg : string) (k : () → M B) (w : world) :
  (log level msg ≫= k) w = k () (emit (Log level msg) w).
Proof. done. Qed.

Lemma data_emit_all (events : list event) (w : world) :
  data (emit_all events w) = data w.
Proof.
  unfold emit_all. revert w.
  induction events as [|e events IH]; intros w; cbn [foldl]; [done|].
  by rewrite IH.
Qed.

Lemma trace_emit_all (events : list event) (w : world) :
  trace (emit_all events w) = trace w ++ events.
Proof.
  unfold emit_all. revert w.
  induction events as [|e events IH]; intros w; cbn [foldl].
  - by rewrite app_nil_r.
  - rewrite IH. cbn. by rewrite <- app_assoc.
Qed.

Section InboundCases.
Context `{!PyLib}.
Variable callback : json → M unit.

(** The handler on a PUBLISH packet of two bytes or more. *)
Lemma handle_publish_packet (packet : bytes) (w : world) :
  2 ≤ len packet → has_type packet 3 →
  _handle_mqtt_packet callback packet w
  = match _parse_mqtt_publish_packet packet with
    | Ok (Some topic, Some payload_bytes) =>
        if negb (String.eqb topic "") && negb (bool_decide (payload_bytes = []))
        then
          if contains "/shadow/get/accepted" topic
             || contains "/shadow/update/accepted" topic
          then
            try_except (_handle_publish_payload callback payload_bytes)
              (λ err, log ERROR "解析 PUBLISH payload 失败: %s")
              (emit (Log DEBUG "收到 PUBLISH 消息，主题: %s") w)
          else (Ok (), emit (Log DEBUG "收到 PUBLISH 消息，主题: %s") w)
        else (Ok (), w)
    | Ok _ => (Ok (), w)
    | Raise e => (Raise e, w)
    | OutOfFuel => (OutOfFuel, w)
    end.
Proof.
  intros Hlen (first & Hfirst & Htype). unfold _handle_mqtt_packet.
  replace (len packet <? 2) with false by lia.
  rewrite (bind_pure _ _ _ _ Hfirst). rewrite Htype. cbn [Z.eqb Pos.eqb].
  unfold mbind at 1, M_bind at 1, mbindM at 1, pure at 1.
  destruct (_parse_mqtt_publish_packet packet) as [[[topic|] [payload_bytes|]]|e|];
    try done.
  destruct (negb _ && negb _); [|done].
  rewrite bind_log. by destruct (contains _ _ || contains _ _).
Qed.

(** The [try] block, step by step. *)
Lemma handle_publish_payload_steps (payload_bytes : bytes) (w : world) :
  _handle_publish_payload callback payload_bytes w
  = match decode_utf8 payload_bytes with
    | inr e => (Raise e, w)
    | inl payload_str =>
        match json_loads payload_str with
        | inr e => (Raise e, w)
        | inl payload_data =>
            match get payload_data "state" (JDict []) with
            | Ok state =>
                match get state "reported" (JDict []) with
                | Ok reported =>
                    if truthy reported
                    then callback reported
                           (emit (Log DEBUG "设备状态更新 (reported): %s") w)
                    else
                      match has_key state "desired" with
                      | Ok true =>
                          (Ok (), emit (Log DEBUG "收到 desired 状态，等待 reported 状态更新") w)
                      | Ok false => (Ok (), w)
                      | Raise e => (Raise e, w)
                      | OutOfFuel => (OutOfFuel, w)
                      end
                | Raise e => (Raise e, w)
                | OutOfFuel => (OutOfFuel, w)
                end
            | Raise e => (Raise e, w)
            | OutOfFuel => (OutOfFuel, w)
            end
        end
    end.
Proof.
  unfold _handle_publish_payload, mbind, M_bind, mbindM, pure.
  destruct (decode_utf8 payload_bytes) as [payload_str|e]; [|done]. cbn [call].
  destruct (json_loads payload_str) as [payload_data|e]; [|done]. cbn [call].
  destruct (get payload_data "state" (JDict [])) as [state|e|]; [|done..].
  destruct (get state "reported" (JDict [])) as [reported|e|]; [|done..].
  destruct (truthy reported); [done|].
  by destruct (has_key state "desired") as [[]|e|].
Qed.

End InboundCases.

Lemma handle_short_packet `{!PyLib} (callback : json → M unit)
    (packet : bytes) (w : world) :
  len packet < 2 → _handle_mqtt_packet callback packet w = (Ok (), w).
Proof.
  intros Hshort. unfold _handle_mqtt_packet.
  by replace (len packet <? 2) with true by lia.
Qed.

Lemma header_overruns_none `{!PyLib} (packet : bytes) :
  header_overruns packet → _parse_mqtt_publish_packet packet = Ok (None, None).
Proof.
  intros (rl & body & Hrl & Hover).
  destruct (parse_publish_spec packet) as (rl' & body' & Hrl' & _ & Hcases).
  rewrite Hrl in Hrl'. injection Hrl' as <- <-.
  destruct Hcases as [[_ Hnone]|(_ & Hbody & _ & hi & lo & first & Hhi & Hlo & Hfirst & Hrest)];
    [done|].
  cbv zeta in Hrest. destruct Hrest as [_ [[_ Hnone]|[Hpos _]]]; [done|].
  destruct Hover as [Hshort|(hi' & lo' & first' & Hhi' & Hlo' & Hfirst' & Hshort)];
    [lia|].
  rewrite Hhi in Hhi'. rewrite Hlo in Hlo'. rewrite Hfirst in Hfirst'.
  injection Hhi' as <-. injection Hlo' as <-. injection Hfirst' as <-. lia.
Qed.

(** C10. Whatever bytes the handler is given, it returns: nothing is raised
    out of it (given a callback that is not cut off).  A packet shorter
    than two bytes changes nothing.  A PUBLISH packet whose header ends
    after the packet decodes to [(None, None)] and changes nothing, so no
    callback is made.  The topic of a decoded PUBLISH is what decoding with
    [errors="ignore"] gives.  When [json.loads] raises on the payload, the
    handler returns after logging an error. *)
Theorem handle_mqtt_packet_total `{!PyLib} (callback : json → M unit) :
  (∀ payload, terminates (callback payload)) →
  ∀ (packet : bytes) (w : world),
    (∃ w', _handle_mqtt_packet callback packet w = (Ok (), w'))
    ∧ (len packet < 2 → _handle_mqtt_packet callback packet w = (Ok (), w))
    ∧ (has_type packet 3 → header_overruns packet →
       _parse_mqtt_publish_packet packet = Ok (None, None)
       ∧ _handle_mqtt_packet callback packet w = (Ok (), w))
    ∧ (∀ topic payload_bytes,
         _parse_mqtt_publish_packet packet = Ok (Some topic, Some payload_bytes) →
         ∃ lo hi, topic = decode_utf8_ignore (slice packet lo hi))
    ∧ (∀ topic payload_bytes payload_str e,
         has_type packet 3 →
         _parse_mqtt_publish_packet packet = Ok (Some topic, Some payload_bytes) →
         topic ≠ "" → payload_bytes ≠ [] →
         contains "/shadow/get/accepted" topic
         || contains "/shadow/update/accepted" topic = true →
         decode_utf8 payload_bytes = inl payload_str →
         json_loads payload_str = inr e →
         ∃ msg msg',
           _handle_mqtt_packet callback packet w
           = (Ok (), emit_all [Log DEBUG msg; Log ERROR msg'] w)).
Proof.
  intros Hcallback packet w. repeat split.
  - destruct (handle_mqtt_packet_returns callback Hcallback packet w)
      as ([] & w' & Hw'). by exists w'.
  - apply handle_short_packet.
  - by apply header_overruns_none.
  - destruct (Z.lt_ge_cases (len packet) 2) as [Hshort|Hlong];
      [by apply handle_short_packet|].
    rewrite handle_publish_packet by done.
    by rewrite header_overruns_none.
  - intros topic payload_bytes Hparse.
    destruct (parse_publish_spec packet) as (rl & body & _ & _ & Hcases).
    destruct Hcases as [[_ Hnone]|(_ & _ & _ & hi & lo & first & _ & _ & _ & Hrest)];
      [congruence|].
    cbv zeta in Hrest. destruct Hrest as [_ [[_ Hnone]|[_ Hsome]]]; [congruence|].
    rewrite Hsome in Hparse. injection Hparse as <- _. by eexists _, _.
  - intros topic payload_bytes payload_str e Htype Hparse Htopic Hpayload
      Haccepted Hdecode Hloads.
    assert (2 ≤ len packet) as Hlong.
    { destruct (Z.lt_ge_cases (len packet) 2) as [Hshort|Hlong]; [|done].
      unfold _parse_mqtt_publish_packet in Hparse.
      by replace (len packet <? 4) with true in Hparse by lia. }
    rewrite handle_publish_packet, Hparse by done.
    replace (negb (topic =? "")%string) with true
      by (symmetry; apply negb_true_iff, String.eqb_neq, Htopic).
    rewrite bool_decide_eq_false_2 by done. cbn [negb andb].
    rewrite Haccepted. unfold try_except.
    rewrite handle_publish_payload_steps, Hdecode, Hloads.
    by eexists _, _.
Qed.

Lemma handle_mqtt_packet_total_witness :
  let w := idle None silent in
  let bad_json := inbound_publish "$aws/things/dev1/shadow/get/accepted" "{" in
  (∃ w', _handle_mqtt_packet (H := Reference.python) _mqtt_callback bad_json w
         = (Ok (), w'))
  ∧ _handle_mqtt_packet (H := Reference.python) _mqtt_callback [x30] w = (Ok (), w)
  ∧ _handle_mqtt_packet (H := Reference.python) _mqtt_callback
      [x30; x05; x00; x09; x61; x62] w = (Ok (), w)
  ∧ (∃ msg msg',
       _handle_mqtt_packet (H := Reference.python) _mqtt_callback bad_json w
       = (Ok (), emit_all [Log DEBUG msg; Log ERROR msg'] w)).
Proof.
  intros w bad_json.
  pose proof (handle_mqtt_packet_total (H := Reference.python) _mqtt_callback
                _mqtt_callback_terminates) as Htotal.
  split; [exact (proj1 (Htotal bad_json w))|].
  split.
  { destruct (Htotal [x30] w) as (_ & Hshort & _). apply Hshort. by vm_compute. }
  split.
  - destruct (Htotal [x30; x05; x00; x09; x61; x62] w) as (_ & _ & Hover & _).
    apply Hover.
    + exists 48. split; reflexivity.
    + exists 5, 2. split; [reflexivity|]. right.
      exists 0, 9, 48. repeat split; reflexivity.
  - destruct (Htotal bad_json w) as (_ & _ & _ & _ & Hjson).
    apply (Hjson "$aws/things/dev1/shadow/get/accepted" [x7b] "{" JSONDecodeError).
    + exists 48. split; reflexivity.
    + reflexivity.
    + discriminate.
    + discriminate.
    + reflexivity.
    + reflexivity.
    + reflexivity.
Defined.

(** ** Only [reported] reaches the coordinator *)

#[local] Tactic Notation "logs_only" uconstr(events) :=
  eexists events; split; [|reflexivity]; reflexivity.

Lemma classic_has_type (packet : bytes) : has_type packet 3 ∨ ¬ has_type packet 3.
Proof.
  unfold has_type. destruct (getitem packet 0) as [first|e|] eqn:Hfirst.
  - destruct (decide (Z.shiftr (Z.land first 0xF0) 4 = 3)) as [Heq|Hne].
    + left. by exists first.
    + right. intros (first' & [= <-] & Hthree). done.
  - right. by intros (first' & [=] & _).
  - right. by intros (first' & [=] & _).
Qed.

Section Reported.
Context `{!PyLib}.

(** Packets that are no PUBLISH only leave log lines. *)
Lemma handle_other_packet (callback : json → M unit) (packet : bytes) (w : world) :
  ¬ has_type packet 3 →
  ∃ events, forallb is_log events = true
            ∧ _handle_mqtt_packet callback packet w = (Ok (), emit_all events w).
Proof.
  intros Hother. unfold _handle_mqtt_packet.
  destruct (Z.ltb_spec (len packet) 2) as [Hshort|Hlong]; [logs_only (@nil event)|].
  destruct (getitem_lookup packet 0) as (first & _ & Hfirst); [lia|].
  rewrite (bind_pure _ _ _ _ Hfirst).
  destruct (Z.eqb_spec (Z.shiftr (Z.land (byte_val first) 240) 4) 2) as [_|_].
  { destruct (Z.leb_spec 4 (len packet)) as [Hfour|_]; [|logs_only (@nil event)].
    destruct (getitem_lookup packet 3) as (code & _ & Hcode); [lia|].
    rewrite (bind_pure _ _ _ _ Hcode).
    destruct (byte_val code =? 0); logs_only [_]. }
  destruct (Z.eqb_spec (Z.shiftr (Z.land (byte_val first) 240) 4) 9) as [_|_];
    [logs_only [_]|].
  destruct (Z.eqb_spec (Z.shiftr (Z.land (byte_val first) 240) 4) 3) as [Hthree|_];
    [|logs_only (@nil event)].
  destruct Hother. by exists (byte_val first).
Qed.

(** What a PUBLISH packet does to the world: log lines only, or log lines
    and one call of the callback, on the [reported] member of the [state]
    of the JSON document in the payload. *)
Lemma handle_mqtt_packet_cases (callback : json → M unit)
    (packet : bytes) (w : world) :
  (∃ events, forallb is_log events = true
             ∧ _handle_mqtt_packet callback packet w = (Ok (), emit_all events w))
  ∨ ∃ topic payload_bytes payload_str payload_data state reported events,
      _parse_mqtt_publish_packet packet = Ok (Some topic, Some payload_bytes)
      ∧ decode_utf8 payload_bytes = inl payload_str
      ∧ json_loads payload_str = inl payload_data
      ∧ get payload_data "state" (JDict []) = Ok state
      ∧ get state "reported" (JDict []) = Ok reported
      ∧ truthy reported = true
      ∧ forallb is_log events = true
      ∧ _handle_mqtt_packet callback packet w
        = try_except (callback reported)
            (λ err, log ERROR "解析 PUBLISH payload 失败: %s") (emit_all events w).
Proof.
  destruct (classic_has_type packet) as [Htype|Hother];
    [|left; by apply handle_other_packet].
  destruct (Z.lt_ge_cases (len packet) 2) as [Hshort|Hlong].
  { left. exists []. split; [done|]. by apply handle_short_packet. }
  rewrite handle_publish_packet by done.
  destruct (_parse_mqtt_publish_packet packet)
    as [[[topic|] [payload_bytes|]]|e|] eqn:Hparse;
    try (left; logs_only (@nil event)).
  2,3: destruct (parse_publish_spec packet) as (? & ? & _ & _ & Hcases);
       destruct Hcases as [[_ ?]|(_ & _ & _ & ? & ? & ? & _ & _ & _ & Hrest)];
       [congruence|]; cbv zeta in Hrest;
       destruct Hrest as [_ [[_ ?]|[_ ?]]]; congruence.
  destruct (negb _ && negb _); [|left; logs_only (@nil event)].
  destruct (contains _ _ || contains _ _); [|left; logs_only [_]].
  unfold try_except. rewrite !handle_publish_payload_steps.
  destruct (decode_utf8 payload_bytes) as [payload_str|e] eqn:Hdecode;
    [|left; logs_only [_; _]].
  destruct (json_loads payload_str) as [payload_data|e] eqn:Hloads;
    [|left; logs_only [_; _]].
  destruct (get payload_data "state" (JDict [])) as [state|e|] eqn:Hstate;
    [|left; logs_only [_; _]|by destruct payload_data].
  destruct (get state "reported" (JDict [])) as [reported|e|] eqn:Hreported;
    [|left; logs_only [_; _]|by destruct state].
  destruct (truthy reported) eqn:Htruthy.
  - right. exists topic, payload_bytes, payload_str, payload_data, state, reported.
    eexists [_; _]. repeat (split; [done|]).
    split; [|reflexivity]; reflexivity.
  - left. destruct state; try discriminate Hreported. cbn [has_key].
    destruct (bool_decide _); [logs_only [_; _]|logs_only [_]].
Qed.

End Reported.

Lemma _mqtt_callback_steps (payload : json) (w : world) :
  _mqtt_callback payload w
  = match mapping payload with
    | Ok payload_items =>
        (Ok (), emit ListenersUpdated
                  (set_last_update_success true
                     (set_data (Some (payload_items ∪ data_or_empty w)) w)))
    | Raise e => (Raise e, w)
    | OutOfFuel => (OutOfFuel, w)
    end.
Proof.
  unfold _mqtt_callback, mbind, M_bind, mbindM, gets, pure.
  by destruct (mapping payload).
Qed.

(** C4. Whatever packet arrives, the snapshot either stays as it is or
    becomes the old snapshot overlaid with exactly the members of
    [state.reported] of the JSON document the packet carries.  A document
    whose [reported] is absent or empty (one with [desired] alone, say)
    leaves log lines and nothing else, whatever the callback is: the
    callback is not called and the snapshot does not change. *)
Theorem only_reported_is_merged `{!PyLib} (packet : bytes) (w : world) :
  (let w' := (_handle_mqtt_packet _mqtt_callback packet w).2 in
   data w' = data w
   ∨ ∃ topic payload_bytes payload_str payload_data state members,
       _parse_mqtt_publish_packet packet = Ok (Some topic, Some payload_bytes)
       ∧ decode_utf8 payload_bytes = inl payload_str
       ∧ json_loads payload_str = inl payload_data
       ∧ get payload_data "state" (JDict []) = Ok state
       ∧ get state "reported" (JDict []) = Ok (JDict members)
       ∧ members ≠ []
       ∧ data w' = Some (list_to_map members ∪ data_or_empty w))
  ∧ (∀ callback topic payload_bytes payload_str payload_data state reported,
       _parse_mqtt_publish_packet packet = Ok (Some topic, Some payload_bytes) →
       decode_utf8 payload_bytes = inl payload_str →
       json_loads payload_str = inl payload_data →
       get payload_data "state" (JDict []) = Ok state →
       get state "reported" (JDict []) = Ok reported →
       truthy reported = false →
       ∃ events,
         forallb is_log events = true
         ∧ _handle_mqtt_packet callback packet w = (Ok (), emit_all events w)).
Proof.
  split.
  - cbv zeta.
    destruct (handle_mqtt_packet_cases _mqtt_callback packet w)
      as [(events & _ & ->)
         |(topic & payload_bytes & payload_str & payload_data & state & reported
           & events & Hparse & Hdecode & Hloads & Hstate & Hreported & Htruthy
           & _ & ->)].
    { left. apply data_emit_all. }
    unfold try_except. rewrite _mqtt_callback_steps.
    destruct reported as [| | | | |l|members]; cbn [mapping];
      try (left; apply data_emit_all).
    right. exists topic, payload_bytes, payload_str, payload_data, state, members.
    repeat (split; [done|]). split; [by destruct members|].
    cbn. unfold data_or_empty. by rewrite data_emit_all.
  - intros callback topic payload_bytes payload_str payload_data state reported
      Hparse Hdecode Hloads Hstate Hreported Hfalsy.
    destruct (handle_mqtt_packet_cases callback packet w)
      as [Hlogs
         |(topic' & payload_bytes' & payload_str' & payload_data' & state'
           & reported' & events & Hparse' & Hdecode' & Hloads' & Hstate'
           & Hreported' & Htruthy & _)]; [done|].
    rewrite Hparse in Hparse'. injection Hparse' as <- <-.
    rewrite Hdecode in Hdecode'. injection Hdecode' as <-.
    rewrite Hloads in Hloads'. injection Hloads' as <-.
    rewrite Hstate in Hstate'. injection Hstate' as <-.
    rewrite Hreported in Hreported'. injection Hreported' as <-.
    congruence.
Qed.

Lemma only_reported_is_merged_witness :
  let w := idle (Some {["x" := JInt 1; "y" := JInt 2]}) silent in
  let state := JDict [("desired", JDict [("SetTemp", JInt 6)])] in
  let document := JDict [("state", state)] in
  let desired_only :=
    inbound_publish "$aws/things/dev1/shadow/update/accepted"
      (Reference.dumps document) in
  ∃ events,
    forallb is_log events = true
    ∧ _handle_mqtt_packet (H := Reference.python) _mqtt_callback desired_only w
      = (Ok (), emit_all events w).
Proof.
  intros w state document desired_only.
  destruct (only_reported_is_merged (H := Reference.python) desired_only w)
    as [_ Hdesired].
  apply (Hdesired _mqtt_callback "$aws/things/dev1/shadow/update/accepted"
           (encode_utf8 (Reference.dumps document)) (Reference.dumps document)
           document state (JDict [])); reflexivity.
Defined.

(** ** The coordinator's refresh *)

Lemma _async_update_data_steps (w : world) :
  _async_update_data w
  = match coordinator_device_id w with
    | None => (Ok (data_or_empty w), w)
    | Some device =>
        if String.eqb device "" then (Ok (data_or_empty w), w)
        else
          match water_data_response (env w), device_status_response (env w) with
          | inl water_data, inl (JDict status) =>
              (Ok (filter (λ kv : string * json, kv.1 ∉ ["water_data"; "device_id"])
                     (data_or_empty w)
                   ∪ (list_to_map status
                      ∪ (<["device_id" := JStr device]>
                           (<["water_data" := water_data]> ∅)))), w)
          | _, _ => preserve_or_fail w
          end
    end.
Proof.
  unfold _async_update_data, try_except, preserve_or_fail,
    mbind, M_bind, mbindM, gets, await, pure, ret, log, modify, raise.
  destruct (coordinator_device_id w) as [device|]; [|done].
  destruct (String.eqb device ""); [done|].
  destruct (water_data_response (env w)) as [water_data|e]; cbn [call];
    [|by destruct (data_truthy w)].
  destruct (device_status_response (env w)) as [status|e]; cbn [call];
    [|by destruct (data_truthy w)].
  destruct status; cbn [mapping]; by destruct (data_truthy w).
Qed.

Lemma async_refresh_steps (w : world) :
  async_refresh w
  = match _async_update_data w with
    | (Ok d, w') =>
        (Ok (), emit ListenersUpdated
                  (set_last_update_success true (set_data (Some d) w')))
    | (Raise e, w') =>
        (Ok (), emit ListenersUpdated
                  (set_last_update_success false
                     (emit (Log ERROR "Error fetching %s data: %s") w')))
    | (OutOfFuel, w') => (OutOfFuel, w')
    end.
Proof.
  unfold async_refresh, try_except, mbind, M_bind, mbindM, modify, log.
  by destruct (_async_update_data w) as [[d|e|] w'].
Qed.

Lemma data_truthy_some (w : world) :
  data_truthy w = true → data w = Some (data_or_empty w).
Proof.
  unfold data_truthy, data_or_empty. by destruct (data w).
Qed.

(** What a refresh leaves of the snapshot: the snapshot as it was, or the
    poll result under every field the snapshot held (other than
    [water_data] and [device_id]). *)
Lemma async_refresh_data (w : world) :
  ∃ w', async_refresh w = (Ok (), w') ∧
    (data w' = data w
     ∨ data w' = Some (data_or_empty w)
     ∨ ∃ device water_data status,
         coordinator_device_id w = Some device ∧ device ≠ ""
         ∧ water_data_response (env w) = inl water_data
         ∧ device_status_response (env w) = inl (JDict status)
         ∧ data w'
           = Some (filter (λ kv : string * json, kv.1 ∉ ["water_data"; "device_id"])
                     (data_or_empty w)
                   ∪ (list_to_map status
                      ∪ (<["device_id" := JStr device]>
                           (<["water_data" := water_data]> ∅))))).
Proof.
  rewrite async_refresh_steps, _async_update_data_steps.
  destruct (coordinator_device_id w) as [device|] eqn:Hdevice;
    [|eexists; split; [done|]; by right; left].
  destruct (String.eqb_spec device "") as [->|Hne];
    [eexists; split; [done|]; by right; left|].
  assert (∃ w', (let (r, w') := preserve_or_fail w in
                 match r with
                 | Ok d =>
                     (Ok (), emit ListenersUpdated
                               (set_last_update_success true (set_data (Some d) w')))
                 | Raise e =>
                     (Ok (), emit ListenersUpdated
                               (set_last_update_success false
                                  (emit (Log ERROR "Error fetching %s data: %s") w')))
                 | OutOfFuel => (OutOfFuel, w')
                 end) = (Ok (), w')
                ∧ (data w' = data w ∨ data w' = Some (data_or_empty w))) as Hfail.
  { unfold preserve_or_fail. destruct (data_truthy w);
      eexists; (split; [done|]); [by right|by left]. }
  destruct (water_data_response (env w)) as [water_data|e] eqn:Hwater;
    [|destruct Hfail as (w' & -> & Hdata); exists w'; split; [done|];
      destruct Hdata; [by left|by right; left]].
  destruct (device_status_response (env w)) as [status|e] eqn:Hstatus;
    [|destruct Hfail as (w' & -> & Hdata); exists w'; split; [done|];
      destruct Hdata; [by left|by right; left]].
  destruct status;
    try (destruct Hfail as (w' & -> & Hdata); exists w'; split; [done|];
         destruct Hdata; [by left|by right; left]).
  eexists. split; [done|]. right. right. by eexists _, _, _.
Qed.

(** A field the snapshot holds keeps its value through a refresh, unless
    it is named [water_data] or [device_id]. *)
Lemma async_refresh_keeps (w : world) (k : string) (v : json) :
  data_or_empty w !! k = Some v → k ≠ "water_data" → k ≠ "device_id" →
  data_or_empty (async_refresh w).2 !! k = Some v.
Proof.
  intros Hk Hwater Hdevice.
  destruct (async_refresh_data w) as (w' & -> & Hdata). cbn [snd].
  unfold data_or_empty at 1.
  destruct Hdata as [->|[->|(device & water_data & status & _ & _ & _ & _ & ->)]];
    [done..|].
  cbn [default]. apply lookup_union_Some_l, map_lookup_filter_Some.
  split; [done|]. cbn [fst].
  rewrite !not_elem_of_cons. repeat split; [done..|apply not_elem_of_nil].
Qed.

(** C5. When the API raises during a refresh, the refresh itself returns
    and the snapshot is the one held before.  If that snapshot is not
    empty, [_async_update_data] answers with it after a warning (no
    exception reaches the caller) and the update counts as a success. *)
Theorem poll_failure_keeps_snapshot (w : world) (device : string) (e : exn) :
  coordinator_device_id w = Some device → device ≠ "" →
  water_data_response (env w) = inr e ∨ device_status_response (env w) = inr e →
  ∃ w', async_refresh w = (Ok (), w')
        ∧ data w' = data w
        ∧ (data_truthy w = true →
           (∃ msg, _async_update_data w
                   = (Ok (data_or_empty w), emit (Log WARNING msg) w))
           ∧ last_update_success w' = true).
Proof.
  intros Hdevice Hne Hraises.
  assert (_async_update_data w = preserve_or_fail w) as Hupdate.
  { rewrite _async_update_data_steps, Hdevice.
    replace (String.eqb device "") with false
      by (symmetry; by apply String.eqb_neq).
    destruct Hraises as [->| ->]; [done|].
    by destruct (water_data_response (env w)). }
  rewrite async_refresh_steps, Hupdate. unfold preserve_or_fail.
  destruct (data_truthy w) eqn:Htruthy.
  - eexists. split; [done|]. split; [by rewrite (data_truthy_some w)|].
    intros _. split; [by eexists|done].
  - eexists. split; [done|]. split; [done|]. discriminate.
Qed.

Lemma poll_failure_keeps_snapshot_witness :
  let snapshot : gmap string json := {["x" := JInt 5; "y" := JInt 9; "z" := JInt 7]} in
  ∃ w', async_refresh (idle (Some snapshot) silent) = (Ok (), w')
        ∧ data w' = Some snapshot
        ∧ last_update_success w' = true.
Proof.
  intros snapshot.
  destruct (poll_failure_keeps_snapshot (idle (Some snapshot) silent) "dev1"
              ClientError eq_refl ltac:(discriminate) (or_introl eq_refl))
    as (w' & Hrefresh & Hdata & Htruthy).
  exists w'. split; [exact Hrefresh|]. split; [exact Hdata|].
  apply Htruthy. reflexivity.
Defined.

(** C1, as the code has it.  A push overlays the snapshot with the pushed
    fields.  After any refresh that follows, every pushed field still has
    its pushed value, unless it is named [water_data] or [device_id].  When
    the poll succeeds, a field of the status that the snapshot did not
    hold is there with the value polled, and so are the water data and the
    device id under [water_data] and [device_id] (the status not using
    these two names). *)
Theorem push_wins_over_poll (w : world) (pushed : list (string * json)) :
  let w1 := (_mqtt_callback (JDict pushed) w).2 in
  let w2 := (async_refresh w1).2 in
  data w1 = Some (list_to_map pushed ∪ data_or_empty w)
  ∧ (∀ k v,
       (list_to_map pushed : gmap string json) !! k = Some v →
       k ≠ "water_data" → k ≠ "device_id" →
       data_or_empty w2 !! k = Some v)
  ∧ (∀ device water_data status,
       coordinator_device_id w = Some device → device ≠ "" →
       water_data_response (env w) = inl water_data →
       device_status_response (env w) = inl (JDict status) →
       (∀ k, data_or_empty w1 !! k = None →
             k ≠ "water_data" → k ≠ "device_id" →
             data_or_empty w2 !! k = (list_to_map status : gmap string json) !! k)
       ∧ ((list_to_map status : gmap string json) !! "water_data" = None →
          data_or_empty w2 !! "water_data" = Some water_data)
       ∧ ((list_to_map status : gmap string json) !! "device_id" = None →
          data_or_empty w2 !! "device_id" = Some (JStr device))).
Proof.
  intros w1 w2. subst w2 w1. rewrite _mqtt_callback_steps. cbn [mapping snd].
  set (w1 := emit ListenersUpdated _).
  assert (data w1 = Some (list_to_map pushed ∪ data_or_empty w)) as Hpush by done.
  split; [done|]. split.
  - intros k v Hk Hwater Hdevice. apply async_refresh_keeps; [|done..].
    unfold data_or_empty at 1. rewrite Hpush. cbn [default].
    by apply lookup_union_Some_l.
  - intros device water_data status Hdev Hne Hwd Hstatus.
    rewrite async_refresh_steps, _async_update_data_steps.
    change (coordinator_device_id w1) with (coordinator_device_id w).
    change (env w1) with (env w). rewrite Hdev, Hwd, Hstatus.
    replace (String.eqb device "") with false
      by (symmetry; by apply String.eqb_neq).
    cbn [snd]. set (merged := filter _ _ ∪ _).
    change (data_or_empty (emit ListenersUpdated
              (set_last_update_success true (set_data (Some merged) w1))))
      with merged.
    subst merged.
    assert (∀ k : string, k ∈ ["water_data"; "device_id"] →
              filter (λ kv : string * json, kv.1 ∉ ["water_data"; "device_id"])
                (data_or_empty w1) !! k = None) as Hfiltered.
    { intros k Hk. apply map_lookup_filter_None. right. intros v _ Hnot.
      by apply Hnot. }
    split; [|split].
    + intros k Hk Hwater Hdevice. rewrite lookup_union_r.
      2:{ apply map_lookup_filter_None. left. exact Hk. }
      destruct (list_to_map status !! k) as [v|] eqn:Hv.
      * by apply lookup_union_Some_l.
      * apply lookup_union_None. split; [done|].
        by rewrite !lookup_insert_ne, lookup_empty.
    + intros Hfree.
      rewrite lookup_union_r by (apply Hfiltered; set_solver).
      rewrite lookup_union_r by done.
      by rewrite lookup_insert_ne, lookup_insert_eq.
    + intros Hfree.
      rewrite lookup_union_r by (apply Hfiltered; set_solver).
      rewrite lookup_union_r by done.
      by rewrite lookup_insert_eq.
Qed.

(** The snapshot [{"x":1,"y":2}], a push of [{"y":9}], then a successful
    poll whose status is [{"x":5,"z":7}]: the poll leaves [x] at 1 and adds
    [water_data] and [device_id], so the snapshot is not
    [{"x":5,"y":9,"z":7}]. *)
Lemma push_then_poll_sample :
  let w := idle (Some {["x" := JInt 1; "y" := JInt 2]})
             (online (JDict []) (JDict [("x", JInt 5); ("z", JInt 7)])) in
  let w1 := (_mqtt_callback (JDict [("y", JInt 9)]) w).2 in
  let w2 := (async_refresh w1).2 in
  data w1 = Some {["x" := JInt 1; "y" := JInt 9]}
  ∧ data w2 = Some {["water_data" := JDict []; "device_id" := JStr "dev1";
                     "x" := JInt 1; "y" := JInt 9; "z" := JInt 7]}
  ∧ data w2 ≠ Some {["x" := JInt 5; "y" := JInt 9; "z" := JInt 7]}.
Proof.
  intros w w1 w2. split; [by vm_compute|]. split; [by vm_compute|].
  intros Heq. apply (f_equal (λ d, d ≫= (.!! "x"))) in Heq.
  vm_compute in Heq. discriminate Heq.
Qed.

Lemma push_wins_over_poll_witness :
  let w := idle (Some {["x" := JInt 1; "y" := JInt 2]})
             (online (JDict []) (JDict [("x", JInt 5); ("z", JInt 7)])) in
  let w1 := (_mqtt_callback (JDict [("y", JInt 9)]) w).2 in
  let w2 := (async_refresh w1).2 in
  data w1 = Some ({["y" := JInt 9]} ∪ {["x" := JInt 1; "y" := JInt 2]})
  ∧ data_or_empty w2 !! "y" = Some (JInt 9)
  ∧ data_or_empty w2 !! "z" = Some (JInt 7)
  ∧ data_or_empty w2 !! "water_data" = Some (JDict [])
  ∧ data_or_empty w2 !! "device_id" = Some (JStr "dev1").
Proof.
  intros w w1 w2.
  destruct (push_wins_over_poll w [("y", JInt 9)]) as (Hpush & Hkeep & Hpoll).
  destruct (Hpoll "dev1" (JDict []) [("x", JInt 5); ("z", JInt 7)]
              eq_refl ltac:(discriminate) eq_refl eq_refl)
    as (Hadd & Hwater & Hdevice).
  split; [exact Hpush|]. split.
  { apply Hkeep; [reflexivity | discriminate | discriminate]. }
  split.
  { apply (Hadd "z"); [by vm_compute | discriminate | discriminate]. }
  split; [apply Hwater; by vm_compute | apply Hdevice; by vm_compute].
Defined.

(** ** The session: what its steps respect *)

Section Respects.
Context (R : relation world) `{!Reflexive R, !Transitive R}.

Lemma respects_ret {A} (a : A) : respects R (ret a).
Proof. intros w. reflexivity. Qed.

Lemma respects_gets {A} (f : world → A) : respects R (gets f).
Proof. intros w. reflexivity. Qed.

Lemma respects_pure {A} (r : result A) : respects R (pure r).
Proof. intros w. reflexivity. Qed.

Lemma respects_raise {A} (e : exn) : respects R (raise (A := A) e).
Proof. intros w. reflexivity. Qed.

Lemma respects_modify (f : world → world) :
  (∀ w, R w (f w)) → respects R (modify f).
Proof. intros Hf w. apply Hf. Qed.

Lemma respects_bind {A B} (m : M A) (k : A → M B) :
  respects R m → (∀ a, respects R (k a)) → respects R (m ≫= k).
Proof.
  intros Hm Hk w. unfold mbind, M_bind, mbindM.
  specialize (Hm w). destruct (m w) as [[a|e|] w']; [|done..].
  etrans; [exact Hm|apply Hk].
Qed.

Lemma respects_try_except {A} (body : M A) (handler : exn → M A) :
  respects R body → (∀ e, respects R (handler e)) →
  respects R (try_except body handler).
Proof.
  intros Hbody Hhandler w. unfold try_except.
  specialize (Hbody w). destruct (body w) as [[a|e|] w']; [done| |done].
  etrans; [exact Hbody|apply Hhandler].
Qed.

End Respects.

#[local] Instance same_connected_refl : Reflexive same_connected.
Proof. by intros w. Qed.

#[local] Instance same_connected_trans : Transitive same_connected.
Proof. unfold same_connected. intros w1 w2 w3 H12 H23. congruence. Qed.

Lemma delays_app (events1 events2 : list event) :
  delays (events1 ++ events2) = delays events1 ++ delays events2.
Proof. apply omap_app. Qed.

#[local] Instance no_delay_refl : Reflexive no_delay.
Proof. intros w. exists []. by rewrite app_nil_r. Qed.

#[local] Instance no_delay_trans : Transitive no_delay.
Proof.
  intros w1 w2 w3 (ev1 & H1 & Hd1) (ev2 & H2 & Hd2). exists (ev1 ++ ev2).
  rewrite H2, H1, <- app_assoc, delays_app, Hd1, Hd2. done.
Qed.

(** An event that is no sleep of whole seconds. *)
Lemma no_delay_emit (e : event) (w : world) :
  delays [e] = [] → no_delay w (emit e w).
Proof. intros He. by exists [e]. Qed.

Lemma no_delay_advance (w : world) : no_delay w (advance w).
Proof.
  unfold advance. destruct (upcoming w); exists []; by rewrite app_nil_r.
Qed.

Create HintDb respects.
#[local] Hint Resolve respects_ret respects_gets respects_pure respects_raise
  same_connected_refl same_connected_trans no_delay_refl no_delay_trans
  : respects.

(** Goes through the binds and branches of a piece of code, leaving the
    steps no hint covers. *)
#[local] Ltac respects_steps :=
  repeat first
    [ solve [auto with respects]
    | apply respects_bind; [apply _| |intros ?]
    | apply respects_try_except; [apply _| |intros ?]
    | case_match ].

Lemma log_no_delay (level : log_level) (msg : string) :
  respects no_delay (log level msg).
Proof. intros w. by apply no_delay_emit. Qed.

Lemma log_same_connected (level : log_level) (msg : string) :
  respects same_connected (log level msg).
Proof. by intros w. Qed.

Lemma sleep_float_no_delay (f : spec_float) : respects no_delay (sleep (Float f)).
Proof.
  intros w. cbn. etrans; [|apply no_delay_advance]. by apply no_delay_emit.
Qed.

Lemma sleep_same_connected (seconds : number) :
  respects same_connected (sleep seconds).
Proof. intros w. cbn. unfold same_connected, advance. by destruct (upcoming _). Qed.

Lemma ws_send_no_delay (frame : bytes) : respects no_delay (ws_send frame).
Proof.
  intros w. unfold ws_send. repeat case_match; cbn; try reflexivity.
  by apply no_delay_emit.
Qed.

Lemma ws_send_same_connected (frame : bytes) :
  respects same_connected (ws_send frame).
Proof. intros w. unfold ws_send. by repeat case_match. Qed.

Lemma ws_close_no_delay : respects no_delay ws_close.
Proof.
  intros w. unfold ws_close. repeat case_match; cbn; try reflexivity.
  by apply no_delay_emit.
Qed.

Lemma ws_close_same_connected : respects same_connected ws_close.
Proof. intros w. unfold ws_close. by repeat case_match. Qed.

Lemma ws_connect_no_delay (url : string) : respects no_delay (ws_connect url).
Proof.
  intros w. unfold ws_connect. case_match; cbn; [reflexivity|].
  by exists [Opened url].
Qed.

Lemma cancel_listen_task_no_delay : respects no_delay cancel_listen_task.
Proof.
  unfold cancel_listen_task. respects_steps.
  apply respects_modify. intros w. by apply no_delay_emit.
Qed.

Lemma cancel_listen_task_same_connected : respects same_connected cancel_listen_task.
Proof.
  unfold cancel_listen_task. respects_steps. by apply respects_modify.
Qed.

#[local] Hint Resolve log_no_delay log_same_connected sleep_float_no_delay
  sleep_same_connected ws_send_no_delay ws_send_same_connected
  ws_close_no_delay ws_close_same_connected ws_connect_no_delay
  cancel_listen_task_no_delay cancel_listen_task_same_connected : respects.

Lemma bytes_of_ints_terminates (zs : list Z) : bytes_of_ints zs ≠ OutOfFuel.
Proof.
  induction zs as [|z zs IH]; [done|]. cbn [bytes_of_ints].
  unfold byte_of_int. repeat case_match; cbn; try done.
  by destruct (bytes_of_ints zs).
Qed.

Lemma bind_terminates {A B} (r : result A) (k : A → result B) :
  r ≠ OutOfFuel → (∀ a, k a ≠ OutOfFuel) → r ≫= k ≠ OutOfFuel.
Proof. intros Hr Hk. destruct r; [apply Hk|done..]. Qed.

Lemma encode_remaining_length_terminates (n : Z) :
  0 ≤ n → _encode_mqtt_remaining_length n ≠ OutOfFuel.
Proof.
  intros Hn. by destruct (encode_remaining_length_spec n Hn) as (bs & -> & _).
Qed.

Section SessionFacts.
Context `{!PyLib}.

#[local] Ltac builder_terminates :=
  repeat first
    [ apply encode_remaining_length_terminates; unfold len; lia
    | apply bytes_of_ints_terminates
    | apply bind_terminates; [|intros ?]
    | done ].

Lemma build_connect_terminates (client_id : string) :
  _build_mqtt_connect_packet client_id ≠ OutOfFuel.
Proof. unfold _build_mqtt_connect_packet. builder_terminates. Qed.

Lemma build_subscribe_terminates (topic : string) (packet_id : Z) :
  _build_mqtt_subscribe_packet topic packet_id ≠ OutOfFuel.
Proof. unfold _build_mqtt_subscribe_packet. builder_terminates. Qed.

Lemma build_publish_terminates (topic : string) (payload : json) (packet_id : Z) :
  _build_mqtt_publish_packet topic payload packet_id ≠ OutOfFuel.
Proof. unfold _build_mqtt_publish_packet. builder_terminates. Qed.

Lemma ws_send_terminates (frame : bytes) : terminates (ws_send frame).
Proof. intros w. unfold ws_send. by repeat case_match. Qed.

Lemma ws_close_terminates : terminates ws_close.
Proof. intros w. unfold ws_close. by repeat case_match. Qed.

Lemma ws_connect_terminates (url : string) : terminates (ws_connect url).
Proof. intros w. unfold ws_connect. by repeat case_match. Qed.

Lemma cancel_listen_task_returns : returns cancel_listen_task.
Proof.
  unfold cancel_listen_task. apply returns_bind; [auto with returns|].
  intros [[]|]; auto with returns.
Qed.

(** Goes through the binds and branches of a piece of code to show that it
    is not cut off. *)
#[local] Ltac terminates_steps :=
  repeat first
    [ solve [auto with returns]
    | apply terminates_bind; [|intros ?]
    | apply try_except_terminates; [|intros ?]
    | apply terminates_pure
    | apply build_connect_terminates
    | apply build_subscribe_terminates
    | apply build_publish_terminates
    | apply ws_send_terminates
    | apply ws_close_terminates
    | apply ws_connect_terminates
    | apply returns_terminates, cancel_listen_task_returns
    | case_match ].

Lemma _request_device_state_returns : returns _request_device_state.
Proof.
  unfold _request_device_state.
  apply returns_bind; [auto with returns|]. intros c.
  apply returns_bind; [auto with returns|]. intros ws.
  case_match; [auto with returns|].
  apply try_except_returns; [terminates_steps|auto with returns].
Qed.

Lemma _request_device_state_no_delay : respects no_delay _request_device_state.
Proof. unfold _request_device_state. respects_steps. Qed.

Lemma _request_device_state_same_connected :
  respects same_connected _request_device_state.
Proof. unfold _request_device_state. respects_steps. Qed.

Lemma subscribe_all_terminates (topics : list string) :
  ∀ i, terminates (subscribe_all i topics).
Proof.
  induction topics as [|topic topics IH]; intros i; cbn [subscribe_all];
    [auto with returns|].
  terminates_steps.
Qed.

Lemma subscribe_all_no_delay (topics : list string) :
  ∀ i, respects no_delay (subscribe_all i topics).
Proof.
  induction topics as [|topic topics IH]; intros i; cbn [subscribe_all];
    respects_steps.
Qed.

Lemma subscribe_all_same_connected (topics : list string) :
  ∀ i, respects same_connected (subscribe_all i topics).
Proof.
  induction topics as [|topic topics IH]; intros i; cbn [subscribe_all];
    respects_steps.
Qed.

Lemma set_connected_no_delay (b : bool) : respects no_delay (modify (set_connected b)).
Proof. intros w. exists []. by rewrite app_nil_r. Qed.

Lemma set_websocket_no_delay (ws : option string) :
  respects no_delay (modify (set_websocket ws)).
Proof. intros w. exists []. by rewrite app_nil_r. Qed.

Lemma set_listen_task_no_delay (t : option task) :
  respects no_delay (modify (set_listen_task t)).
Proof. intros w. exists []. by rewrite app_nil_r. Qed.

Lemma set_listening_no_delay (b : bool) : respects no_delay (modify (set_listening b)).
Proof. intros w. exists []. by rewrite app_nil_r. Qed.

Lemma emit_task_created_no_delay : respects no_delay (modify (emit TaskCreated)).
Proof. intros w. by apply no_delay_emit. Qed.

#[local] Hint Resolve _request_device_state_no_delay
  _request_device_state_same_connected subscribe_all_no_delay
  subscribe_all_same_connected set_connected_no_delay set_websocket_no_delay
  set_listen_task_no_delay set_listening_no_delay emit_task_created_no_delay
  : respects.

Lemma connect_attempt_no_delay : respects no_delay connect_attempt.
Proof. unfold connect_attempt. respects_steps. Qed.

Lemma connect_failed_no_delay (err : exn) : respects no_delay (connect_failed err).
Proof. unfold connect_failed. respects_steps. Qed.

Lemma connect_no_delay : respects no_delay connect.
Proof.
  unfold connect. respects_steps.
Qed.

Lemma connect_attempt_terminates : terminates connect_attempt.
Proof.
  unfold connect_attempt. terminates_steps.
Qed.

(** After the [except] block the client is not connected, and [connect]
    answers [False]. *)
Lemma connect_failed_result (err : exn) (w : world) :
  ∃ w', connect_failed err w = (Ok false, w') ∧ connected w' = false.
Proof.
  unfold connect_failed. rewrite bind_log.
  unfold mbind, M_bind, mbindM, modify, gets, try_except, ret.
  cbn [_websocket emit set_connected].
  destruct (_websocket w) as [url|] eqn:Hws;
    [|eexists; split; reflexivity].
  unfold ws_close. cbn [_websocket emit set_connected env]. rewrite Hws.
  destruct (ws_close_error (env w)); eexists; split; reflexivity.
Qed.

End SessionFacts.

Lemma answers_ret (b : bool) : answers b (ret b).
Proof. intros w b' w' [= <- _]. done. Qed.

Lemma answers_bind {A} (b : bool) (m : M A) (k : A → M bool) :
  (∀ a, answers b (k a)) → answers b (m ≫= k).
Proof.
  intros Hk w b' w'. unfold mbind, M_bind, mbindM.
  destruct (m w) as [[a|e|] w1]; [apply Hk|done..].
Qed.

Lemma tells_connected_ret_false : tells_connected (ret false).
Proof. by intros w b w' [= <- <-]. Qed.

Lemma tells_connected_bind {A} (m : M A) (k : A → M bool) :
  respects same_connected m → (∀ a, tells_connected (k a)) →
  tells_connected (m ≫= k).
Proof.
  intros Hm Hk w b w'. unfold mbind, M_bind, mbindM.
  specialize (Hm w). destruct (m w) as [[a|e|] w1]; [|done..].
  intros Hka. specialize (Hk a w1 b w' Hka). cbn in Hm.
  destruct b; [done|]. by rewrite Hk.
Qed.

(** From the point the flag is set, code that keeps it and can only answer
    [True] tells the flag. *)
Lemma tells_connected_set (m : M bool) :
  respects same_connected m → answers true m →
  tells_connected (modify (set_connected true) ≫= λ _, m).
Proof.
  intros Hkeeps Htrue w b w'. unfold mbind, M_bind, mbindM, modify.
  intros Hm. rewrite (Htrue _ _ _ Hm).
  specialize (Hkeeps (set_connected true w)). rewrite Hm in Hkeeps.
  exact Hkeeps.
Qed.

Lemma ws_connect_same_connected (url : string) :
  respects same_connected (ws_connect url).
Proof. intros w. unfold ws_connect. by case_match. Qed.

Lemma modify_same_connected (f : world → world) :
  (∀ w, connected (f w) = connected w) → respects same_connected (modify f).
Proof. intros Hf w. apply Hf. Qed.

#[local] Hint Resolve ws_connect_same_connected : respects.

Section Connect.
Context `{!PyLib}.

Lemma connect_attempt_tells_connected : tells_connected connect_attempt.
Proof.
  unfold connect_attempt.
  repeat first
    [ apply tells_connected_ret_false
    | apply tells_connected_set;
      [ respects_steps; by apply modify_same_connected
      | repeat first [apply answers_ret | apply answers_bind; intros ?] ]
    | apply tells_connected_bind; [solve [respects_steps]|intros ?]
    | case_match ].
Qed.

(** [connect] always returns; its answer is the connection flag it
    leaves; and it sleeps for no whole number of seconds. *)
Lemma connect_result (w : world) :
  ∃ b w', connect w = (Ok b, w') ∧ connected w' = b ∧ no_delay w w'.
Proof.
  assert (∃ b w', connect w = (Ok b, w') ∧ connected w' = b)
    as (b & w' & Hconnect & Hflag).
  { unfold connect. unfold mbind at 1, M_bind at 1, mbindM at 1, gets.
    destruct (connected w) eqn:Hconnected.
    { rewrite bind_log. by eexists _, _. }
    unfold try_except.
    pose proof (connect_attempt_terminates w) as Hterm.
    pose proof (connect_attempt_tells_connected w) as Htells.
    destruct (connect_attempt w) as [[b|e|] w1]; [|clear Htells|done].
    - exists b, w1. split; [done|].
      specialize (Htells b w1 eq_refl). destruct b; congruence.
    - destruct (connect_failed_result e w1) as (w' & Hfailed & Hflag).
      rewrite Hfailed. by exists false, w'. }
  exists b, w'. repeat split; [done..|].
  pose proof (connect_no_delay w) as Hquiet. by rewrite Hconnect in Hquiet.
Qed.

End Connect.

(** ** Reconnection *)

Section Reconnect.
Context `{!PyLib}.

Lemma trace_advance (w : world) : trace (advance w) = trace w.
Proof. unfold advance. by destruct (upcoming w). Qed.

(** The loop over the delays: it returns; the delays it sleeps are the
    first ones of the list, all of them when it leaves the client
    disconnected, none when the client was connected already. *)
Lemma reconnect_loop_spec (ds : list Z) :
  ∀ w, ∃ w' events,
    reconnect_loop ds w = (Ok (), w')
    ∧ trace w' = trace w ++ events
    ∧ delays events `prefix_of` ds
    ∧ (connected w = true → delays events = [])
    ∧ (connected w = false → ds ≠ [] → ∃ rest, delays events = hd 0 ds :: rest)
    ∧ (connected w' = false → connected w = false ∧ delays events = ds).
Proof.
  induction ds as [|d ds IH]; intros w; cbn [reconnect_loop].
  { exists w, []. rewrite app_nil_r. by repeat split. }
  unfold mbind at 1, M_bind at 1, mbindM at 1, gets.
  destruct (connected w) eqn:Hconnected; cbn [negb].
  - destruct (IH w) as (w' & events & -> & Htrace & _ & Hnone & _ & Hoff).
    exists w', events. split; [done|]. split; [done|].
    rewrite (Hnone Hconnected). split; [apply prefix_nil|]. split; [done|].
    split; [done|]. intros Hflag. destruct (Hoff Hflag) as [Hcontra _]. congruence.
  - rewrite bind_log. unfold mbind at 1, M_bind at 1, mbindM at 1, sleep, modify.
    set (w1 := advance _).
    assert (trace w1 = trace w ++ [Log INFO "尝试重连 WebSocket，延迟 %s 秒"; Sleep (Int d)])
      as Htrace1.
    { subst w1. rewrite trace_advance. cbn. by rewrite <- app_assoc. }
    destruct (connect_result w1) as (b & w2 & Hconnect & Hflag & ev2 & Htrace2 & Hquiet).
    unfold mbind at 1, M_bind at 1, mbindM at 1. rewrite Hconnect.
    destruct b.
    + exists w2, ([Log INFO "尝试重连 WebSocket，延迟 %s 秒"; Sleep (Int d)] ++ ev2).
      split; [done|]. split; [by rewrite Htrace2, Htrace1, <- app_assoc|].
      rewrite delays_app, Hquiet. cbn.
      split; [by apply prefix_cons, prefix_nil|]. split; [done|].
      split; [by eexists|]. congruence.
    + destruct (IH w2) as (w' & ev3 & -> & Htrace3 & Hprefix & _ & _ & Hoff).
      exists w', ([Log INFO "尝试重连 WebSocket，延迟 %s 秒"; Sleep (Int d)] ++ ev2 ++ ev3).
      split; [done|].
      split; [by rewrite Htrace3, Htrace2, Htrace1, <- !app_assoc|].
      rewrite !delays_app, Hquiet. cbn.
      split; [by apply prefix_cons|]. split; [done|].
      split; [by eexists|].
      intros Hflag'. destruct (Hoff Hflag') as [_ ->]. done.
Qed.

Lemma reconnect_loop_attempts (ds : list Z) :
  ∀ w, connected w = false →
       ∃ w' events,
         reconnect_loop ds w = (Ok (), w')
         ∧ trace w' = trace w ++ events
         ∧ attempts ds w (delays events) w'.
Proof.
  induction ds as [|d ds IH]; intros w Hoff; cbn [reconnect_loop].
  { exists w, []. rewrite app_nil_r. split; [done|]. split; [done|]. constructor. }
  unfold mbind at 1, M_bind at 1, mbindM at 1, gets. rewrite Hoff. cbn [negb].
  rewrite bind_log. unfold mbind at 1, M_bind at 1, mbindM at 1, sleep, modify.
  change (advance _) with (after_delay d w).
  assert (trace (after_delay d w)
          = trace w ++ [Log INFO "尝试重连 WebSocket，延迟 %s 秒"; Sleep (Int d)])
    as Htrace1.
  { unfold after_delay. rewrite trace_advance. cbn. by rewrite <- app_assoc. }
  destruct (connect_result (after_delay d w))
    as (b & w2 & Hconnect & Hflag & ev2 & Htrace2 & Hquiet).
  unfold mbind at 1, M_bind at 1, mbindM at 1. rewrite Hconnect.
  destruct b.
  - exists w2, ([Log INFO "尝试重连 WebSocket，延迟 %s 秒"; Sleep (Int d)] ++ ev2).
    split; [done|]. split; [by rewrite Htrace2, Htrace1, <- app_assoc|].
    rewrite delays_app, Hquiet. by apply attempts_succeeded.
  - destruct (IH w2 Hflag) as (w' & ev3 & -> & Htrace3 & Hattempts).
    exists w', ([Log INFO "尝试重连 WebSocket，延迟 %s 秒"; Sleep (Int d)] ++ ev2 ++ ev3).
    split; [done|].
    split; [by rewrite Htrace3, Htrace2, Htrace1, <- !app_assoc|].
    rewrite !delays_app, Hquiet. by eapply attempts_failed.
Qed.

(** What the attempts leave: the client is connected exactly when the last
    call of [connect] answered [True], and it has slept all the delays when
    it is not. *)
Lemma attempts_outcome (ds slept : list Z) (w w' : world) :
  attempts ds w slept w' → connected w = false →
  slept `prefix_of` ds
  ∧ (connected w' = false → slept = ds)
  ∧ (connected w' = true →
     ∃ failed delay w1, slept = failed ++ [delay]
                        ∧ connect (after_delay delay w1) = (Ok true, w')).
Proof.
  induction 1 as [w|d rest w w' Hconnect|d rest slept w w1 w' Hconnect Hrest IH];
    intros Hoff.
  - split; [done|]. split; [done|]. congruence.
  - destruct (connect_result (after_delay d w)) as (b & w2 & Hc & Hflag & _).
    rewrite Hconnect in Hc. injection Hc as <- <-.
    split; [by apply prefix_cons, prefix_nil|]. split; [congruence|].
    intros _. by exists [], d, w.
  - destruct (connect_result (after_delay d w)) as (b & w2 & Hc & Hflag & _).
    rewrite Hconnect in Hc. injection Hc as <- <-.
    destruct (IH Hflag) as (Hprefix & Hall & Hlast).
    split; [by apply prefix_cons|]. split; [intros Hflag'; by rewrite Hall|].
    intros Hon. destruct (Hlast Hon) as (failed & delay & w2 & -> & Hc).
    by exists (d :: failed), delay, w2.
Qed.

(** C6, as the code has it: after a disconnection the client sleeps 5, 10,
    15 and 30 seconds, each delay followed by one call of [connect], and
    stops at the first call that answers [True]: every delay it sleeps but
    the last is followed by a call that answers [False], so when the first
    call succeeds the only delay is 5.  The first delay is always 5; after
    the fourth failed attempt it gives up (the block returns, the client
    stays disconnected), so no delay follows the 30. *)
Theorem reconnect_delays (w : world) :
  ∃ w' events,
    _listen_messages_finally w = (Ok (), w')
    ∧ trace w' = trace w ++ events
    ∧ attempts [5; 10; 15; 30] (set_connected false (set_listening false w))
        (delays events) w'
    ∧ delays events `prefix_of` [5; 10; 15; 30]
    ∧ (∃ rest, delays events = 5 :: rest)
    ∧ (connected w' = false → delays events = [5; 10; 15; 30])
    ∧ (connected w' = true →
       ∃ failed delay w1,
         delays events = failed ++ [delay]
         ∧ connect (after_delay delay w1) = (Ok true, w'))
    ∧ (∀ w1, connect (after_delay 5 (set_connected false (set_listening false w)))
             = (Ok true, w1) →
             delays events = [5] ∧ w' = w1).
Proof.
  unfold _listen_messages_finally, mbind, M_bind, mbindM, modify.
  set (w0 := set_connected false (set_listening false w)).
  destruct (reconnect_loop_attempts [5; 10; 15; 30] w0 eq_refl)
    as (w' & events & -> & Htrace & Hattempts).
  destruct (attempts_outcome _ _ _ _ Hattempts eq_refl) as (Hprefix & Hall & Hlast).
  exists w', events. repeat (split; [done|]).
  split; [|split; [done|split; [done|]]].
  - inversion Hattempts; by eexists.
  - intros w1 Hfirst. inversion Hattempts as [|? ? ? ? Hc|? ? ? ? ? ? Hc]; subst.
    + rewrite Hfirst in Hc. by injection Hc as <-.
    + rewrite Hfirst in Hc. discriminate Hc.
Qed.

End Reconnect.

(** With a broker that never answers, the client sleeps 5, 10, 15 and 30
    seconds and then stops trying: no fifth delay.  With a broker that
    answers, five disconnections in a row are each followed by one delay
    of 5 seconds. *)
Lemma reconnect_delays_sample :
  let run := _listen_messages_finally (H := Reference.python) in
  let w := (run (idle None silent)).2 in
  let w5 := (run (run (run (run (run (idle None (online (JDict []) (JDict [])))).2).2).2).2).2 in
  (run (idle None silent)).1 = Ok ()
  ∧ delays (trace w) = [5; 10; 15; 30] ∧ connected w = false
  ∧ delays (trace w5) = [5; 5; 5; 5; 5] ∧ connected w5 = true.
Proof. by vm_compute. Qed.

Lemma reconnect_delays_witness :
  let run := _listen_messages_finally (H := Reference.python) in
  (∃ w' events,
     run (idle None silent) = (Ok (), w')
     ∧ trace w' = events
     ∧ connected w' = false
     ∧ delays events = [5; 10; 15; 30])
  ∧ ∃ w' events,
      run (idle None (online (JDict []) (JDict []))) = (Ok (), w')
      ∧ trace w' = events
      ∧ connected w' = true
      ∧ delays events = [5].
Proof.
  intros run. split.
  - destruct (reconnect_delays (H := Reference.python) (idle None silent))
      as (w' & events & Hrun & Htrace & _ & _ & _ & Hoff & _).
    exists w', events. split; [exact Hrun|]. split; [exact Htrace|].
    assert (connected w' = false) as Hflag.
    { apply (f_equal (λ r, connected r.2)) in Hrun. vm_compute in Hrun.
      symmetry. exact Hrun. }
    split; [exact Hflag|]. exact (Hoff Hflag).
  - destruct (reconnect_delays (H := Reference.python)
                (idle None (online (JDict []) (JDict []))))
      as (w' & events & Hrun & Htrace & _ & _ & _ & _ & _ & Hfirst).
    exists w', events. split; [exact Hrun|]. split; [exact Htrace|].
    destruct (Hfirst
                (connect (H := Reference.python)
                   (after_delay 5
                      (set_connected false
                         (set_listening false
                            (idle None (online (JDict []) (JDict []))))))).2)
      as [Hdelays ->]; [by vm_compute|].
    split; [by vm_compute|exact Hdelays].
Defined.

(** ** Commands and packet identifiers *)

Lemma getitem_middle (before after : bytes) (b : byte) (i : Z) :
  i = len before → getitem (before ++ b :: after) i = Ok (byte_val b).
Proof.
  intros ->. destruct (getitem_lookup (before ++ b :: after) (len before))
    as (b' & Hb' & ->).
  { rewrite len_app, len_cons. pose proof (len_nonneg before).
    pose proof (len_nonneg after). lia. }
  unfold len in Hb'. rewrite Nat2Z.id, list_lookup_middle in Hb' by done.
  by injection Hb' as <-.
Qed.

Lemma getitem_at (packet before after : bytes) (b : byte) (i : Z) :
  packet = before ++ b :: after → i = len before →
  getitem packet i = Ok (byte_val b).
Proof. intros ->. apply getitem_middle. Qed.

Lemma byte_of_int_inv (a : Z) (b : byte) :
  byte_of_int a = Ok b → byte_val b = a ∧ 0 ≤ a < 256.
Proof.
  unfold byte_of_int.
  destruct ((0 <=? a) && (a <? 256)) eqn:Hrange; [|done].
  destruct (Byte.of_N (Z.to_N a)) as [b'|] eqn:Hb; [|done].
  intros [= <-]. unfold byte_val. rewrite (Byte.to_of_N _ Hb). lia.
Qed.

Lemma bytes_of_ints_one (a : Z) (bs : bytes) :
  bytes_of_ints [a] = Ok bs → ∃ b, bs = [b] ∧ byte_val b = a.
Proof.
  cbn [bytes_of_ints]. destruct (byte_of_int a) as [b|e|] eqn:Hb; [|done..].
  intros [= <-]. exists b. split; [done|]. by apply byte_of_int_inv.
Qed.

Lemma bytes_of_ints_two (a1 a2 : Z) (bs : bytes) :
  bytes_of_ints [a1; a2] = Ok bs →
  ∃ b1 b2, bs = [b1; b2] ∧ byte_val b1 = a1 ∧ byte_val b2 = a2.
Proof.
  cbn [bytes_of_ints]. destruct (byte_of_int a1) as [b1|e|] eqn:H1; [|done..].
  destruct (byte_of_int a2) as [b2|e|] eqn:H2; [|done..].
  intros [= <-]. exists b1, b2. split; [done|].
  split; by apply byte_of_int_inv.
Qed.

(** The two bytes of a 16-bit field give the integer back. *)
Lemma high_low_bytes (n : Z) :
  0 ≤ n → Z.lor (Z.shiftl (Z.shiftr n 8) 8) (Z.land n 0xFF) = n.
Proof.
  intros Hn. change 0xFF with (Z.ones 8).
  rewrite <- Z.ldiff_ones_r by lia. apply Z.lor_ldiff_and.
Qed.

Section Commands.
Context `{!PyLib}.

(** A PUBLISH packet as [_build_mqtt_publish_packet] lays it out. *)
Lemma build_publish_layout (topic : string) (payload : json) (packet_id : Z)
    (frame : bytes) :
  _build_mqtt_publish_packet topic payload packet_id = Ok frame →
  ∃ length_bytes t1 t2 i1 i2,
    _encode_mqtt_remaining_length
      (2 + len (encode_utf8 topic) + 2 + len (encode_utf8 (json_dumps payload)))
    = Ok length_bytes
    ∧ Z.lor (Z.shiftl (byte_val t1) 8) (byte_val t2) = len (encode_utf8 topic)
    ∧ byte_val i1 = Z.shiftr packet_id 8
    ∧ byte_val i2 = Z.land packet_id 0xFF
    ∧ frame = [x32] ++ length_bytes ++ [t1; t2] ++ encode_utf8 topic
              ++ [i1; i2] ++ encode_utf8 (json_dumps payload).
Proof.
  unfold _build_mqtt_publish_packet.
  destruct (_encode_mqtt_remaining_length _) as [length_bytes|e|] eqn:Hlength;
    [|done..].
  cbn [mbind result_bind bind].
  change (bytes_of_ints [50]) with (Ok (A := bytes) [x32]).
  cbn [mbind result_bind bind].
  destruct (bytes_of_ints [Z.shiftr _ 8; Z.land (len (encode_utf8 topic)) _])
    as [topic_length|e|] eqn:Htopic; [|done..].
  cbn [mbind result_bind bind].
  destruct (bytes_of_ints [Z.shiftr packet_id 8; _]) as [id_bytes|e|] eqn:Hid;
    [|done..].
  cbn [mbind result_bind bind]. intros [= <-].
  destruct (bytes_of_ints_two _ _ _ Htopic) as (t1 & t2 & -> & Ht1 & Ht2).
  destruct (bytes_of_ints_two _ _ _ Hid) as (i1 & i2 & -> & Hi1 & Hi2).
  exists length_bytes, t1, t2, i1, i2.
  split; [done|].
  split; [rewrite Ht1, Ht2; apply high_low_bytes, len_nonneg|].
  split; [done|]. split; [done|]. by rewrite <- ?app_assoc.
Qed.

(** The packet identifier given to [_build_mqtt_publish_packet] is the one
    the packet carries (for a packet below 256 MB, whose remaining length
    fits the four bytes the decoder reads). *)
Lemma build_publish_identifier (topic : string) (payload : json) (packet_id : Z)
    (frame : bytes) :
  _build_mqtt_publish_packet topic payload packet_id = Ok frame →
  len frame ≤ 128 ^ 4 →
  packet_identifier frame = Ok packet_id ∧ 0 ≤ packet_id < 65536.
Proof.
  intros Hbuild Hsmall.
  destruct (build_publish_layout _ _ _ _ Hbuild)
    as (length_bytes & t1 & t2 & i1 & i2 & Hlength & Htopic & Hi1 & Hi2 & ->).
  set (topic_bytes := encode_utf8 topic) in *.
  set (payload_bytes := encode_utf8 (json_dumps payload)) in *.
  set (n := 2 + len topic_bytes + 2 + len payload_bytes) in *.
  pose proof (len_nonneg topic_bytes). pose proof (len_nonneg payload_bytes).
  pose proof (len_nonneg length_bytes).
  assert (0 ≤ n < 128 ^ 4) as Hn.
  { subst n. unfold len in *. rewrite ?length_app in Hsmall.
    cbn [length] in Hsmall. change (128 ^ 4) with 268435456 in *. lia. }
  destruct (remaining_length_roundtrip n [x32]
              ([t1; t2] ++ topic_bytes ++ [i1; i2] ++ payload_bytes) Hn)
    as (length_bytes' & Hlength' & _ & Hparse).
  rewrite Hlength in Hlength'. injection Hlength' as <-.
  assert (0 ≤ packet_id < 65536) as Hid.
  { pose proof (byte_val_range i1) as Hr1. rewrite Hi1 in Hr1.
    rewrite Z.shiftr_div_pow2 in Hr1 by lia.
    change (2 ^ 8) with 256 in Hr1.
    pose proof (Z.div_mod packet_id 256 ltac:(lia)).
    pose proof (Z.mod_pos_bound packet_id 256 ltac:(lia)). lia. }
  split; [|done].
  change (len [x32]) with 1 in Hparse.
  set (frame := [x32] ++ _) in *.
  assert (frame = ([x32] ++ length_bytes)
                  ++ t1 :: t2 :: topic_bytes ++ [i1; i2] ++ payload_bytes) as E1
    by (subst frame; by rewrite <- ?app_assoc).
  assert (frame = ([x32] ++ length_bytes ++ [t1])
                  ++ t2 :: topic_bytes ++ [i1; i2] ++ payload_bytes) as E2
    by (subst frame; by rewrite <- ?app_assoc).
  assert (frame = ([x32] ++ length_bytes ++ [t1; t2] ++ topic_bytes)
                  ++ i1 :: i2 :: payload_bytes) as E3
    by (subst frame; by rewrite <- ?app_assoc).
  assert (frame = ([x32] ++ length_bytes ++ [t1; t2] ++ topic_bytes ++ [i1])
                  ++ i2 :: payload_bytes) as E4
    by (subst frame; by rewrite <- ?app_assoc).
  unfold packet_identifier. rewrite Hparse. cbn [mbind result_bind bind].
  rewrite (getitem_at frame _ _ t1 (1 + len length_bytes) E1)
    by (unfold len; rewrite ?length_app; cbn [length]; lia).
  rewrite (getitem_at frame _ _ t2 (1 + len length_bytes + 1) E2)
    by (unfold len; rewrite ?length_app; cbn [length]; lia).
  cbn [mbind result_bind bind]. rewrite Htopic.
  rewrite (getitem_at frame _ _ i1 (1 + len length_bytes + 2 + len topic_bytes) E3)
    by (unfold len; rewrite ?length_app; cbn [length]; lia).
  rewrite (getitem_at frame _ _ i2
             (1 + len length_bytes + 2 + len topic_bytes + 1) E4)
    by (unfold len; rewrite ?length_app; cbn [length]; lia).
  cbn [mbind result_bind bind]. rewrite Hi1, Hi2.
  f_equal. apply high_low_bytes. lia.
Qed.

End Commands.

Section CommandSteps.
Context `{!PyLib}.
(** [w1] is the world [_ensure_connected] leaves when it answers [True]:
    [w] itself when the client was connected, the world after [connect]
    when it was not. *)
Variables (w w1 : world) (url : string).
Hypothesis ensured : _ensure_connected w = (Ok true, w1).
Hypothesis is_open : _websocket w1 = Some url.
Hypothesis sends : ws_send_error (env w1) = None.

Lemma ws_send_open (frame : bytes) :
  ws_send frame w1 = (Ok (), emit (Sent frame) w1).
Proof. unfold ws_send. by rewrite is_open, sends. Qed.

Lemma async_set_temperature_steps (temp_code : string) :
  async_set_temperature temp_code w
  = match _build_mqtt_publish_packet
            ("$aws/things/" +:+ device_id w1 +:+ "/shadow/update")
            (JDict [("state",
               JDict [("desired",
                 JDict [("SetTemp", JInt (default 0 (temp_mapping !! temp_code)));
                        ("CommandType", JStr "app");
                        ("EnduserId", JStr (device_id w1))])])]) 4 with
    | Ok frame =>
        (Ok true, emit_all [Sent frame; Log INFO "已发送水温设置指令: code=%s, temp=%s"] w1)
    | Raise e => (Ok false, emit (Log ERROR "设置水温失败: %s") w1)
    | OutOfFuel => (OutOfFuel, w1)
    end.
Proof.
  unfold async_set_temperature.
  rewrite (bind_ok _ _ _ _ _ ensured). cbn [negb].
  unfold try_except, mbind, M_bind, mbindM, gets, pure, command_topic.
  destruct (_build_mqtt_publish_packet _ _ 4) as [frame|e|]; [|done..].
  by rewrite (ws_send_open frame).
Qed.

Lemma async_set_volume_steps (volume_code : string) :
  async_set_volume volume_code w
  = match int_of_str volume_code with
    | inr e => (Ok false, emit (Log ERROR "设置出水量失败: %s") w1)
    | inl target_volume =>
        match _build_mqtt_publish_packet
                ("$aws/things/" +:+ device_id w1 +:+ "/shadow/update")
                (JDict [("state",
                   JDict [("desired",
                     JDict [("SetOutlet", JInt target_volume);
                            ("CommandType", JStr "app");
                            ("EnduserId", JStr (device_id w1))])])]) 5 with
        | Ok frame =>
            (Ok true,
             emit_all [Sent frame; Log INFO "已发送出水量设置指令: code=%s, SetOutlet=%s"] w1)
        | Raise e => (Ok false, emit (Log ERROR "设置出水量失败: %s") w1)
        | OutOfFuel => (OutOfFuel, w1)
        end
    end.
Proof.
  unfold async_set_volume.
  rewrite (bind_ok _ _ _ _ _ ensured). cbn [negb].
  unfold try_except, mbind, M_bind, mbindM, gets, pure, command_topic.
  destruct (int_of_str volume_code) as [target_volume|e]; cbn [call]; [|done].
  destruct (_build_mqtt_publish_packet _ _ 5) as [frame|e|]; [|done..].
  by rewrite (ws_send_open frame).
Qed.

End CommandSteps.

Lemma _ensure_connected_connected `{!PyLib} (w : world) :
  connected w = true → _ensure_connected w = (Ok true, w).
Proof.
  intros Hconnected.
  unfold _ensure_connected, mbind, M_bind, mbindM, gets, ret.
  rewrite Hconnected. cbn beta iota. by rewrite Hconnected.
Qed.

(** Without a connection that [connect] can open, both commands answer
    [False] and send nothing. *)
Lemma commands_need_connection `{!PyLib} (w w1 : world) (code : string) :
  _ensure_connected w = (Ok false, w1) →
  async_set_temperature code w = (Ok false, w1)
  ∧ async_set_volume code w = (Ok false, w1).
Proof.
  intros Hensure. unfold async_set_temperature, async_set_volume.
  by rewrite !(bind_ok _ _ _ _ _ Hensure).
Qed.

Lemma _request_device_state_steps `{!PyLib} (w : world) (url : string) :
  connected w = true → _websocket w = Some url → ws_send_error (env w) = None →
  _request_device_state w
  = match _build_mqtt_publish_packet
            ("$aws/things/" +:+ device_id w +:+ "/shadow/get") (JDict []) 3 with
    | Ok frame => (Ok (), emit_all [Sent frame; Log DEBUG "已请求设备状态"] w)
    | Raise e => (Ok (), emit (Log ERROR "请求设备状态失败: %s") w)
    | OutOfFuel => (OutOfFuel, w)
    end.
Proof.
  intros Hconnected Hopen Hsends.
  unfold _request_device_state, try_except, mbind, M_bind, mbindM, gets, pure,
    get_topic.
  rewrite Hconnected, Hopen. cbn [negb orb].
  rewrite bool_decide_eq_true_2 by done. cbn [negb].
  destruct (_build_mqtt_publish_packet _ _ 3) as [frame|e|]; [|done..].
  unfold ws_send. by rewrite Hopen, Hsends.
Qed.

(** The table of [async_set_temperature]: the numerals of 0 to 10 stand
    for these integers, and nothing else is in it. *)
Lemma temp_mapping_numeral (n : Z) : 0 ≤ n ≤ 10 → temp_mapping !! pretty n = Some n.
Proof.
  intros Hn.
  pose proof (below_forall (λ n, bool_decide (temp_mapping !! pretty n = Some n))
                11 ltac:(by vm_compute) n ltac:(lia)) as Hcheck.
  by apply bool_decide_eq_true in Hcheck.
Qed.

Lemma temp_mapping_unknown (temp_code : string) :
  (∀ n, 0 ≤ n ≤ 10 → temp_code ≠ pretty n) → temp_mapping !! temp_code = None.
Proof.
  intros Hunknown. destruct (temp_mapping !! temp_code) as [v|] eqn:Hv; [|done].
  apply elem_of_list_to_map_2 in Hv.
  assert (Forall (λ entry : string * Z,
                    bool_decide (entry.1 = pretty entry.2 ∧ 0 ≤ entry.2 ≤ 10))
            [("0", 0); ("1", 1); ("2", 2); ("3", 3); ("4", 4); ("5", 5);
             ("6", 6); ("7", 7); ("8", 8); ("9", 9); ("10", 10)]) as Hall
    by (repeat constructor).
  rewrite Forall_forall in Hall. specialize (Hall _ Hv).
  apply bool_decide_unpack in Hall as [Hcode Hrange].
  by destruct (Hunknown v Hrange).
Qed.

Lemma bytes_of_ints_high_low (n : Z) :
  0 ≤ n < 65536 → ∃ bs, bytes_of_ints [Z.shiftr n 8; Z.land n 0xFF] = Ok bs.
Proof.
  intros Hn. cbn [bytes_of_ints].
  destruct (byte_of_int_ok (Z.shiftr n 8)) as (b1 & -> & _).
  { rewrite Z.shiftr_div_pow2 by lia. change (2 ^ 8) with 256.
    split; [apply Z.div_pos; lia|apply Z.div_lt_upper_bound; lia]. }
  destruct (byte_of_int_ok (Z.land n 0xFF)) as (b2 & -> & _); [|by eexists].
  change 0xFF with (Z.ones 8). rewrite Z.land_ones by lia.
  apply Z.mod_pos_bound. lia.
Qed.

(** [_build_mqtt_publish_packet] returns a packet for every topic below
    64 KiB and every 16-bit packet identifier. *)
Lemma build_publish_ok `{!PyLib} (topic : string) (payload : json) (packet_id : Z) :
  len (encode_utf8 topic) < 65536 → 0 ≤ packet_id < 65536 →
  ∃ frame, _build_mqtt_publish_packet topic payload packet_id = Ok frame.
Proof.
  intros Htopic Hid. unfold _build_mqtt_publish_packet.
  pose proof (len_nonneg (encode_utf8 topic)).
  pose proof (len_nonneg (encode_utf8 (json_dumps payload))).
  destruct (encode_remaining_length_spec
              (2 + len (encode_utf8 topic) + 2 + len (encode_utf8 (json_dumps payload))))
    as (length_bytes & -> & _); [lia|].
  cbn [mbind result_bind bind].
  change (bytes_of_ints [50]) with (Ok (A := bytes) [x32]).
  cbn [mbind result_bind bind].
  destruct (bytes_of_ints_high_low (len (encode_utf8 topic))) as (tl & ->); [lia|].
  cbn [mbind result_bind bind].
  destruct (bytes_of_ints_high_low packet_id) as (ib & ->); [lia|].
  by eexists.
Qed.

Lemma encoded_remaining_length_field (n : Z) (field : bytes) :
  _encode_mqtt_remaining_length n = Ok field → 0 ≤ n →
  remaining_length_field n field.
Proof.
  intros Hfield Hn.
  destruct (encode_remaining_length_spec n Hn) as (bs & Hbs & Hwt & Hval & _).
  rewrite Hfield in Hbs. injection Hbs as <-. by split.
Qed.

Lemma build_publish_on_the_wire `{!PyLib} (topic : string) (payload : json)
    (packet_id : Z) (frame : bytes) :
  _build_mqtt_publish_packet topic payload packet_id = Ok frame → 0 ≤ packet_id →
  publish_layout topic packet_id (json_dumps payload) frame.
Proof.
  intros Hbuild Hid.
  destruct (build_publish_layout _ _ _ _ Hbuild)
    as (length_bytes & t1 & t2 & i1 & i2 & Hlength & Htopic & Hi1 & Hi2 & ->).
  pose proof (len_nonneg (encode_utf8 topic)).
  pose proof (len_nonneg (encode_utf8 (json_dumps payload))).
  exists length_bytes, [t1; t2], [i1; i2]. split; [done|].
  split; [apply encoded_remaining_length_field; [done|lia]|].
  split; [by exists t1, t2|].
  exists i1, i2. split; [done|]. rewrite Hi1, Hi2. by apply high_low_bytes.
Qed.

(** C7. Once [_ensure_connected] has answered [True] (the client was
    connected, or [connect] has just succeeded), [async_set_temperature]
    sends one PUBLISH packet, built for the topic
    [$aws/things/<device id>/shadow/update] from the document
    [{"state": {"desired": {"SetTemp": n, "CommandType": "app",
    "EnduserId": <device id>}}}], where [n] is what the table gives for the
    code: the integer of a numeral from 0 to 10, so 6 for ["6"], and 0 for
    any other code.  On the wire the packet is the byte 0x32, its length,
    the topic with its length, the packet identifier and the JSON text of
    that document.  [async_set_volume] does the same with [SetOutlet] and
    the integer [int] reads from the code, without any table. *)
Theorem commands_publish_desired_state `{!PyLib} (w w1 : world) (url : string) :
  _ensure_connected w = (Ok true, w1) →
  _websocket w1 = Some url → ws_send_error (env w1) = None →
  len (encode_utf8 ("$aws/things/" +:+ device_id w1 +:+ "/shadow/update")) < 65536 →
  (∀ temp_code,
     ∃ frame msg,
       _build_mqtt_publish_packet
         ("$aws/things/" +:+ device_id w1 +:+ "/shadow/update")
         (JDict [("state",
            JDict [("desired",
              JDict [("SetTemp", JInt (default 0 (temp_mapping !! temp_code)));
                     ("CommandType", JStr "app");
                     ("EnduserId", JStr (device_id w1))])])]) 4 = Ok frame
       ∧ publish_layout
           ("$aws/things/" +:+ device_id w1 +:+ "/shadow/update") 4
           (json_dumps
              (JDict [("state",
                 JDict [("desired",
                   JDict [("SetTemp", JInt (default 0 (temp_mapping !! temp_code)));
                          ("CommandType", JStr "app");
                          ("EnduserId", JStr (device_id w1))])])]))
           frame
       ∧ async_set_temperature temp_code w
         = (Ok true, emit_all [Sent frame; Log INFO msg] w1))
  ∧ (∀ volume_code n,
       int_of_str volume_code = inl n →
       ∃ frame msg,
         _build_mqtt_publish_packet
           ("$aws/things/" +:+ device_id w1 +:+ "/shadow/update")
           (JDict [("state",
              JDict [("desired",
                JDict [("SetOutlet", JInt n);
                       ("CommandType", JStr "app");
                       ("EnduserId", JStr (device_id w1))])])]) 5 = Ok frame
         ∧ publish_layout
             ("$aws/things/" +:+ device_id w1 +:+ "/shadow/update") 5
             (json_dumps
                (JDict [("state",
                   JDict [("desired",
                     JDict [("SetOutlet", JInt n);
                            ("CommandType", JStr "app");
                            ("EnduserId", JStr (device_id w1))])])]))
             frame
         ∧ async_set_volume volume_code w
           = (Ok true, emit_all [Sent frame; Log INFO msg] w1))
  ∧ temp_mapping !! "6" = Some 6
  ∧ (∀ n, 0 ≤ n ≤ 10 → temp_mapping !! pretty n = Some n)
  ∧ (∀ temp_code,
       (∀ n, 0 ≤ n ≤ 10 → temp_code ≠ pretty n) →
       default 0 (temp_mapping !! temp_code) = 0).
Proof.
  intros Hensured Hopen Hsends Htopic. split; [|split; [|split; [|split]]].
  - intros temp_code.
    rewrite (async_set_temperature_steps w w1 url Hensured Hopen Hsends).
    edestruct build_publish_ok as (frame & Hframe); [exact Htopic| |].
    2: { rewrite Hframe. exists frame. eexists. split; [done|].
         split; [|done]. apply build_publish_on_the_wire; [exact Hframe|lia]. }
    lia.
  - intros volume_code n Hint.
    rewrite (async_set_volume_steps w w1 url Hensured Hopen Hsends), Hint.
    edestruct build_publish_ok as (frame & Hframe); [exact Htopic| |].
    2: { rewrite Hframe. exists frame. eexists. split; [done|].
         split; [|done]. apply build_publish_on_the_wire; [exact Hframe|lia]. }
    lia.
  - reflexivity.
  - apply temp_mapping_numeral.
  - intros temp_code Hunknown. by rewrite temp_mapping_unknown.
Qed.

Lemma commands_publish_desired_state_witness :
  let w := idle None (online (JDict []) (JDict [])) in
  let w1 := (_ensure_connected (H := Reference.python) w).2 in
  let desired field n :=
    JDict [("state",
      JDict [("desired",
        JDict [(field, JInt n); ("CommandType", JStr "app");
               ("EnduserId", JStr "dev1")])])] in
  (∃ frame msg,
     _build_mqtt_publish_packet (H := Reference.python)
       "$aws/things/dev1/shadow/update" (desired "SetTemp" 6) 4 = Ok frame
     ∧ publish_layout "$aws/things/dev1/shadow/update" 4
         (Reference.dumps (desired "SetTemp" 6)) frame
     ∧ async_set_temperature (H := Reference.python) "6" w
       = (Ok true, emit_all [Sent frame; Log INFO msg] w1))
  ∧ (∃ frame msg,
       _build_mqtt_publish_packet (H := Reference.python)
         "$aws/things/dev1/shadow/update" (desired "SetOutlet" 4) 5 = Ok frame
       ∧ publish_layout "$aws/things/dev1/shadow/update" 5
           (Reference.dumps (desired "SetOutlet" 4)) frame
       ∧ async_set_volume (H := Reference.python) "4" w
         = (Ok true, emit_all [Sent frame; Log INFO msg] w1)).
Proof.
  intros w w1 desired.
  destruct (commands_publish_desired_state (H := Reference.python) w w1
              "wss://broker" ltac:(by vm_compute) eq_refl eq_refl
              ltac:(by vm_compute))
    as (Htemperature & Hvolume & _).
  split.
  - exact (Htemperature "6").
  - exact (Hvolume "4" 4 eq_refl).
Defined.

(** C8, as the code has it: the packet identifier is a constant of each
    operation.  Every packet [async_set_temperature] sends carries 4, every
    packet [async_set_volume] sends carries 5, and the state request carries
    3 (for packets below 256 MB). *)
Theorem packet_identifiers_are_constants `{!PyLib} (w w1 : world) (url : string) :
  _ensure_connected w = (Ok true, w1) →
  _websocket w1 = Some url → ws_send_error (env w1) = None →
  (∀ temp_code w',
     async_set_temperature temp_code w = (Ok true, w') →
     ∃ frame events,
       trace w' = trace w1 ++ events ∧ frames events = [frame]
       ∧ (len frame ≤ 128 ^ 4 → packet_identifier frame = Ok 4))
  ∧ (∀ volume_code w',
       async_set_volume volume_code w = (Ok true, w') →
       ∃ frame events,
         trace w' = trace w1 ++ events ∧ frames events = [frame]
         ∧ (len frame ≤ 128 ^ 4 → packet_identifier frame = Ok 5))
  ∧ (∀ w' frame events,
       connected w1 = true →
       _request_device_state w1 = (Ok (), w') →
       trace w' = trace w1 ++ events → frame ∈ frames events →
       len frame ≤ 128 ^ 4 → packet_identifier frame = Ok 3).
Proof.
  intros Hensured Hopen Hsends. split; [|split].
  - intros temp_code w'.
    rewrite (async_set_temperature_steps w w1 url Hensured Hopen Hsends).
    destruct (_build_mqtt_publish_packet _ _ 4) as [frame|e|] eqn:Hbuild; [|done..].
    intros [= <-]. exists frame. eexists. split; [apply (trace_emit_all [_; _])|].
    split; [done|]. intros Hsmall.
    by destruct (build_publish_identifier _ _ _ _ Hbuild Hsmall).
  - intros volume_code w'.
    rewrite (async_set_volume_steps w w1 url Hensured Hopen Hsends).
    destruct (int_of_str volume_code) as [n|e]; [|done].
    destruct (_build_mqtt_publish_packet _ _ 5) as [frame|e|] eqn:Hbuild; [|done..].
    intros [= <-]. exists frame. eexists. split; [apply (trace_emit_all [_; _])|].
    split; [done|]. intros Hsmall.
    by destruct (build_publish_identifier _ _ _ _ Hbuild Hsmall).
  - intros w' frame events Hconnected.
    rewrite (_request_device_state_steps w1 url Hconnected Hopen Hsends).
    destruct (_build_mqtt_publish_packet _ _ 3) as [frame'|e|] eqn:Hbuild; [| |done].
    + intros [= <-]. cbn [trace emit].
      rewrite <- app_assoc. intros <-%app_inv_head.
      cbn [frames omap app]. intros ->%list_elem_of_singleton Hsmall.
      by destruct (build_publish_identifier _ _ _ _ Hbuild Hsmall).
    + intros [= <-]. cbn [trace emit]. intros <-%app_inv_head.
      by intros ?%elem_of_nil.
Qed.

(** Two publishes of the temperature in a row carry the same identifier,
    and a publish of the temperature after one of the volume carries a
    smaller one. *)
Lemma packet_identifiers_sample :
  let w := active None (online (JDict []) (JDict [])) in
  let twice :=
    (async_set_temperature (H := Reference.python) "7"
       (async_set_temperature (H := Reference.python) "6" w).2).2 in
  let volume_first :=
    (async_set_temperature (H := Reference.python) "6"
       (async_set_volume (H := Reference.python) "4" w).2).2 in
  packet_identifier <$> frames (trace twice) = [Ok 4; Ok 4]
  ∧ packet_identifier <$> frames (trace volume_first) = [Ok 5; Ok 4].
Proof. by vm_compute. Qed.

Lemma packet_identifiers_are_constants_witness :
  let w := active None (online (JDict []) (JDict [])) in
  ∃ frame events,
    trace (async_set_temperature (H := Reference.python) "6" w).2
    = trace w ++ events
    ∧ frames events = [frame]
    ∧ packet_identifier frame = Ok 4.
Proof.
  intros w.
  destruct (packet_identifiers_are_constants (H := Reference.python) w w
              "wss://broker" eq_refl eq_refl eq_refl) as (Htemperature & _).
  destruct (Htemperature "6" (async_set_temperature (H := Reference.python) "6" w).2)
    as (frame & events & Htrace & Hframes & Hid); [by vm_compute|].
  exists frame, events. split; [exact Htrace|]. split; [exact Hframes|].
  apply Hid.
  assert (frames (trace (async_set_temperature (H := Reference.python) "6" w).2)
          = [frame]) as Hframe.
  { rewrite Htrace. exact Hframes. }
  vm_compute in Hframe. injection Hframe as <-. by vm_compute.
Defined.

(** ** The listening loop *)

Section Listening.
Context `{!PyLib}.

Lemma inbox_emit_all (events : list event) (w : world) :
  inbox (emit_all events w) = inbox w.
Proof.
  unfold emit_all. revert w.
  induction events as [|e events IH]; intros w; cbn [foldl]; [done|].
  by rewrite IH.
Qed.

(** Handling a packet takes nothing from the connection. *)
Lemma handle_mqtt_packet_inbox (packet : bytes) (w : world) :
  ∃ w', _handle_mqtt_packet _mqtt_callback packet w = (Ok (), w')
        ∧ inbox w' = inbox w.
Proof.
  destruct (handle_mqtt_packet_cases _mqtt_callback packet w)
    as [(events & _ & ->)
       |(topic & payload_bytes & payload_str & payload_data & state & reported
         & events & _ & _ & _ & _ & _ & _ & _ & ->)].
  { eexists. split; [done|]. apply inbox_emit_all. }
  unfold try_except. rewrite _mqtt_callback_steps.
  destruct (mapping reported) as [items|e|] eqn:Hmapping;
    [| |by destruct reported];
    (eexists; split; [done|]); cbn; apply inbox_emit_all.
Qed.

(** One pass of the loop returns, and either ends the loop or has taken a
    message from the connection. *)
Lemma _listen_messages_step_progress (w : world) (url : string) :
  _websocket w = Some url →
  ∃ go_on w',
    _listen_messages_step _mqtt_callback w = (Ok go_on, w')
    ∧ (go_on = true → length (inbox w') < length (inbox w))%nat.
Proof.
  intros Hopen.
  unfold _listen_messages_step, try_except, mbind, M_bind, mbindM, ws_recv.
  rewrite Hopen. destruct (inbox w) as [|[[packet|text]|e] rest] eqn:Hinbox.
  - by eexists _, _.
  - cbn [call].
    destruct (handle_mqtt_packet_inbox packet (set_inbox rest w))
      as (w' & -> & Hinbox').
    exists true, w'. split; [done|]. intros _. rewrite Hinbox'. cbn. lia.
  - cbn [call]. exists true. eexists. split; [done|]. intros _. cbn. lia.
  - cbn [call].
    destruct e; try by eexists _, _.
    all: exists true; eexists; (split; [done|]); intros _; cbn;
      unfold advance; cbn; destruct (upcoming w); cbn; lia.
Qed.

(** Fuel for one pass more than the connection has messages is enough for
    the loop: it returns. *)
Lemma _listen_messages_loop_returns (fuel : nat) :
  ∀ w, (length (inbox w) < fuel)%nat →
       ∃ w', _listen_messages_loop _mqtt_callback fuel w = (Ok (), w').
Proof.
  induction fuel as [|fuel IH]; intros w Hfuel; [lia|].
  cbn [_listen_messages_loop]. unfold mbind at 1 2, M_bind at 1 2, mbindM at 1 2, gets.
  destruct (connected w); cbn [andb]; [|by eexists].
  destruct (_websocket w) as [url|] eqn:Hopen; [|by eexists].
  rewrite bool_decide_eq_true_2 by done.
  destruct (_listen_messages_step_progress w url Hopen)
    as (go_on & w' & Hstep & Hprogress).
  rewrite (bind_ok _ _ _ _ _ Hstep). destruct go_on; [|by eexists].
  apply IH. specialize (Hprogress eq_refl). lia.
Qed.

(** [_listen_messages] returns too, given that fuel. *)
Lemma _listen_messages_returns (w : world) :
  ∃ w', _listen_messages _mqtt_callback (S (length (inbox w))) w = (Ok (), w').
Proof.
  unfold _listen_messages. unfold mbind at 1 2, M_bind at 1 2, mbindM at 1 2, gets.
  destruct (negb _ || negb _); [by eexists|].
  unfold mbind at 1, M_bind at 1, mbindM at 1.
  destruct (_listening w); [by eexists|].
  unfold mbind at 1, M_bind at 1, mbindM at 1, modify, try_finally, try_except.
  destruct (_listen_messages_loop_returns (S (length (inbox w))) (set_listening true w))
    as (w1 & ->); [cbn; lia|].
  unfold _listen_messages_finally, mbind, M_bind, mbindM, modify.
  destruct (reconnect_loop_spec [5; 10; 15; 30]
              (set_connected false (set_listening false w1)))
    as (w' & events & -> & _).
  by eexists.
Qed.

End Listening.

(** * Further properties *)

(** ** The remaining-length codec, in general *)

Lemma base128_bound (l : list Z) : 0 ≤ base128 l < 128 ^ len l.
Proof.
  induction l as [|b l IH]; [done|].
  cbn [base128]. rewrite len_cons.
  assert (0 ≤ Z.land b 0x7F < 128) as Hdigit.
  { change 0x7F with (Z.ones 7). rewrite Z.land_ones by lia.
    apply Z.mod_pos_bound. lia. }
  pose proof (len_nonneg l).
  rewrite Z.pow_add_r by lia. change (128 ^ 1) with 128. nia.
Qed.

Lemma base128_app (l1 l2 : list Z) :
  base128 (l1 ++ l2) = base128 l1 + 128 ^ len l1 * base128 l2.
Proof.
  induction l1 as [|b l1 IH]; [cbn [app base128]; change (len []) with 0; lia|].
  cbn [app base128]. rewrite IH, len_cons.
  pose proof (len_nonneg l1). rewrite Z.pow_add_r by lia.
  change (128 ^ 1) with 128. lia.
Qed.

Lemma through_last_continued (l : list Z) :
  ∀ n : nat, well_terminated l = true → (n < length l)%nat →
             through_last (take n l) = take n l.
Proof.
  induction l as [|b l IH]; intros n Hwt Hn; [by destruct n|].
  destruct n as [|n]; [done|]. cbn [take through_last well_terminated] in *.
  destruct (Z.land b 128 =? 0).
  - apply bool_decide_eq_true in Hwt as ->. cbn in Hn. lia.
  - f_equal. apply IH; [done|]. cbn in Hn. lia.
Qed.

(** X1. For every length that is not negative,
    [_encode_mqtt_remaining_length] returns a numeral: every byte but the
    last has the continuation bit, its value is the length, and it has as
    many bytes as the length has base-128 digits, one below 128 and [j + 1]
    from [128 ^ j] up to [128 ^ (j + 1)]. *)
Theorem encode_remaining_length_digits (n : Z) :
  0 ≤ n →
  ∃ bs, _encode_mqtt_remaining_length n = Ok bs
        ∧ well_terminated (byte_val <$> bs) = true
        ∧ base128 (byte_val <$> bs) = n
        ∧ (n < 128 → length bs = 1%nat)
        ∧ ∀ j : nat, 128 ^ Z.of_nat j ≤ n < 128 ^ Z.of_nat (S j) → length bs = S j.
Proof.
  intros Hn.
  destruct (encode_remaining_length_spec n Hn) as (bs & Hbs & Hwt & Hval & Hlen).
  exists bs. split; [done|]. split; [done|]. split; [done|].
  pose proof (base128_bound (byte_val <$> bs)) as Hbound.
  rewrite Hval in Hbound. unfold len in Hbound. rewrite length_fmap in Hbound.
  split.
  - intros Hsmall. specialize (Hlen 0%nat Hsmall).
    destruct bs; [done|]. cbn [length] in *. lia.
  - intros j [Hlow Hhigh]. specialize (Hlen j Hhigh).
    destruct (decide (length bs ≤ j)%nat) as [Hshort|]; [|lia].
    assert (128 ^ Z.of_nat (length bs) ≤ 128 ^ Z.of_nat j)
      by (apply Z.pow_le_mono_r; lia).
    lia.
Qed.

Lemma encode_remaining_length_digits_witness :
  ∃ bs, _encode_mqtt_remaining_length 300 = Ok bs
        ∧ base128 (byte_val <$> bs) = 300
        ∧ length bs = 2%nat.
Proof.
  destruct (encode_remaining_length_digits 300 ltac:(lia))
    as (bs & Hbs & _ & Hval & _ & Hdigits).
  exists bs. split; [exact Hbs|]. split; [exact Hval|].
  apply (Hdigits 1%nat). lia.
Defined.

(** X2. Round trip at any place of a frame: for every length below
    [128 ^ 4] the decoder, started where the encoding of the length begins,
    returns the length and the position just after the encoding, whatever
    comes before and after it. *)
Theorem remaining_length_roundtrip_in_frame (n : Z) (before after : bytes) :
  0 ≤ n < 128 ^ 4 →
  ∃ bs, _encode_mqtt_remaining_length n = Ok bs
        ∧ _parse_mqtt_remaining_length (before ++ bs ++ after) (len before)
          = Ok (n, len before + len bs).
Proof.
  intros Hn.
  destruct (remaining_length_roundtrip n before after Hn) as (bs & Hbs & _ & Hparse).
  by exists bs.
Qed.

Lemma remaining_length_roundtrip_in_frame_witness :
  ∃ bs, _encode_mqtt_remaining_length 268435455 = Ok bs
        ∧ _parse_mqtt_remaining_length ([x32] ++ bs ++ [x00; x01]) 1
          = Ok (268435455, 1 + len bs).
Proof.
  apply (remaining_length_roundtrip_in_frame 268435455 [x32] [x00; x01]). lia.
Defined.

(** X3. From [128 ^ 4] on the round trip fails: the encoder, which
    has no upper bound, returns five bytes or more, and the decoder reads
    four of them, returning the length modulo [128 ^ 4] and position 4. *)
Theorem remaining_length_beyond_four_bytes (n : Z) (after : bytes) :
  128 ^ 4 ≤ n →
  ∃ bs, _encode_mqtt_remaining_length n = Ok bs
        ∧ (5 ≤ length bs)%nat
        ∧ _parse_mqtt_remaining_length (bs ++ after) 0 = Ok (n `mod` 128 ^ 4, 4).
Proof.
  intros Hn.
  destruct (encode_remaining_length_spec n) as (bs & Hbs & Hwt & Hval & _); [lia|].
  exists bs. split; [done|].
  pose proof (base128_bound (byte_val <$> bs)) as Hbound.
  rewrite Hval in Hbound. unfold len in Hbound. rewrite length_fmap in Hbound.
  assert (5 ≤ length bs)%nat as Hlong.
  { destruct (decide (length bs ≤ 4)%nat) as [Hshort|]; [|lia].
    assert (128 ^ Z.of_nat (length bs) ≤ 128 ^ 4)
      by (apply Z.pow_le_mono_r; lia).
    lia. }
  split; [done|].
  rewrite parse_remaining_length_spec by done.
  rewrite slice_take_drop by lia. change (Z.to_nat (0 + 4 - 0)) with 4%nat.
  change (Z.to_nat 0) with 0%nat. rewrite drop_0, take_app_le by lia.
  rewrite fmap_take, through_last_continued
    by (rewrite ?length_fmap; done || lia).
  rewrite <- (take_drop 4 (byte_val <$> bs)), base128_app in Hval.
  pose proof (base128_bound (take 4 (byte_val <$> bs))) as Hlow.
  assert (len (take 4 (byte_val <$> bs)) = 4) as Hfour.
  { unfold len. rewrite length_take, length_fmap. lia. }
  rewrite Hfour in Hval, Hlow. rewrite Hfour. f_equal. f_equal.
  rewrite <- Hval, (Z.mul_comm (128 ^ 4)), Z.mod_add by lia.
  symmetry. by apply Z.mod_small.
Qed.

Lemma remaining_length_beyond_four_bytes_witness :
  ∃ bs, _encode_mqtt_remaining_length 268435456 = Ok bs
        ∧ (5 ≤ length bs)%nat
        ∧ _parse_mqtt_remaining_length bs 0 = Ok (0, 4).
Proof.
  destruct (remaining_length_beyond_four_bytes 268435456 [] ltac:(lia))
    as (bs & Hbs & Hlong & Hparse).
  exists bs. split; [exact Hbs|]. split; [exact Hlong|].
  rewrite app_nil_r in Hparse. exact Hparse.
Defined.

(** X4. A negative length never leaves the loop of the encoder: floor
    division keeps the quotient below zero, so no number of passes ends
    it. *)
Theorem encode_negative_length_never_ends (n : Z) :
  n < 0 →
  (∀ fuel encoded, _encode_mqtt_remaining_length_loop fuel n encoded = OutOfFuel)
  ∧ _encode_mqtt_remaining_length n = OutOfFuel.
Proof.
  intros Hn. split; [intros fuel encoded; by apply encode_loop_negative|].
  unfold _encode_mqtt_remaining_length. by apply encode_loop_negative.
Qed.

Lemma encode_negative_length_never_ends_witness :
  _encode_mqtt_remaining_length_loop 1000 (-1) [] = OutOfFuel.
Proof.
  apply (encode_negative_length_never_ends (-1)). lia.
Defined.

(** ** The frames the builders return *)

Lemma bytes_of_ints_wide (n : Z) :
  n < 0 ∨ 65536 ≤ n →
  bytes_of_ints [Z.shiftr n 8; Z.land n 0xFF] = Raise ValueError.
Proof.
  intros Hn.
  assert (byte_of_int (Z.shiftr n 8) = Raise ValueError) as Hhigh.
  { unfold byte_of_int. rewrite Z.shiftr_div_pow2 by lia. change (2 ^ 8) with 256.
    replace ((0 <=? n `div` 256) && (n `div` 256 <? 256)) with false; [done|].
    symmetry. apply andb_false_iff. destruct Hn.
    - left. apply Z.leb_gt. apply Z.div_lt_upper_bound; lia.
    - right. apply Z.ltb_ge. apply Z.div_le_lower_bound; lia. }
  cbn [bytes_of_ints]. by rewrite Hhigh.
Qed.

Lemma slice_middle {A} (before mid after : list A) (lo hi : Z) :
  lo = len before → hi = len before + len mid →
  slice (before ++ mid ++ after) lo hi = mid.
Proof.
  intros -> ->. pose proof (len_nonneg before). pose proof (len_nonneg mid).
  rewrite slice_take_drop by lia.
  replace (len before + len mid - len before) with (len mid) by lia.
  unfold len. rewrite !Nat2Z.id, drop_app_length, take_app_length. done.
Qed.

Lemma slice_from_end {A} (before rest : list A) (lo : Z) :
  lo = len before → slice_from (before ++ rest) lo = rest.
Proof.
  intros ->. rewrite slice_from_drop by apply len_nonneg.
  unfold len. by rewrite Nat2Z.id, drop_app_length.
Qed.

Lemma parse_framed (first : byte) (length_bytes body : bytes) :
  _encode_mqtt_remaining_length (len body) = Ok length_bytes →
  len body < 128 ^ 4 →
  _parse_mqtt_remaining_length ([first] ++ length_bytes ++ body) 1
  = Ok (len body, 1 + len length_bytes).
Proof.
  intros Hlength Hsmall.
  destruct (remaining_length_roundtrip (len body) [first] body)
    as (bs & Hbs & _ & Hparse); [pose proof (len_nonneg body); lia|].
  rewrite Hlength in Hbs. by injection Hbs as <-.
Qed.

Section Builders.
Context `{!PyLib}.

Lemma build_connect_layout (client_id : string) (frame : bytes) :
  _build_mqtt_connect_packet client_id = Ok frame →
  ∃ length_bytes c1 c2,
    _encode_mqtt_remaining_length (12 + len (encode_utf8 client_id))
    = Ok length_bytes
    ∧ Z.lor (Z.shiftl (byte_val c1) 8) (byte_val c2) = len (encode_utf8 client_id)
    ∧ frame = [x10] ++ length_bytes
              ++ [x00; x04; x4d; x51; x54; x54; x04; x02; x00; x3c; c1; c2]
              ++ encode_utf8 client_id.
Proof.
  unfold _build_mqtt_connect_packet.
  change (encode_utf8 "MQTT") with [x4d; x51; x54; x54].
  change (len [x4d; x51; x54; x54]) with 4.
  replace (2 + 4 + 1 + 1 + 2 + 2 + len (encode_utf8 client_id))
    with (12 + len (encode_utf8 client_id)) by lia.
  destruct (_encode_mqtt_remaining_length _) as [length_bytes|e|] eqn:Hlength;
    [|done..].
  cbn [mbind result_bind bind].
  change (bytes_of_ints [16]) with (Ok (A := bytes) [x10]).
  change (bytes_of_ints [Z.shiftr 4 8; Z.land 4 255]) with (Ok (A := bytes) [x00; x04]).
  change (bytes_of_ints [4]) with (Ok (A := bytes) [x04]).
  change (bytes_of_ints [2]) with (Ok (A := bytes) [x02]).
  change (bytes_of_ints [0; 60]) with (Ok (A := bytes) [x00; x3c]).
  cbn [mbind result_bind bind].
  destruct (bytes_of_ints [Z.shiftr _ 8; _]) as [id_length|e|] eqn:Hid; [|done..].
  cbn [mbind result_bind bind]. intros [= <-].
  destruct (bytes_of_ints_two _ _ _ Hid) as (c1 & c2 & -> & Hc1 & Hc2).
  exists length_bytes, c1, c2. split; [done|].
  split; [rewrite Hc1, Hc2; apply high_low_bytes, len_nonneg|]. done.
Qed.

Lemma build_subscribe_layout (topic : string) (packet_id : Z) (frame : bytes) :
  _build_mqtt_subscribe_packet topic packet_id = Ok frame →
  ∃ length_bytes i1 i2 t1 t2,
    _encode_mqtt_remaining_length (2 + 2 + len (encode_utf8 topic) + 1)
    = Ok length_bytes
    ∧ Z.lor (Z.shiftl (byte_val t1) 8) (byte_val t2) = len (encode_utf8 topic)
    ∧ byte_val i1 = Z.shiftr packet_id 8
    ∧ byte_val i2 = Z.land packet_id 0xFF
    ∧ frame = [x82] ++ length_bytes ++ [i1; i2] ++ [t1; t2]
              ++ encode_utf8 topic ++ [x01].
Proof.
  unfold _build_mqtt_subscribe_packet.
  destruct (_encode_mqtt_remaining_length _) as [length_bytes|e|] eqn:Hlength;
    [|done..].
  cbn [mbind result_bind bind].
  change (bytes_of_ints [130]) with (Ok (A := bytes) [x82]).
  change (bytes_of_ints [1]) with (Ok (A := bytes) [x01]).
  cbn [mbind result_bind bind].
  destruct (bytes_of_ints [Z.shiftr packet_id 8; _]) as [id_bytes|e|] eqn:Hid;
    [|done..].
  cbn [mbind result_bind bind].
  destruct (bytes_of_ints [Z.shiftr _ 8; Z.land (len (encode_utf8 topic)) _])
    as [topic_length|e|] eqn:Htopic; [|done..].
  cbn [mbind result_bind bind]. intros [= <-].
  destruct (bytes_of_ints_two _ _ _ Htopic) as (t1 & t2 & -> & Ht1 & Ht2).
  destruct (bytes_of_ints_two _ _ _ Hid) as (i1 & i2 & -> & Hi1 & Hi2).
  exists length_bytes, i1, i2, t1, t2. split; [done|].
  split; [rewrite Ht1, Ht2; apply high_low_bytes, len_nonneg|]. done.
Qed.

Lemma build_connect_ok (client_id : string) :
  len (encode_utf8 client_id) < 65536 →
  ∃ frame, _build_mqtt_connect_packet client_id = Ok frame.
Proof.
  intros Hid. unfold _build_mqtt_connect_packet.
  pose proof (len_nonneg (encode_utf8 client_id)).
  change (encode_utf8 "MQTT") with [x4d; x51; x54; x54].
  change (len [x4d; x51; x54; x54]) with 4.
  destruct (encode_remaining_length_spec
              (2 + 4 + 1 + 1 + 2 + 2 + len (encode_utf8 client_id)))
    as (length_bytes & -> & _); [lia|].
  cbn [mbind result_bind bind].
  change (bytes_of_ints [16]) with (Ok (A := bytes) [x10]).
  change (bytes_of_ints [Z.shiftr 4 8; Z.land 4 255]) with (Ok (A := bytes) [x00; x04]).
  change (bytes_of_ints [4]) with (Ok (A := bytes) [x04]).
  change (bytes_of_ints [2]) with (Ok (A := bytes) [x02]).
  change (bytes_of_ints [0; 60]) with (Ok (A := bytes) [x00; x3c]).
  cbn [mbind result_bind bind].
  destruct (bytes_of_ints_high_low (len (encode_utf8 client_id))) as (il & ->); [lia|].
  by eexists.
Qed.

Lemma build_connect_wide (client_id : string) :
  65536 ≤ len (encode_utf8 client_id) →
  _build_mqtt_connect_packet client_id = Raise ValueError.
Proof.
  intros Hid. unfold _build_mqtt_connect_packet.
  change (encode_utf8 "MQTT") with [x4d; x51; x54; x54].
  change (len [x4d; x51; x54; x54]) with 4.
  destruct (encode_remaining_length_spec
              (2 + 4 + 1 + 1 + 2 + 2 + len (encode_utf8 client_id)))
    as (length_bytes & -> & _); [lia|].
  cbn [mbind result_bind bind].
  change (bytes_of_ints [16]) with (Ok (A := bytes) [x10]).
  change (bytes_of_ints [Z.shiftr 4 8; Z.land 4 255]) with (Ok (A := bytes) [x00; x04]).
  change (bytes_of_ints [4]) with (Ok (A := bytes) [x04]).
  change (bytes_of_ints [2]) with (Ok (A := bytes) [x02]).
  change (bytes_of_ints [0; 60]) with (Ok (A := bytes) [x00; x3c]).
  cbn [mbind result_bind bind].
  by rewrite bytes_of_ints_wide by lia.
Qed.

Lemma build_subscribe_ok (topic : string) (packet_id : Z) :
  len (encode_utf8 topic) < 65536 → 0 ≤ packet_id < 65536 →
  ∃ frame, _build_mqtt_subscribe_packet topic packet_id = Ok frame.
Proof.
  intros Htopic Hid. unfold _build_mqtt_subscribe_packet.
  pose proof (len_nonneg (encode_utf8 topic)).
  destruct (encode_remaining_length_spec (2 + 2 + len (encode_utf8 topic) + 1))
    as (length_bytes & -> & _); [lia|].
  cbn [mbind result_bind bind].
  change (bytes_of_ints [130]) with (Ok (A := bytes) [x82]).
  change (bytes_of_ints [1]) with (Ok (A := bytes) [x01]).
  cbn [mbind result_bind bind].
  destruct (bytes_of_ints_high_low packet_id) as (ib & ->); [lia|].
  cbn [mbind result_bind bind].
  destruct (bytes_of_ints_high_low (len (encode_utf8 topic))) as (tl & ->); [lia|].
  by eexists.
Qed.

Lemma build_subscribe_wide (topic : string) (packet_id : Z) :
  65536 ≤ len (encode_utf8 topic) ∨ packet_id < 0 ∨ 65536 ≤ packet_id →
  _build_mqtt_subscribe_packet topic packet_id = Raise ValueError.
Proof.
  intros Hwide. unfold _build_mqtt_subscribe_packet.
  pose proof (len_nonneg (encode_utf8 topic)).
  destruct (encode_remaining_length_spec (2 + 2 + len (encode_utf8 topic) + 1))
    as (length_bytes & -> & _); [lia|].
  cbn [mbind result_bind bind].
  change (bytes_of_ints [130]) with (Ok (A := bytes) [x82]).
  change (bytes_of_ints [1]) with (Ok (A := bytes) [x01]).
  cbn [mbind result_bind bind].
  destruct (decide (0 ≤ packet_id < 65536)) as [Hid|Hid].
  - destruct (bytes_of_ints_high_low packet_id Hid) as (ib & ->).
    cbn [mbind result_bind bind].
    by rewrite (bytes_of_ints_wide (len (encode_utf8 topic))) by lia.
  - by rewrite (bytes_of_ints_wide packet_id) by lia.
Qed.

Lemma build_publish_wide (topic : string) (payload : json) (packet_id : Z) :
  65536 ≤ len (encode_utf8 topic) ∨ packet_id < 0 ∨ 65536 ≤ packet_id →
  _build_mqtt_publish_packet topic payload packet_id = Raise ValueError.
Proof.
  intros Hwide. unfold _build_mqtt_publish_packet.
  pose proof (len_nonneg (encode_utf8 topic)).
  pose proof (len_nonneg (encode_utf8 (json_dumps payload))).
  destruct (encode_remaining_length_spec
              (2 + len (encode_utf8 topic) + 2 + len (encode_utf8 (json_dumps payload))))
    as (length_bytes & -> & _); [lia|].
  cbn [mbind result_bind bind].
  change (bytes_of_ints [50]) with (Ok (A := bytes) [x32]).
  cbn [mbind result_bind bind].
  destruct (decide (len (encode_utf8 topic) < 65536)) as [Htopic|Htopic].
  - destruct (bytes_of_ints_high_low (len (encode_utf8 topic))) as (tl & ->); [lia|].
    cbn [mbind result_bind bind].
    by rewrite (bytes_of_ints_wide packet_id) by lia.
  - by rewrite (bytes_of_ints_wide (len (encode_utf8 topic))) by lia.
Qed.

End Builders.

Lemma build_connect_on_the_wire `{!PyLib} (client_id : string) (frame : bytes) :
  _build_mqtt_connect_packet client_id = Ok frame → connect_layout client_id frame.
Proof.
  intros Hbuild.
  destruct (build_connect_layout _ _ Hbuild)
    as (length_bytes & c1 & c2 & Hlength & Hid & ->).
  pose proof (len_nonneg (encode_utf8 client_id)).
  exists length_bytes, [c1; c2]. split; [done|].
  split; [apply encoded_remaining_length_field; [done|lia]|]. by exists c1, c2.
Qed.

Lemma build_subscribe_on_the_wire `{!PyLib} (topic : string) (packet_id : Z)
    (frame : bytes) :
  _build_mqtt_subscribe_packet topic packet_id = Ok frame → 0 ≤ packet_id →
  subscribe_layout topic packet_id frame.
Proof.
  intros Hbuild Hid.
  destruct (build_subscribe_layout _ _ _ Hbuild)
    as (length_bytes & i1 & i2 & t1 & t2 & Hlength & Htopic & Hi1 & Hi2 & ->).
  pose proof (len_nonneg (encode_utf8 topic)).
  exists length_bytes, [i1; i2], [t1; t2]. split; [done|].
  split; [apply encoded_remaining_length_field; [done|lia]|].
  split; [|by exists t1, t2].
  exists i1, i2. split; [done|]. rewrite Hi1, Hi2. by apply high_low_bytes.
Qed.

(** X5. The builders take any client id or topic below 65536 bytes and
    any 16-bit packet identifier; beyond that the two-byte length or
    identifier does not fit [bytes([...])] and they raise [ValueError]. *)
Theorem builders_need_sixteen_bit_fields `{!PyLib} :
  (∀ client_id,
     (len (encode_utf8 client_id) < 65536 →
      ∃ frame, _build_mqtt_connect_packet client_id = Ok frame)
     ∧ (65536 ≤ len (encode_utf8 client_id) →
        _build_mqtt_connect_packet client_id = Raise ValueError))
  ∧ (∀ topic packet_id,
       (len (encode_utf8 topic) < 65536 → 0 ≤ packet_id < 65536 →
        ∃ frame, _build_mqtt_subscribe_packet topic packet_id = Ok frame)
       ∧ (65536 ≤ len (encode_utf8 topic) ∨ packet_id < 0 ∨ 65536 ≤ packet_id →
          _build_mqtt_subscribe_packet topic packet_id = Raise ValueError))
  ∧ (∀ topic payload packet_id,
       (len (encode_utf8 topic) < 65536 → 0 ≤ packet_id < 65536 →
        ∃ frame, _build_mqtt_publish_packet topic payload packet_id = Ok frame)
       ∧ (65536 ≤ len (encode_utf8 topic) ∨ packet_id < 0 ∨ 65536 ≤ packet_id →
          _build_mqtt_publish_packet topic payload packet_id = Raise ValueError)).
Proof.
  split; [|split].
  - intros client_id. split; [apply build_connect_ok|apply build_connect_wide].
  - intros topic packet_id.
    split; [apply build_subscribe_ok|apply build_subscribe_wide].
  - intros topic payload packet_id.
    split; [apply build_publish_ok|apply build_publish_wide].
Qed.

Lemma builders_need_sixteen_bit_fields_witness :
  let long := String.string_of_list_byte (replicate (Z.to_nat 65536) x61) in
  (∃ frame, _build_mqtt_connect_packet "client-1" = Ok frame)
  ∧ _build_mqtt_connect_packet long = Raise ValueError
  ∧ _build_mqtt_subscribe_packet long 1 = Raise ValueError
  ∧ (∃ frame, _build_mqtt_publish_packet (H := Reference.python)
                "$aws/things/dev1/shadow/get" (JDict []) 65535 = Ok frame)
  ∧ _build_mqtt_publish_packet (H := Reference.python)
      "$aws/things/dev1/shadow/get" (JDict []) 65536 = Raise ValueError
  ∧ _build_mqtt_publish_packet (H := Reference.python)
      "$aws/things/dev1/shadow/get" (JDict []) (-1) = Raise ValueError.
Proof.
  intros long.
  destruct (builders_need_sixteen_bit_fields (H := Reference.python))
    as (Hconnect & Hsubscribe & Hpublish).
  split; [apply (Hconnect "client-1"); by vm_compute|].
  split; [apply (Hconnect long); by vm_compute|].
  split; [apply (Hsubscribe long 1); left; by vm_compute|].
  split; [apply (Hpublish "$aws/things/dev1/shadow/get" (JDict []) 65535);
          [by vm_compute|lia]|].
  split; apply (Hpublish "$aws/things/dev1/shadow/get" (JDict [])); lia.
Defined.

(** X6. A frame a builder returns starts with the type byte of its
    kind (0x10, 0x82, 0x32) and declares its own length: the remaining
    length decoded at position 1 ends exactly where the frame ends (for
    frames up to 256 MB). *)
Theorem built_frames_declare_their_length `{!PyLib} :
  (∀ client_id frame,
     _build_mqtt_connect_packet client_id = Ok frame →
     len frame ≤ 128 ^ 4 → well_framed 0x10 frame)
  ∧ (∀ topic packet_id frame,
       _build_mqtt_subscribe_packet topic packet_id = Ok frame →
       len frame ≤ 128 ^ 4 → well_framed 0x82 frame)
  ∧ (∀ topic payload packet_id frame,
       _build_mqtt_publish_packet topic payload packet_id = Ok frame →
       len frame ≤ 128 ^ 4 → well_framed 0x32 frame).
Proof.
  split; [|split].
  - intros client_id frame Hbuild Hsmall.
    destruct (build_connect_layout _ _ Hbuild)
      as (length_bytes & c1 & c2 & Hlength & _ & ->).
    set (body := [x00; x04; x4d; x51; x54; x54; x04; x02; x00; x3c; c1; c2]
                 ++ encode_utf8 client_id) in *.
    assert (len body = 12 + len (encode_utf8 client_id)) as Hbody
      by (subst body; rewrite len_app; done).
    rewrite <- Hbody in Hlength. rewrite !len_app in Hsmall.
    pose proof (len_nonneg length_bytes). change (len [x10]) with 1 in Hsmall.
    split; [done|]. eexists _, _. split; [apply parse_framed; [done|lia]|].
    rewrite !len_app. change (len [x10]) with 1. lia.
  - intros topic packet_id frame Hbuild Hsmall.
    destruct (build_subscribe_layout _ _ _ Hbuild)
      as (length_bytes & i1 & i2 & t1 & t2 & Hlength & _ & _ & _ & ->).
    set (body := [i1; i2] ++ [t1; t2] ++ encode_utf8 topic ++ [x01]) in *.
    assert (len body = 2 + 2 + len (encode_utf8 topic) + 1) as Hbody.
    { subst body. rewrite !len_app. change (len [i1; i2]) with 2.
      change (len [t1; t2]) with 2. change (len [x01]) with 1. lia. }
    rewrite <- Hbody in Hlength. rewrite !len_app in Hsmall.
    pose proof (len_nonneg length_bytes). change (len [x82]) with 1 in Hsmall.
    split; [done|]. eexists _, _. split; [apply parse_framed; [done|lia]|].
    rewrite !len_app. change (len [x82]) with 1. lia.
  - intros topic payload packet_id frame Hbuild Hsmall.
    destruct (build_publish_layout _ _ _ _ Hbuild)
      as (length_bytes & t1 & t2 & i1 & i2 & Hlength & _ & _ & _ & ->).
    set (body := [t1; t2] ++ encode_utf8 topic ++ [i1; i2]
                 ++ encode_utf8 (json_dumps payload)) in *.
    assert (len body = 2 + len (encode_utf8 topic) + 2
                       + len (encode_utf8 (json_dumps payload))) as Hbody.
    { subst body. rewrite !len_app. change (len [i1; i2]) with 2.
      change (len [t1; t2]) with 2. lia. }
    rewrite <- Hbody in Hlength. rewrite !len_app in Hsmall.
    pose proof (len_nonneg length_bytes). change (len [x32]) with 1 in Hsmall.
    split; [done|]. eexists _, _. split; [apply parse_framed; [done|lia]|].
    rewrite !len_app. change (len [x32]) with 1. lia.
Qed.

Lemma built_frames_declare_their_length_witness :
  (∃ frame, _build_mqtt_connect_packet "client-1" = Ok frame
            ∧ well_framed 0x10 frame)
  ∧ (∃ frame, _build_mqtt_subscribe_packet "$aws/things/dev1/shadow/get/#" 1 = Ok frame
              ∧ well_framed 0x82 frame)
  ∧ (∃ frame, _build_mqtt_publish_packet (H := Reference.python)
                "$aws/things/dev1/shadow/get" (JDict []) 3 = Ok frame
              ∧ well_framed 0x32 frame).
Proof.
  destruct (built_frames_declare_their_length (H := Reference.python))
    as (Hconnect & Hsubscribe & Hpublish).
  split; [|split]; eexists; (split; [by vm_compute|]).
  - apply (Hconnect "client-1"); by vm_compute.
  - apply (Hsubscribe "$aws/things/dev1/shadow/get/#" 1); by vm_compute.
  - apply (Hpublish "$aws/things/dev1/shadow/get" (JDict []) 3); by vm_compute.
Defined.

#[local] Ltac len_solve :=
  unfold len in *; rewrite ?length_app; cbn [length]; lia.

(** X7. What the client builds it can read back: for a packet that
    [_build_mqtt_publish_packet] built (up to 256 MB) the PUBLISH decoder
    returns the topic, through encoding and lenient decoding, and the bytes
    of the JSON text of the payload, stepping over the packet identifier. *)
Theorem publish_roundtrip `{!PyLib} (topic : string) (payload : json)
    (packet_id : Z) (frame : bytes) :
  _build_mqtt_publish_packet topic payload packet_id = Ok frame →
  len frame ≤ 128 ^ 4 →
  _parse_mqtt_publish_packet frame
  = Ok (Some (decode_utf8_ignore (encode_utf8 topic)),
        Some (encode_utf8 (json_dumps payload))).
Proof.
  intros Hbuild Hsmall.
  destruct (build_publish_layout _ _ _ _ Hbuild)
    as (length_bytes & t1 & t2 & i1 & i2 & Hlength & Htopic & _ & _ & ->).
  set (topic_bytes := encode_utf8 topic) in *.
  set (payload_bytes := encode_utf8 (json_dumps payload)) in *.
  set (body := [t1; t2] ++ topic_bytes ++ [i1; i2] ++ payload_bytes) in *.
  pose proof (len_nonneg topic_bytes). pose proof (len_nonneg payload_bytes).
  pose proof (len_nonneg length_bytes).
  assert (len body = 2 + len topic_bytes + 2 + len payload_bytes) as Hbody.
  { subst body. len_solve. }
  rewrite <- Hbody in Hlength.
  assert (len ([x32] ++ length_bytes ++ body) = 1 + len length_bytes + len body)
    as Hlen by len_solve.
  rewrite Hlen in Hsmall.
  assert (1 ≤ len length_bytes) as Hnonempty.
  { destruct (encode_remaining_length_spec (len body)) as (bs & Hbs & Hwt & _);
      [lia|]. rewrite Hlength in Hbs. injection Hbs as <-.
    destruct length_bytes; [done|]. rewrite len_cons.
    pose proof (len_nonneg length_bytes). lia. }
  pose proof (parse_framed x32 length_bytes body Hlength ltac:(lia)) as Hparse.
  set (frame := [x32] ++ length_bytes ++ body) in *.
  assert (frame = ([x32] ++ length_bytes)
                  ++ t1 :: t2 :: topic_bytes ++ [i1; i2] ++ payload_bytes) as E1
    by (subst frame body; by rewrite <- ?app_assoc).
  assert (frame = ([x32] ++ length_bytes ++ [t1])
                  ++ t2 :: topic_bytes ++ [i1; i2] ++ payload_bytes) as E2
    by (subst frame body; by rewrite <- ?app_assoc).
  assert (frame = ([x32] ++ length_bytes ++ [t1; t2])
                  ++ topic_bytes ++ ([i1; i2] ++ payload_bytes)) as E3
    by (subst frame body; by rewrite <- ?app_assoc).
  assert (frame = ([x32] ++ length_bytes ++ [t1; t2] ++ topic_bytes ++ [i1; i2])
                  ++ payload_bytes ++ []) as E4
    by (subst frame body; by rewrite app_nil_r, <- ?app_assoc).
  assert (len ([x32] ++ length_bytes ++ [t1; t2]) = 1 + len length_bytes + 2)
    as Hprefix by len_solve.
  assert (len ([x32] ++ length_bytes ++ [t1; t2] ++ topic_bytes ++ [i1; i2])
          = 1 + len length_bytes + 2 + len topic_bytes + 2)
    as Hheader by len_solve.
  unfold _parse_mqtt_publish_packet.
  replace (len frame <? 4) with false by lia.
  rewrite Hparse. cbn [mbind result_bind bind].
  replace ((len frame <? 1 + len length_bytes + 2) || (len body =? 0))
    with false by lia.
  rewrite (getitem_at frame _ _ t1 (1 + len length_bytes) E1)
    by len_solve.
  rewrite (getitem_at frame _ _ t2 (1 + len length_bytes + 1) E2)
    by len_solve.
  cbn [mbind result_bind bind]. rewrite Htopic.
  replace (len frame <? 1 + len length_bytes + 2 + len topic_bytes)
    with false by lia.
  change (getitem frame 0) with (Ok (A := Z) 50).
  cbn [mbind result_bind bind].
  change (Z.shiftr (Z.land 50 6) 1) with 1. change (1 <=? 1) with true.
  cbn [andb].
  replace (len frame <? 1 + len length_bytes + 2 + len topic_bytes + 2)
    with false by lia.
  replace ((len body - 2 - len topic_bytes - 2 <? 0)
           || (len frame <? 1 + len length_bytes + 2 + len topic_bytes + 2
                            + (len body - 2 - len topic_bytes - 2)))
    with false by lia.
  f_equal. f_equal.
  - f_equal. f_equal. rewrite E3 at 1. apply slice_middle; lia.
  - f_equal. rewrite E4 at 1. apply slice_middle; lia.
Qed.

Lemma publish_roundtrip_witness :
  let payload :=
    JDict [("state", JDict [("desired", JDict [("SetTemp", JInt 6)])])] in
  ∃ frame,
    _build_mqtt_publish_packet (H := Reference.python)
      "$aws/things/dev1/shadow/update" payload 4 = Ok frame
    ∧ _parse_mqtt_publish_packet (H := Reference.python) frame
      = Ok (Some "$aws/things/dev1/shadow/update",
            Some (encode_utf8 (Reference.dumps payload))).
Proof.
  intros payload. eexists. split; [by vm_compute|].
  apply (publish_roundtrip (H := Reference.python)
           "$aws/things/dev1/shadow/update" payload 4); by vm_compute.
Defined.

(** ** What an inbound frame can do *)

#[local] Instance same_session_refl : Reflexive same_session.
Proof.
  intros w. repeat (split; [done|]). exists []. by rewrite app_nil_r.
Qed.

#[local] Instance same_session_trans : Transitive same_session.
Proof.
  intros w1 w2 w3 (? & ? & ? & ? & ? & ? & ? & ? & ? & ev1 & Ht1 & Hr1)
    (? & ? & ? & ? & ? & ? & ? & ? & ? & ev2 & Ht2 & Hr2).
  repeat (split; [congruence|]). exists (ev1 ++ ev2).
  rewrite Ht2, Ht1, <- app_assoc, forallb_app, Hr1, Hr2. done.
Qed.

Lemma same_session_emit (e : event) (w : world) :
  is_report e = true → same_session w (emit e w).
Proof.
  intros He. repeat (split; [done|]). exists [e]. cbn. by rewrite He.
Qed.

Lemma same_session_emit_all (events : list event) :
  ∀ w, forallb is_log events = true → same_session w (emit_all events w).
Proof.
  induction events as [|e events IH]; intros w Hlogs; [reflexivity|].
  cbn [forallb] in Hlogs. apply andb_true_iff in Hlogs as [He Hlogs].
  change (emit_all (e :: events) w) with (emit_all events (emit e w)).
  etrans; [|by apply IH]. apply same_session_emit. by destruct e.
Qed.

Lemma _mqtt_callback_same_session (payload : json) (w : world) :
  same_session w
    (try_except (_mqtt_callback payload)
       (λ err, log ERROR "解析 PUBLISH payload 失败: %s") w).2.
Proof.
  unfold try_except. rewrite _mqtt_callback_steps.
  destruct (mapping payload) as [items|e|]; [| |reflexivity].
  - repeat (split; [done|]). by exists [ListenersUpdated].
  - by apply same_session_emit.
Qed.

(** X8. Whatever bytes arrive, handling them leaves the client as it
    was: connection flag, socket, listener task and device ids stay; nothing
    is sent, opened, closed or slept; the trace grows by log lines and
    notifications of the listeners only. *)
Theorem inbound_frames_keep_the_session `{!PyLib} (packet : bytes) (w : world) :
  same_session w (_handle_mqtt_packet _mqtt_callback packet w).2.
Proof.
  destruct (handle_mqtt_packet_cases _mqtt_callback packet w)
    as [(events & Hlogs & ->)|(topic & payload_bytes & payload_str & payload_data
          & state & reported & events & _ & _ & _ & _ & _ & _ & Hlogs & ->)].
  - by apply same_session_emit_all.
  - etrans; [by apply (same_session_emit_all events)|].
    apply _mqtt_callback_same_session.
Qed.

(** X9. A packet that is no PUBLISH, or a PUBLISH on a topic that
    contains neither [/shadow/get/accepted] nor [/shadow/update/accepted],
    never reaches the callback, whatever the callback is: the handler
    returns after log lines only. *)
Theorem only_accepted_topics_reach_the_callback `{!PyLib}
    (callback : json → M unit) (packet : bytes) (w : world) :
  (¬ has_type packet 3
   ∨ ∃ topic payload_bytes,
       _parse_mqtt_publish_packet packet = Ok (Some topic, Some payload_bytes)
       ∧ contains "/shadow/get/accepted" topic = false
       ∧ contains "/shadow/update/accepted" topic = false) →
  ∃ events, forallb is_log events = true
            ∧ _handle_mqtt_packet callback packet w = (Ok (), emit_all events w).
Proof.
  intros [Hother|(topic & payload_bytes & Hparse & Hget & Hupdate)];
    [by apply handle_other_packet|].
  destruct (classic_has_type packet) as [Htype|Hother];
    [|by apply handle_other_packet].
  destruct (Z.lt_ge_cases (len packet) 2) as [Hshort|Hlong].
  { exists []. split; [done|]. by apply handle_short_packet. }
  rewrite handle_publish_packet, Hparse, Hget, Hupdate by done. cbn [orb].
  destruct (negb _ && negb _); [by exists [Log DEBUG "收到 PUBLISH 消息，主题: %s"]|by exists []].
Qed.

Lemma only_accepted_topics_reach_the_callback_witness :
  let w := idle (Some {["x" := JInt 1]}) silent in
  let rejected :=
    inbound_publish "$aws/things/dev1/shadow/get/rejected"
      (Reference.dumps (JDict [("state", JDict [("reported", JDict [("x", JInt 2)])])])) in
  ∃ events,
    forallb is_log events = true
    ∧ _handle_mqtt_packet (H := Reference.python) _mqtt_callback rejected w
      = (Ok (), emit_all events w).
Proof.
  intros w rejected.
  apply (only_accepted_topics_reach_the_callback (H := Reference.python)).
  right. eexists _, _. split; [by vm_compute|]. split; by vm_compute.
Defined.

Section NotAnObject.
Context `{!PyLib}.

Lemma handle_carried (callback : json → M unit) (packet : bytes)
    (document : json) (w : world) :
  carries packet document →
  _handle_mqtt_packet callback packet w
  = try_except
      (state ← pure (get document "state" (JDict []));
       reported ← pure (get state "reported" (JDict []));
       if truthy reported then
         log DEBUG "设备状态更新 (reported): %s";;
         callback reported
       else
         has_desired ← pure (has_key state "desired");
         if (has_desired : bool)
         then log DEBUG "收到 desired 状态，等待 reported 状态更新"
         else ret ())
      (λ err, log ERROR "解析 PUBLISH payload 失败: %s")
      (emit (Log DEBUG "收到 PUBLISH 消息，主题: %s") w).
Proof.
  intros (Htype & topic & payload_bytes & payload_str & Hparse & Htopic
          & Hpayload & Haccepted & Hdecode & Hloads).
  assert (2 ≤ len packet) as Hlong.
  { destruct (Z.lt_ge_cases (len packet) 2) as [Hshort|Hlong]; [|done].
    unfold _parse_mqtt_publish_packet in Hparse.
    by replace (len packet <? 4) with true in Hparse by lia. }
  rewrite handle_publish_packet, Hparse by done.
  replace (negb (topic =? "")%string) with true
    by (symmetry; apply negb_true_iff, String.eqb_neq, Htopic).
  rewrite bool_decide_eq_false_2 by done. cbn [negb andb].
  rewrite Haccepted. unfold try_except.
  rewrite handle_publish_payload_steps, Hdecode, Hloads.
  unfold mbind, M_bind, mbindM, pure.
  destruct (get document "state" (JDict [])) as [state|e|]; [|done..].
  destruct (get state "reported" (JDict [])) as [reported|e|]; [|done..].
  destruct (truthy reported); [done|].
  by destruct (has_key state "desired") as [[]|e|].
Qed.

End NotAnObject.

(** X10. A document of the wrong shape costs an error log and nothing
    else.  When the document is no object reading its [state] raises; when
    reading [reported] raises the handler logs the error and returns; and a
    [reported] that is truthy but no object makes the callback raise, which
    the handler logs as well.  The world is the old one plus the log
    lines. *)
Theorem reported_must_be_an_object `{!PyLib} (packet : bytes) (document : json)
    (w : world) :
  carries packet document →
  ((∀ members, document ≠ JDict members) →
   reported_of document = Raise AttributeError)
  ∧ (∀ e, reported_of document = Raise e →
          ∃ msg msg',
            _handle_mqtt_packet _mqtt_callback packet w
            = (Ok (), emit_all [Log DEBUG msg; Log ERROR msg'] w))
  ∧ (∀ reported,
       reported_of document = Ok reported → truthy reported = true →
       (∀ members, reported ≠ JDict members) →
       ∃ msg msg' msg'',
         _handle_mqtt_packet _mqtt_callback packet w
         = (Ok (), emit_all [Log DEBUG msg; Log DEBUG msg'; Log ERROR msg''] w)).
Proof.
  intros Hcarries. rewrite (handle_carried _ _ _ _ Hcarries).
  unfold reported_of, try_except, mbind, M_bind, mbindM, pure, result_bind, bind.
  split; [|split].
  - intros Hother. destruct document; try done. by destruct (Hother d).
  - intros e Hraise.
    destruct (get document "state" (JDict [])) as [state|e'|]; [|by eexists _, _|done].
    rewrite Hraise. by eexists _, _.
  - intros reported Hreported Htruthy Hother.
    destruct (get document "state" (JDict [])) as [state|e'|]; [|done..].
    rewrite Hreported, Htruthy. unfold log, modify.
    rewrite _mqtt_callback_steps.
    destruct reported; try by eexists _, _, _. by destruct (Hother d).
Qed.

Lemma reported_must_be_an_object_witness :
  let w := idle (Some {["x" := JInt 1]}) silent in
  let document := JDict [("state", JDict [("reported", JInt 5)])] in
  let packet :=
    inbound_publish "$aws/things/dev1/shadow/update/accepted"
      (Reference.dumps document) in
  ∃ msg msg' msg'',
    _handle_mqtt_packet (H := Reference.python) _mqtt_callback packet w
    = (Ok (), emit_all [Log DEBUG msg; Log DEBUG msg'; Log ERROR msg''] w).
Proof.
  intros w document packet.
  assert (carries (H := Reference.python) packet document) as Hcarries.
  { split; [exists 48; split; reflexivity|].
    exists "$aws/things/dev1/shadow/update/accepted",
      (encode_utf8 (Reference.dumps document)), (Reference.dumps document).
    split; [reflexivity|]. split; [discriminate|]. split; [discriminate|].
    split; [reflexivity|]. split; reflexivity. }
  destruct (reported_must_be_an_object (H := Reference.python) packet document w
              Hcarries) as (_ & _ & Hreported).
  apply (Hreported (JInt 5)); [reflexivity|reflexivity|discriminate].
Defined.

(** ** What the client and the coordinator leave alone *)

#[local] Instance kept_refl {A} (f : world → A) : Reflexive (kept f).
Proof. by intros w. Qed.

#[local] Instance kept_trans {A} (f : world → A) : Transitive (kept f).
Proof. unfold kept. intros w1 w2 w3 H12 H23. congruence. Qed.

Section Kept.
Context {A : Type} (f : world → A).
Hypothesis f_emit : ∀ e w, f (emit e w) = f w.

Lemma log_kept (level : log_level) (msg : string) : respects (kept f) (log level msg).
Proof. intros w. apply f_emit. Qed.

Lemma ws_send_kept (frame : bytes) : respects (kept f) (ws_send frame).
Proof. intros w. unfold ws_send. repeat case_match; by try apply f_emit. Qed.

Lemma ws_close_kept : respects (kept f) ws_close.
Proof. intros w. unfold ws_close. repeat case_match; by try apply f_emit. Qed.

Lemma cancel_listen_task_kept : respects (kept f) cancel_listen_task.
Proof.
  intros w. unfold cancel_listen_task, mbind, M_bind, mbindM, gets.
  repeat case_match; by try apply f_emit.
Qed.

Lemma modify_kept (g : world → world) :
  (∀ w, f (g w) = f w) → respects (kept f) (modify g).
Proof. intros Hg w. apply Hg. Qed.

Hypothesis f_advance : ∀ w, f (advance w) = f w.

Lemma sleep_kept (seconds : number) : respects (kept f) (sleep seconds).
Proof.
  intros w. unfold kept, sleep, modify. cbn [snd].
  by rewrite f_advance, f_emit.
Qed.

Context `{!PyLib}.

Lemma _request_device_state_kept : respects (kept f) _request_device_state.
Proof.
  unfold _request_device_state.
  repeat first
    [ apply respects_ret; apply _ | apply respects_gets; apply _
    | apply respects_pure; apply _
    | apply log_kept | apply ws_send_kept
    | apply respects_bind; [apply _| |intros ?]
    | apply respects_try_except; [apply _| |intros ?]
    | case_match ].
Qed.

Lemma subscribe_all_kept (topics : list string) :
  ∀ i, respects (kept f) (subscribe_all i topics).
Proof.
  induction topics as [|topic topics IH]; intros i; cbn [subscribe_all];
    [apply respects_ret; apply _|].
  repeat first
    [ apply IH | apply respects_pure; apply _ | apply log_kept
    | apply ws_send_kept
    | apply respects_bind; [apply _| |intros ?] ].
Qed.

End Kept.

Lemma ws_connect_kept {A} (f : world → A) (url : string) :
  (∀ e w, f (emit e w) = f w) → (∀ ws w, f (set_websocket ws w) = f w) →
  respects (kept f) (ws_connect url).
Proof.
  intros Hemit Hset w. unfold kept, ws_connect. case_match; [done|].
  cbn [snd]. by rewrite Hemit, Hset.
Qed.

Lemma ws_recv_kept {A} (f : world → A) :
  (∀ msgs w, f (set_inbox msgs w) = f w) → respects (kept f) ws_recv.
Proof.
  intros Hset w. unfold kept, ws_recv. repeat case_match; try done.
  cbn [snd]. by rewrite Hset.
Qed.

Lemma respects_await (R : relation world) `{!Reflexive R} {A}
    (answer : environment → A + exn) :
  respects R (await answer).
Proof. intros w. reflexivity. Qed.

Lemma snapshot_of_advance (w : world) : snapshot_of (advance w) = snapshot_of w.
Proof. unfold advance. by destruct (upcoming w). Qed.

Lemma session_of_advance (w : world) : session_of (advance w) = session_of w.
Proof. unfold advance. by destruct (upcoming w). Qed.

Lemma _websocket_advance (w : world) : _websocket (advance w) = _websocket w.
Proof. unfold advance. by destruct (upcoming w). Qed.

Lemma respects_out_of_fuel (R : relation world) `{!Reflexive R} {A} :
  respects R (out_of_fuel (A := A)).
Proof. intros w. reflexivity. Qed.

#[local] Hint Resolve respects_await respects_out_of_fuel kept_refl kept_trans
  same_session_refl same_session_trans
  log_kept ws_send_kept ws_close_kept cancel_listen_task_kept sleep_kept
  ws_connect_kept ws_recv_kept modify_kept _request_device_state_kept
  subscribe_all_kept snapshot_of_advance session_of_advance _websocket_advance
  : respects.

Section ClientKeeps.
Context `{!PyLib}.

Lemma connect_keeps_snapshot : respects (kept snapshot_of) connect.
Proof. unfold connect, connect_attempt, connect_failed. respects_steps. Qed.

#[local] Hint Resolve connect_keeps_snapshot : respects.

Lemma _ensure_connected_keeps_snapshot : respects (kept snapshot_of) _ensure_connected.
Proof. unfold _ensure_connected. respects_steps. Qed.

Lemma reconnect_loop_keeps_snapshot (ds : list Z) :
  respects (kept snapshot_of) (reconnect_loop ds).
Proof.
  induction ds as [|d ds IH]; cbn [reconnect_loop]; respects_steps.
Qed.

End ClientKeeps.

#[local] Hint Resolve connect_keeps_snapshot _ensure_connected_keeps_snapshot
  reconnect_loop_keeps_snapshot : respects.

(** X11. The client never writes what the coordinator holds: none of its methods
    changes [data], [last_update_success] or the coordinator's device id
    (the listener does, through the callback alone). *)
Theorem client_keeps_the_snapshot `{!PyLib} :
  respects (kept snapshot_of) connect
  ∧ respects (kept snapshot_of) disconnect
  ∧ respects (kept snapshot_of) _request_device_state
  ∧ (∀ temp_code, respects (kept snapshot_of) (async_set_temperature temp_code))
  ∧ (∀ volume_code, respects (kept snapshot_of) (async_set_volume volume_code))
  ∧ respects (kept snapshot_of) _listen_messages_finally.
Proof.
  split; [apply connect_keeps_snapshot|].
  split; [unfold disconnect; respects_steps|].
  split; [by apply _request_device_state_kept|].
  split; [|split].
  - intros temp_code. unfold async_set_temperature. respects_steps.
  - intros volume_code. unfold async_set_volume. respects_steps.
  - unfold _listen_messages_finally. respects_steps.
Qed.

Lemma same_session_set_data (d : option (gmap string json)) (w : world) :
  same_session w (set_data d w).
Proof. repeat (split; [done|]). exists []. by rewrite app_nil_r. Qed.

Lemma same_session_set_last_update_success (b : bool) (w : world) :
  same_session w (set_last_update_success b w).
Proof. repeat (split; [done|]). exists []. by rewrite app_nil_r. Qed.

(** X12. The coordinator never touches the client: neither a push nor a poll
    changes the connection, sends a frame or sleeps; they write the
    snapshot, log and notify the listeners. *)
Theorem coordinator_keeps_the_session :
  (∀ payload, respects same_session (_mqtt_callback payload))
  ∧ respects same_session _async_update_data
  ∧ respects same_session async_refresh.
Proof.
  assert (∀ e, is_report e = true → respects same_session (modify (emit e)))
    as Hemit by (intros e He w; by apply same_session_emit).
  assert (∀ d, respects same_session (modify (set_data d)))
    as Hdata by (intros d w; apply same_session_set_data).
  assert (∀ b, respects same_session (modify (set_last_update_success b)))
    as Hflag by (intros b w; apply same_session_set_last_update_success).
  assert (∀ level msg, respects same_session (log level msg))
    as Hlog by (intros level msg; by apply Hemit).
  assert (respects same_session _async_update_data) as Hupdate
    by (unfold _async_update_data; respects_steps).
  split; [|split; [exact Hupdate|]].
  - intros payload. unfold _mqtt_callback, async_set_updated_data.
    respects_steps; by apply Hemit.
  - unfold async_refresh. respects_steps; by apply Hemit.
Qed.

(** ** A connected client holds a socket *)

Lemma consistent_kept (w w' : world) :
  kept session_of w w' → consistent w → consistent w'.
Proof.
  unfold kept, session_of, consistent. intros [= Hconnected Hsocket].
  by rewrite Hconnected, Hsocket.
Qed.

Lemma opens_ret_false : opens (ret false).
Proof. by intros w w' [= _]. Qed.

Lemma opens_bind {A} (m : M A) (k : A → M bool) :
  (∀ a, opens (k a)) → opens (m ≫= k).
Proof.
  intros Hk w w'. unfold mbind, M_bind, mbindM.
  destruct (m w) as [[a|e|] w1]; [apply Hk|done..].
Qed.

Lemma opens_after_connect (url : string) (m : M bool) :
  respects (kept _websocket) m → opens (ws_connect url ≫= λ _, m).
Proof.
  intros Hm w w'. unfold mbind, M_bind, mbindM, ws_connect.
  destruct (ws_connect_error (env w)); [done|]. intros Hrun.
  specialize (Hm (emit (Opened url) (set_websocket (Some url) w))).
  rewrite Hrun in Hm. unfold kept in Hm. cbn in Hm. by rewrite Hm.
Qed.

Lemma keeps_session_ret_false : keeps_session_unless_true (ret false).
Proof. by intros w w' [= <-]. Qed.

Lemma keeps_session_bind {A} (m : M A) (k : A → M bool) :
  respects (kept session_of) m → (∀ a, keeps_session_unless_true (k a)) →
  keeps_session_unless_true (m ≫= k).
Proof.
  intros Hm Hk w w'. unfold mbind, M_bind, mbindM.
  specialize (Hm w). destruct (m w) as [[a|e|] w1]; [|done..].
  intros Hka. etrans; [exact Hm|by apply (Hk a)].
Qed.

Lemma keeps_session_answers (m : M bool) :
  answers true m → keeps_session_unless_true m.
Proof. intros Htrue w w' Hm. by specialize (Htrue _ _ _ Hm). Qed.

Section Consistent.
Context `{!PyLib}.

Lemma connect_attempt_opens : opens connect_attempt.
Proof.
  unfold connect_attempt.
  repeat first
    [ apply opens_ret_false
    | apply opens_after_connect; solve [respects_steps]
    | apply opens_bind; intros ?
    | case_match ].
Qed.

Lemma connect_attempt_keeps_session : keeps_session_unless_true connect_attempt.
Proof.
  unfold connect_attempt.
  repeat first
    [ apply keeps_session_ret_false
    | apply keeps_session_bind; [solve [respects_steps]|intros ?]
    | apply keeps_session_answers;
      solve [repeat first [apply answers_ret | apply answers_bind; intros ?]]
    | case_match ].
Qed.

Lemma connect_failed_outcome (err : exn) (w : world) :
  ∃ w', connect_failed err w = (Ok false, w')
        ∧ connected w' = false ∧ _websocket w' = None.
Proof.
  unfold connect_failed. rewrite bind_log.
  unfold mbind, M_bind, mbindM, modify, gets, try_except, ret.
  cbn [_websocket emit set_connected].
  destruct (_websocket w) as [url|] eqn:Hws;
    [|eexists; split; [reflexivity|]; by split].
  unfold ws_close. cbn [_websocket emit set_connected env]. rewrite Hws.
  destruct (ws_close_error (env w)); eexists; (split; [reflexivity|]); by split.
Qed.

Lemma connect_cases (w : world) :
  ∃ b w', connect w = (Ok b, w') ∧ connected w' = b
          ∧ (b = true → connected w = false → is_Some (_websocket w'))
          ∧ (b = false →
             connected w = false ∧ (_websocket w = None → _websocket w' = None))
          ∧ (consistent w → consistent w').
Proof.
  unfold connect. unfold mbind at 1, M_bind at 1, mbindM at 1, gets.
  destruct (connected w) eqn:Hconnected.
  { rewrite bind_log. eexists _, _. split; [reflexivity|].
    split; [done|]. split; [done|]. split; [done|].
    intros Hconsistent. exact Hconsistent. }
  unfold try_except.
  pose proof (connect_attempt_terminates w) as Hterm.
  pose proof (connect_attempt_tells_connected w) as Htells.
  pose proof (connect_attempt_opens w) as Hopens.
  pose proof (connect_attempt_keeps_session w) as Hkeeps.
  destruct (connect_attempt w) as [[[]|e|] w1]; [| | |done].
  - specialize (Htells true w1 eq_refl). specialize (Hopens w1 eq_refl).
    cbn in Htells.
    exists true, w1. split; [done|]. split; [done|]. split; [done|].
    split; [done|]. by intros _ _.
  - specialize (Htells false w1 eq_refl). specialize (Hkeeps w1 eq_refl).
    cbn in Htells.
    injection Hkeeps as Hflag Hsocket.
    exists false, w1. split; [done|]. split; [congruence|].
    split; [done|]. split; [split; [done|congruence]|].
    intros _ Habsurd. congruence.
  - destruct (connect_failed_outcome e w1) as (w' & -> & Hflag & Hsocket).
    exists false, w'. split; [done|]. split; [done|]. split; [done|].
    split; [done|]. intros _ Habsurd. congruence.
Qed.

End Consistent.

Lemma preserves_bind (P : world → Prop) {A B} (m : M A) (k : A → M B) :
  preserves P m → (∀ a, preserves P (k a)) → preserves P (m ≫= k).
Proof.
  intros Hm Hk w Hw. unfold mbind, M_bind, mbindM.
  specialize (Hm w Hw). destruct (m w) as [[a|e|] w']; [|done..].
  by apply Hk.
Qed.

Lemma preserves_try_except (P : world → Prop) {A} (body : M A)
    (handler : exn → M A) :
  preserves P body → (∀ e, preserves P (handler e)) →
  preserves P (try_except body handler).
Proof.
  intros Hbody Hhandler w Hw. unfold try_except.
  specialize (Hbody w Hw). destruct (body w) as [[a|e|] w']; [done| |done].
  by apply Hhandler.
Qed.

Lemma preserves_try_finally (P : world → Prop) {A} (body : M A)
    (cleanup : M unit) :
  preserves P body → preserves P cleanup →
  preserves P (try_finally body cleanup).
Proof.
  intros Hbody Hcleanup w Hw. unfold try_finally.
  specialize (Hbody w Hw). destruct (body w) as [[a|e|] w']; [| |done].
  - specialize (Hcleanup w' Hbody). by destruct (cleanup w') as [[[]|e|] w''].
  - specialize (Hcleanup w' Hbody). by destruct (cleanup w') as [[[]|e'|] w''].
Qed.

Lemma preserves_consistent {A} (m : M A) :
  respects (kept session_of) m → preserves consistent m.
Proof. intros Hm w. apply consistent_kept, Hm. Qed.

Section Invariant.
Context `{!PyLib}.

Lemma connect_preserves_consistent : preserves consistent connect.
Proof.
  intros w Hw.
  destruct (connect_cases w) as (b & w' & -> & _ & _ & _ & Hconsistent).
  by apply Hconsistent.
Qed.

Lemma disconnect_preserves_consistent : preserves consistent disconnect.
Proof.
  intros w _. unfold disconnect.
  unfold mbind at 1, M_bind at 1, mbindM at 1, modify at 1.
  assert (respects (kept connected)
            (modify (set_listening false) ≫= λ _,
             cancel_listen_task ≫= λ _,
             gets _websocket ≫= λ ws,
             match ws with
             | Some _ =>
                 try_except
                   (disconnect_packet ← pure (bytes_of_ints [0xE0; 0x00]);
                    ws_send disconnect_packet;;
                    ws_close;;
                    log INFO "WebSocket MQTT 连接已断开")
                   (λ err, log ERROR "断开 WebSocket 连接时出错: %s")
             | None => ret ()
             end ≫= λ _, modify (set_websocket None))) as Hrest
    by respects_steps.
  specialize (Hrest (set_connected false w)). unfold kept in Hrest.
  intros Hconnected. cbn [connected set_connected] in Hrest. congruence.
Qed.

Lemma _ensure_connected_preserves_consistent : preserves consistent _ensure_connected.
Proof.
  unfold _ensure_connected.
  repeat first
    [ apply preserves_consistent; solve [respects_steps]
    | apply connect_preserves_consistent
    | apply preserves_bind; [|intros ?]
    | apply preserves_try_except; [|intros ?]
    | case_match ].
Qed.

Lemma reconnect_loop_preserves_consistent (ds : list Z) :
  preserves consistent (reconnect_loop ds).
Proof.
  induction ds as [|d ds IH]; cbn [reconnect_loop].
  { apply preserves_consistent. respects_steps. }
  repeat first
    [ apply IH
    | apply preserves_consistent; solve [respects_steps]
    | apply connect_preserves_consistent
    | apply preserves_bind; [|intros ?]
    | case_match ].
Qed.

Lemma _listen_messages_finally_preserves_consistent :
  preserves consistent _listen_messages_finally.
Proof.
  intros w _. unfold _listen_messages_finally.
  unfold mbind at 1 2, M_bind at 1 2, mbindM at 1 2, modify.
  apply reconnect_loop_preserves_consistent. by intros Hconnected.
Qed.

Lemma session_of_emit_all (events : list event) :
  ∀ w, session_of (emit_all events w) = session_of w.
Proof.
  induction events as [|e events IH]; intros w; [done|].
  change (emit_all (e :: events) w) with (emit_all events (emit e w)).
  by rewrite IH.
Qed.

Lemma _mqtt_callback_keeps_session (payload : json) :
  respects (kept session_of)
    (try_except (_mqtt_callback payload)
       (λ err, log ERROR "解析 PUBLISH payload 失败: %s")).
Proof. unfold _mqtt_callback, async_set_updated_data. respects_steps. Qed.

Lemma handle_mqtt_packet_keeps_session (packet : bytes) :
  respects (kept session_of) (_handle_mqtt_packet _mqtt_callback packet).
Proof.
  intros w.
  destruct (handle_mqtt_packet_cases _mqtt_callback packet w)
    as [(events & Hlogs & ->)|(topic & payload_bytes & payload_str & payload_data
          & state & reported & events & _ & _ & _ & _ & _ & _ & Hlogs & ->)].
  - apply session_of_emit_all.
  - etrans; [apply session_of_emit_all|]. apply _mqtt_callback_keeps_session.
Qed.

End Invariant.

Create HintDb preserves.

Section Invariant.
Context `{!PyLib}.

#[local] Hint Resolve connect_preserves_consistent
  _ensure_connected_preserves_consistent
  _listen_messages_finally_preserves_consistent : preserves.

#[local] Ltac preserves_steps :=
  repeat first
    [ solve [auto with preserves]
    | apply preserves_consistent; solve [respects_steps]
    | apply preserves_bind; [|intros ?]
    | apply preserves_try_except; [|intros ?]
    | apply preserves_try_finally
    | case_match ].

Lemma _listen_messages_step_keeps_session :
  respects (kept session_of) (_listen_messages_step _mqtt_callback).
Proof.
  pose proof handle_mqtt_packet_keeps_session as Hhandle.
  unfold _listen_messages_step. respects_steps.
Qed.

Lemma _listen_messages_loop_keeps_session (fuel : nat) :
  respects (kept session_of) (_listen_messages_loop _mqtt_callback fuel).
Proof.
  pose proof _listen_messages_step_keeps_session as Hstep.
  induction fuel as [|fuel IH]; cbn [_listen_messages_loop]; respects_steps.
Qed.

Lemma _listen_messages_preserves_consistent (fuel : nat) :
  preserves consistent (_listen_messages _mqtt_callback fuel).
Proof.
  pose proof (_listen_messages_loop_keeps_session fuel) as Hloop.
  unfold _listen_messages. preserves_steps.
Qed.

End Invariant.

(** X13. A client that says it is connected holds a socket, and every method
    keeps it so: [connect], [disconnect], [_ensure_connected], the two
    commands, the state request and the listener with its reconnection. *)
Theorem connected_clients_hold_a_socket `{!PyLib} :
  preserves consistent connect
  ∧ preserves consistent disconnect
  ∧ preserves consistent _ensure_connected
  ∧ preserves consistent _request_device_state
  ∧ (∀ temp_code, preserves consistent (async_set_temperature temp_code))
  ∧ (∀ volume_code, preserves consistent (async_set_volume volume_code))
  ∧ (∀ packet, preserves consistent (_handle_mqtt_packet _mqtt_callback packet))
  ∧ (∀ fuel, preserves consistent (_listen_messages _mqtt_callback fuel)).
Proof.
  split; [apply connect_preserves_consistent|].
  split; [apply disconnect_preserves_consistent|].
  split; [apply _ensure_connected_preserves_consistent|].
  split; [apply preserves_consistent; by apply _request_device_state_kept|].
  split; [|split; [|split]].
  - intros temp_code. unfold async_set_temperature.
    pose proof _ensure_connected_preserves_consistent.
    repeat first
      [ assumption
      | apply preserves_consistent; solve [respects_steps]
      | apply preserves_bind; [|intros ?]
      | apply preserves_try_except; [|intros ?]
      | case_match ].
  - intros volume_code. unfold async_set_volume.
    pose proof _ensure_connected_preserves_consistent.
    repeat first
      [ assumption
      | apply preserves_consistent; solve [respects_steps]
      | apply preserves_bind; [|intros ?]
      | apply preserves_try_except; [|intros ?]
      | case_match ].
  - intros packet. apply preserves_consistent, handle_mqtt_packet_keeps_session.
  - apply _listen_messages_preserves_consistent.
Qed.

Lemma connected_clients_hold_a_socket_witness :
  let w := idle None (online (JDict []) (JDict [])) in
  consistent (async_set_temperature (H := Reference.python) "6" w).2.
Proof.
  intros w.
  destruct (connected_clients_hold_a_socket (H := Reference.python))
    as (_ & _ & _ & _ & Htemperature & _).
  apply (Htemperature "6" w). intros Hconnected. discriminate Hconnected.
Defined.

(** X14. [connect] never raises; its answer is the connection flag it leaves;
    after [True] the client holds a socket; after [False] it is not
    connected and holds no socket if it held none; and the coordinator's
    snapshot is untouched. *)
Theorem connect_outcome `{!PyLib} (w : world) :
  ∃ b w', connect w = (Ok b, w') ∧ connected w' = b
          ∧ (b = true → connected w = false → is_Some (_websocket w'))
          ∧ (b = false →
             connected w = false ∧ (_websocket w = None → _websocket w' = None))
          ∧ snapshot_of w' = snapshot_of w.
Proof.
  destruct (connect_cases w) as (b & w' & Hconnect & Hflag & Htrue & Hfalse & _).
  exists b, w'. repeat (split; [done|]).
  pose proof (connect_keeps_snapshot w) as Hkept. by rewrite Hconnect in Hkept.
Qed.

Lemma connect_outcome_witness :
  let w := idle None silent in
  ∃ w', connect (H := Reference.python) w = (Ok false, w')
        ∧ connected w' = false ∧ _websocket w' = None.
Proof.
  intros w.
  destruct (connect_outcome (H := Reference.python) w)
    as (b & w' & Hconnect & Hflag & _ & Hfalse & _).
  assert (b = false) as ->.
  { apply (f_equal fst) in Hconnect. vm_compute in Hconnect. by injection Hconnect. }
  exists w'. split; [exact Hconnect|]. split; [exact Hflag|].
  destruct (Hfalse eq_refl) as [_ Hsocket]. apply Hsocket. reflexivity.
Defined.

(** ** Disconnecting *)

(** X15. [disconnect] never raises and leaves the client disconnected, not
    listening and without socket.  With no socket it sends nothing; with a
    socket that takes the frame it sends the DISCONNECT packet [E0 00] and
    then closes; when the send raises, the socket is dropped without being
    closed. *)
Theorem disconnect_outcome (w : world) :
  ∃ w' events,
    disconnect w = (Ok (), w')
    ∧ connected w' = false ∧ _listening w' = false ∧ _websocket w' = None
    ∧ trace w' = trace w ++ events
    ∧ (_websocket w = None → frames events = [] ∧ closed events = false)
    ∧ (is_Some (_websocket w) → ws_send_error (env w) = None →
       frames events = [[xe0; x00]]
       ∧ (ws_close_error (env w) = None → closed events = true))
    ∧ (is_Some (_websocket w) → is_Some (ws_send_error (env w)) →
       frames events = [] ∧ closed events = false).
Proof.
  destruct w as [d cd lus dev c ws lt li [cfg ce se cle wd ds] up ib tr].
  destruct lt as [[]|], ws as [url|], se as [e|], cle as [e'|];
    (eexists _, _; split; [reflexivity|]; split; [reflexivity|];
     split; [reflexivity|]; split; [reflexivity|];
     split; [cbn; rewrite <- ?app_assoc;
             first [reflexivity | symmetry; apply app_nil_r]|]);
    repeat split; intros; cbn in *; try done;
    exfalso; by eapply is_Some_None.
Qed.

Lemma disconnect_outcome_witness :
  let w := active None (online (JDict []) (JDict [])) in
  ∃ w' events,
    disconnect w = (Ok (), w')
    ∧ connected w' = false ∧ _websocket w' = None
    ∧ trace w' = events
    ∧ frames events = [[xe0; x00]] ∧ closed events = true.
Proof.
  intros w.
  destruct (disconnect_outcome w)
    as (w' & events & Hrun & Hflag & _ & Hsocket & Htrace & _ & Hsent & _).
  exists w', events. split; [exact Hrun|]. split; [exact Hflag|].
  split; [exact Hsocket|]. split; [exact Htrace|].
  destruct Hsent as [Hframes Hclosed]; [by eexists|reflexivity|].
  split; [exact Hframes|]. apply Hclosed. reflexivity.
Defined.

(** ** The handshake of [connect] *)

Lemma bind_gets {A B} (f : world → A) (k : A → M B) (w : world) :
  (gets f ≫= k) w = k (f w) w.
Proof. done. Qed.

Lemma bind_modify {B} (g : world → world) (k : () → M B) (w : world) :
  (modify g ≫= k) w = k () (g w).
Proof. done. Qed.

Lemma bind_ret {A B} (a : A) (k : A → M B) (w : world) : (ret a ≫= k) w = k a w.
Proof. done. Qed.

Lemma bind_sleep {B} (seconds : number) (k : () → M B) (w : world) :
  (sleep seconds ≫= k) w = k () (advance (emit (Sleep seconds) w)).
Proof. done. Qed.

Lemma bind_ws_send {B} (frame : bytes) (k : () → M B) (w : world) (url : string) :
  _websocket w = Some url → ws_send_error (env w) = None →
  (ws_send frame ≫= k) w = k () (emit (Sent frame) w).
Proof.
  intros Hopen Hsends. unfold mbind, M_bind, mbindM, ws_send.
  by rewrite Hopen, Hsends.
Qed.

Lemma bind_ws_connect {B} (url : string) (k : () → M B) (w : world) :
  ws_connect_error (env w) = None →
  (ws_connect url ≫= k) w = k () (emit (Opened url) (set_websocket (Some url) w)).
Proof. intros Hopens. unfold mbind, M_bind, mbindM, ws_connect. by rewrite Hopens. Qed.

Lemma bind_assoc {A B C} (m : M A) (k1 : A → M B) (k2 : B → M C) (w : world) :
  ((m ≫= k1) ≫= k2) w = (m ≫= λ a, k1 a ≫= k2) w.
Proof. unfold mbind, M_bind, mbindM. by destruct (m w) as [[a|e|] w']. Qed.

Lemma bind_cancel_listen_task {B} (k : () → M B) (w : world) :
  (cancel_listen_task ≫= k) w
  = k () (match _listen_task w with
          | Some TaskRunning => emit TaskCancelled w
          | _ => w
          end).
Proof.
  unfold cancel_listen_task, mbind, M_bind, mbindM, gets, modify, ret.
  by destruct (_listen_task w) as [[]|].
Qed.

Lemma env_advance (w w0 : world) :
  env w = env w0 → upcoming w = upcoming w0 → env (advance w) = env (advance w0).
Proof. intros Henv Hup. unfold advance. rewrite Hup. by destruct (upcoming w0). Qed.

Lemma connected_advance (w : world) : connected (advance w) = connected w.
Proof. unfold advance. by destruct (upcoming w). Qed.

Lemma _listen_task_advance (w : world) : _listen_task (advance w) = _listen_task w.
Proof. unfold advance. by destruct (upcoming w). Qed.

Lemma device_id_advance (w : world) : device_id (advance w) = device_id w.
Proof. unfold advance. by destruct (upcoming w). Qed.

Lemma encode_utf8_app (s1 s2 : string) :
  encode_utf8 (s1 +:+ s2) = encode_utf8 s1 ++ encode_utf8 s2.
Proof.
  unfold encode_utf8, String.list_byte_of_string.
  induction s1 as [|c s1 IH]; [done|].
  change (String c s1 +:+ s2) with (String c (s1 +:+ s2)).
  cbn [String.list_ascii_of_string map app]. by rewrite IH.
Qed.

Lemma topic_length (device suffix : string) :
  len (encode_utf8 ("$aws/things/" +:+ device +:+ suffix))
  = 12 + len (encode_utf8 device) + len (encode_utf8 suffix).
Proof.
  rewrite !encode_utf8_app, !len_app.
  change (len (encode_utf8 "$aws/things/")) with 12. lia.
Qed.

Section Handshake.
Context `{!PyLib}.

Lemma connect_attempt_steps (w : world) (config : list (string * json))
    (url client_id : string)
    (connect_frame subscribe_get subscribe_update get_frame : bytes) :
  mqtt_config_response (env w) = JDict config →
  assoc "host" config = Some (JStr url) → url ≠ "" →
  chosen_client_id config (device_id w) = JStr client_id →
  ws_connect_error (env w) = None →
  ws_send_error (env w) = None →
  ws_send_error (env (advance w)) = None →
  _build_mqtt_connect_packet client_id = Ok connect_frame →
  _build_mqtt_subscribe_packet
    ("$aws/things/" +:+ device_id w +:+ "/shadow/get/#") 1 = Ok subscribe_get →
  _build_mqtt_subscribe_packet
    ("$aws/things/" +:+ device_id w +:+ "/shadow/update/accepted") 2
  = Ok subscribe_update →
  _build_mqtt_publish_packet
    ("$aws/things/" +:+ device_id w +:+ "/shadow/get") (JDict []) 3 = Ok get_frame →
  ∃ w' events,
    connect_attempt w = (Ok true, w')
    ∧ trace w' = trace w ++ events
    ∧ actions events
      = [Opened url; Sent connect_frame; Sleep (Float half);
         Sent subscribe_get; Sent subscribe_update]
        ++ match _listen_task w with
           | Some TaskRunning => [TaskCancelled]
           | _ => []
           end
        ++ [TaskCreated; Sent get_frame]
    ∧ connected w' = true ∧ _websocket w' = Some url
    ∧ _listen_task w' = Some TaskRunning.
Proof.
  intros Hconfig Hhost Hurl Hclient Hopens Hsends Hsends' Hconnect Hget Hupdate
    Hstate.
  unfold connect_attempt. rewrite bind_log, bind_gets.
  cbn [env emit]. rewrite Hconfig.
  assert (truthy (JDict config) = true) as -> by (by destruct config).
  cbn [negb get]. rewrite Hhost.
  rewrite (bind_pure _ _ _ (JStr url) eq_refl).
  assert (truthy (JStr url) = true) as ->.
  { cbn [truthy]. apply negb_true_iff, String.eqb_neq, Hurl. }
  cbn [negb]. rewrite (bind_pure _ _ _ _ eq_refl), bind_gets.
  cbn [device_id emit].
  change (if truthy _ then _ else JStr (device_id w))
    with (chosen_client_id config (device_id w)).
  rewrite Hclient, bind_ret, bind_log, bind_ws_connect by done.
  rewrite bind_modify, bind_log, (bind_pure _ _ _ _ Hconnect).
  rewrite (bind_ws_send _ _ _ url) by done.
  rewrite bind_log, bind_sleep.
  set (w5 := emit (Sleep (Float half)) _).
  assert (connected (advance w5) = true) as Hflag
    by (by rewrite connected_advance).
  assert (_websocket (advance w5) = Some url) as Hsocket
    by (by rewrite _websocket_advance).
  assert (ws_send_error (env (advance w5)) = None) as Hsends5
    by (by rewrite (env_advance _ w)).
  assert (device_id (advance w5) = device_id w) as Hdevice
    by (by rewrite device_id_advance).
  assert (_listen_task (advance w5) = _listen_task w) as Htask
    by (by rewrite _listen_task_advance).
  assert (trace (advance w5)
          = trace w ++ [Log INFO "开始连接MQTT WebSocket，device_id=%s";
                        Log DEBUG "使用 WSS URL: %s, clientID: %s";
                        Opened url; Log INFO "WebSocket 连接成功";
                        Sent connect_frame; Log DEBUG "已发送 MQTT CONNECT 包";
                        Sleep (Float half)]) as Htrace.
  { rewrite trace_advance. subst w5. cbn [trace emit set_connected set_websocket].
    by rewrite <- !app_assoc. }
  generalize dependent (advance w5). clear w5. intros w6 Hflag Hsocket Hsends6
    Hdevice Htask Htrace.
  cbn [subscribe_all]. rewrite !bind_assoc.
  rewrite (bind_pure _ _ _ _ Hget), bind_assoc.
  rewrite (bind_ws_send _ _ _ url) by assumption.
  rewrite bind_assoc, bind_log.
  change (1 + 1) with 2. rewrite bind_assoc, (bind_pure _ _ _ _ Hupdate), bind_assoc.
  rewrite (bind_ws_send _ _ _ url) by assumption.
  rewrite bind_assoc, bind_log, bind_ret, bind_cancel_listen_task.
  cbn [_listen_task emit]. rewrite Htask.
  rewrite bind_modify, bind_modify.
  set (cancelled := match _listen_task w with
                    | Some TaskRunning => [TaskCancelled]
                    | _ => []
                    end).
  set (y := match _listen_task w with Some TaskRunning => _ | _ => _ end).
  assert (connected y = true ∧ _websocket y = Some url
          ∧ ws_send_error (env y) = None ∧ device_id y = device_id w
          ∧ trace y = trace w6
                      ++ [Sent subscribe_get; Log DEBUG "已订阅主题: %s";
                          Sent subscribe_update; Log DEBUG "已订阅主题: %s"]
                      ++ cancelled)
    as (Hflag' & Hsocket' & Hsends'' & Hdevice' & Htrace').
  { subst y cancelled. destruct (_listen_task w) as [[]|];
      (repeat (split; [assumption|]));
      cbn [trace emit]; by rewrite <- ?app_assoc, ?app_nil_r. }
  clearbody y.
  set (x := emit TaskCreated (set_listen_task (Some TaskRunning) y)).
  pose proof (_request_device_state_steps x url Hflag' Hsocket' Hsends'')
    as Hrequest.
  change (device_id x) with (device_id y) in Hrequest.
  rewrite Hdevice', Hstate in Hrequest.
  rewrite (bind_ok _ _ _ _ _ Hrequest).
  eexists _, _. split; [reflexivity|].
  split.
  { subst x. cbn [trace emit_all foldl emit set_listen_task].
    rewrite Htrace', Htrace, <- !app_assoc. reflexivity. }
  split.
  { unfold actions. rewrite !List.filter_app. subst cancelled.
    by destruct (_listen_task w) as [[]|]. }
  split; [exact Hflag'|]. split; [exact Hsocket'|reflexivity].
Qed.

End Handshake.

(** X16. The handshake of [connect].  With a configuration that gives a host,
    a broker that accepts the socket and the frames, a client that is not
    connected opens the socket, sends CONNECT for the configured client id
    (its device id when none is configured), sleeps half a second, sends
    SUBSCRIBE for [shadow/get/#] with packet identifier 1 and for
    [shadow/update/accepted] with 2, cancels a listener that runs, starts
    a listener and sends the state request, in this order, and answers
    [True].  On the wire each of the four frames has the layout of its
    kind, for that client id, those topics and identifiers, and the JSON
    text of the empty document. *)
Theorem connect_handshake `{!PyLib} (w : world) (config : list (string * json))
    (url client_id : string) :
  connected w = false →
  mqtt_config_response (env w) = JDict config →
  assoc "host" config = Some (JStr url) → url ≠ "" →
  chosen_client_id config (device_id w) = JStr client_id →
  ws_connect_error (env w) = None →
  ws_send_error (env w) = None →
  ws_send_error (env (advance w)) = None →
  len (encode_utf8 client_id) < 65536 →
  len (encode_utf8 (device_id w)) ≤ 65500 →
  ∃ connect_frame subscribe_get subscribe_update get_frame w' events,
    _build_mqtt_connect_packet client_id = Ok connect_frame
    ∧ _build_mqtt_subscribe_packet
        ("$aws/things/" +:+ device_id w +:+ "/shadow/get/#") 1 = Ok subscribe_get
    ∧ _build_mqtt_subscribe_packet
        ("$aws/things/" +:+ device_id w +:+ "/shadow/update/accepted") 2
      = Ok subscribe_update
    ∧ _build_mqtt_publish_packet
        ("$aws/things/" +:+ device_id w +:+ "/shadow/get") (JDict []) 3
      = Ok get_frame
    ∧ connect w = (Ok true, w')
    ∧ trace w' = trace w ++ events
    ∧ actions events
      = [Opened url; Sent connect_frame; Sleep (Float half);
         Sent subscribe_get; Sent subscribe_update]
        ++ match _listen_task w with
           | Some TaskRunning => [TaskCancelled]
           | _ => []
           end
        ++ [TaskCreated; Sent get_frame]
    ∧ connected w' = true ∧ _websocket w' = Some url
    ∧ _listen_task w' = Some TaskRunning
    ∧ connect_layout client_id connect_frame
    ∧ subscribe_layout ("$aws/things/" +:+ device_id w +:+ "/shadow/get/#") 1
        subscribe_get
    ∧ subscribe_layout
        ("$aws/things/" +:+ device_id w +:+ "/shadow/update/accepted") 2
        subscribe_update
    ∧ publish_layout ("$aws/things/" +:+ device_id w +:+ "/shadow/get") 3
        (json_dumps (JDict [])) get_frame.
Proof.
  intros Hoff Hconfig Hhost Hurl Hclient Hopens Hsends Hsends' Hid Hdevice.
  destruct (build_connect_ok client_id Hid) as (connect_frame & Hconnect).
  destruct (build_subscribe_ok ("$aws/things/" +:+ device_id w +:+ "/shadow/get/#") 1)
    as (subscribe_get & Hget); [rewrite topic_length|lia|].
  { change (len (encode_utf8 "/shadow/get/#")) with 13. lia. }
  destruct (build_subscribe_ok
              ("$aws/things/" +:+ device_id w +:+ "/shadow/update/accepted") 2)
    as (subscribe_update & Hupdate); [rewrite topic_length|lia|].
  { change (len (encode_utf8 "/shadow/update/accepted")) with 23. lia. }
  destruct (build_publish_ok ("$aws/things/" +:+ device_id w +:+ "/shadow/get")
              (JDict []) 3) as (get_frame & Hstate); [rewrite topic_length|lia|].
  { change (len (encode_utf8 "/shadow/get")) with 11. lia. }
  destruct (connect_attempt_steps w config url client_id connect_frame
              subscribe_get subscribe_update get_frame)
    as (w' & events & Hattempt & Htrace & Hactions & Hflag & Hsocket & Htask);
    [done..|].
  exists connect_frame, subscribe_get, subscribe_update, get_frame, w', events.
  repeat (split; [done|]).
  split.
  { unfold connect. rewrite bind_gets, Hoff. unfold try_except.
    by rewrite Hattempt. }
  repeat (split; [done|]).
  split; [by apply build_connect_on_the_wire|].
  split; [by apply build_subscribe_on_the_wire|].
  split; [by apply build_subscribe_on_the_wire|].
  by apply build_publish_on_the_wire.
Qed.

Lemma connect_handshake_witness :
  let w := idle None (online (JDict []) (JDict [])) in
  ∃ connect_frame subscribe_get subscribe_update get_frame w' events,
    connect (H := Reference.python) w = (Ok true, w')
    ∧ trace w' = events
    ∧ actions events
      = [Opened "wss://broker"; Sent connect_frame; Sleep (Float half);
         Sent subscribe_get; Sent subscribe_update; TaskCreated; Sent get_frame]
    ∧ _build_mqtt_connect_packet "client-1" = Ok connect_frame
    ∧ _build_mqtt_subscribe_packet "$aws/things/dev1/shadow/get/#" 1
      = Ok subscribe_get
    ∧ _build_mqtt_subscribe_packet "$aws/things/dev1/shadow/update/accepted" 2
      = Ok subscribe_update.
Proof.
  intros w.
  destruct (connect_handshake (H := Reference.python) w
              [("host", JStr "wss://broker"); ("clientID", JStr "client-1")]
              "wss://broker" "client-1" eq_refl eq_refl eq_refl
              ltac:(discriminate) eq_refl eq_refl eq_refl eq_refl
              ltac:(by vm_compute) ltac:(by vm_compute))
    as (connect_frame & subscribe_get & subscribe_update & get_frame & w' & events
        & Hconnect & Hget & Hupdate & _ & Hrun & Htrace & Hactions & _).
  exists connect_frame, subscribe_get, subscribe_update, get_frame, w', events.
  split; [exact Hrun|]. split; [exact Htrace|]. split; [exact Hactions|].
  split; [exact Hconnect|]. split; [exact Hget|exact Hupdate].
Defined.

Lemma set_connected_same (w : world) : set_connected (connected w) w = w.
Proof. by destruct w. Qed.

(** X17. Without a host that is a non-empty string in the configuration (no
    configuration at all included), [connect] answers [False] and only
    writes log lines: no socket is opened and no frame sent. *)
Theorem connect_needs_a_host `{!PyLib} (w : world) :
  connected w = false → _websocket w = None →
  (∀ url, get (mqtt_config_response (env w)) "host" JNull = Ok (JStr url) →
          url = "") →
  ∃ events, forallb is_log events = true
            ∧ connect w = (Ok false, emit_all events w).
Proof.
  intros Hoff Hsocket Hhost.
  assert (∀ e w1,
            w1 = emit (Log INFO "开始连接MQTT WebSocket，device_id=%s") w →
            ∃ events, forallb is_log events = true
                      ∧ connect_failed e w1 = (Ok false, emit_all events w))
    as Hfailed.
  { intros e w1 ->. unfold connect_failed.
    rewrite bind_log, bind_modify, bind_gets. cbn [_websocket emit set_connected].
    rewrite Hsocket.
    exists [Log INFO "开始连接MQTT WebSocket，device_id=%s";
            Log ERROR "WebSocket 连接失败: %s"].
    split; [reflexivity|].
    unfold ret. f_equal. rewrite <- (set_connected_same w) at 2.
    by rewrite Hoff. }
  unfold connect. rewrite bind_gets, Hoff. unfold try_except, connect_attempt.
  rewrite bind_log, bind_gets. cbn [env emit].
  destruct (truthy (mqtt_config_response (env w))) eqn:Hconfig; cbn [negb].
  2: { rewrite bind_log. eexists [_; _]. split; [|reflexivity]. reflexivity. }
  unfold mbind at 1, M_bind at 1, mbindM at 1, pure at 1.
  destruct (get (mqtt_config_response (env w)) "host" JNull) as [host|e|] eqn:Hget;
    [|by apply Hfailed|by apply get_terminates in Hget].
  destruct (truthy host) eqn:Htruthy; cbn [negb].
  2: { rewrite bind_log. eexists [_; _]. split; [|reflexivity]. reflexivity. }
  unfold mbind at 1, M_bind at 1, mbindM at 1, pure at 1.
  destruct (get (mqtt_config_response (env w)) "clientID" JNull) as [cid|e|] eqn:Hcid;
    [|by apply Hfailed|by apply get_terminates in Hcid].
  rewrite bind_gets.
  destruct host as [| | | |url| |]; try by apply Hfailed.
  specialize (Hhost url eq_refl). subst url. discriminate Htruthy.
Qed.

Lemma connect_needs_a_host_witness :
  let w := idle None silent in
  ∃ events, forallb is_log events = true
            ∧ connect (H := Reference.python) w = (Ok false, emit_all events w).
Proof.
  intros w. apply (connect_needs_a_host (H := Reference.python) w).
  - reflexivity.
  - reflexivity.
  - intros url Hurl. discriminate Hurl.
Defined.

(** ** Commands that fail *)

Section CommandFailures.
Context `{!PyLib}.

Lemma _ensure_connected_returns (w : world) :
  ∃ b w', _ensure_connected w = (Ok b, w') ∧ connected w' = b.
Proof.
  destruct (connected w) eqn:Hconnected.
  { rewrite _ensure_connected_connected by done. by eexists _, _. }
  destruct (connect_result w) as (b & w' & Hconnect & Hflag & _).
  unfold _ensure_connected, try_except, mbind, M_bind, mbindM, gets, ret.
  rewrite Hconnected. cbn beta iota. rewrite Hconnect. by eexists _, _.
Qed.

Lemma publish_fails_when_send_fails {B} (topic : string) (payload : json)
    (packet_id : Z) (k : () → M B) (w : world) (e : exn) :
  ws_send_error (env w) = Some e →
  ∃ e', (publish_packet ← pure (_build_mqtt_publish_packet topic payload packet_id);
         ws_send publish_packet ≫= k) w = (Raise e', w).
Proof.
  intros Hsend. unfold mbind, M_bind, mbindM, pure.
  pose proof (build_publish_terminates topic payload packet_id) as Hterm.
  destruct (_build_mqtt_publish_packet topic payload packet_id) as [frame|e'|];
    [|by eexists|done].
  unfold ws_send. rewrite Hsend. destruct (_websocket w); by eexists.
Qed.

Lemma async_set_temperature_returns (temp_code : string) :
  returns (async_set_temperature temp_code).
Proof.
  intros w. destruct (_ensure_connected_returns w) as (b & w1 & Hensure & Hflag).
  unfold async_set_temperature. rewrite (bind_ok _ _ _ _ _ Hensure).
  destruct b; cbn [negb]; [|by eexists _, _].
  apply try_except_returns.
  - repeat first
      [ apply returns_terminates; solve [auto using returns_ret, returns_gets, returns_log]
      | apply terminates_pure, build_publish_terminates
      | apply ws_send_terminates
      | apply terminates_bind; [|intros ?] ].
  - intros e. apply returns_bind; [apply returns_log|]. intros _. apply returns_ret.
Qed.

Lemma async_set_volume_returns (volume_code : string) :
  returns (async_set_volume volume_code).
Proof.
  intros w. destruct (_ensure_connected_returns w) as (b & w1 & Hensure & Hflag).
  unfold async_set_volume. rewrite (bind_ok _ _ _ _ _ Hensure).
  destruct b; cbn [negb]; [|by eexists _, _].
  apply try_except_returns.
  - repeat first
      [ apply returns_terminates; solve [auto using returns_ret, returns_gets, returns_log]
      | apply terminates_pure, call_terminates
      | apply terminates_pure, build_publish_terminates
      | apply ws_send_terminates
      | apply terminates_bind; [|intros ?] ].
  - intros e. apply returns_bind; [apply returns_log|]. intros _. apply returns_ret.
Qed.

End CommandFailures.

(** X18. Both commands always return a [bool].  When the socket refuses the
    frame they answer [False] after an error log and leave the connection
    flag set; [async_set_volume] does the same, without sending, for a code
    that [int] rejects. *)
Theorem commands_fail_quietly `{!PyLib} (w : world) (code : string) :
  (∃ b w', async_set_temperature code w = (Ok b, w'))
  ∧ (∃ b w', async_set_volume code w = (Ok b, w'))
  ∧ (∀ w1 e,
       _ensure_connected w = (Ok true, w1) →
       ws_send_error (env w1) = Some e →
       ∃ msg msg',
         async_set_temperature code w = (Ok false, emit (Log ERROR msg) w1)
         ∧ async_set_volume code w = (Ok false, emit (Log ERROR msg') w1))
  ∧ (∀ w1 e,
       _ensure_connected w = (Ok true, w1) →
       int_of_str code = inr e →
       ∃ msg, async_set_volume code w = (Ok false, emit (Log ERROR msg) w1)).
Proof.
  assert (∀ w1 e,
            _ensure_connected w = (Ok true, w1) →
            ws_send_error (env w1) = Some e ∨ int_of_str code = inr e →
            ∃ msg, async_set_volume code w = (Ok false, emit (Log ERROR msg) w1))
    as Hvolume.
  { intros w1 e Hensure Hfails. unfold async_set_volume.
    rewrite (bind_ok _ _ _ _ _ Hensure). cbn [negb].
    unfold try_except.
    unfold mbind at 1, M_bind at 1, mbindM at 1, pure at 1.
    destruct (int_of_str code) as [n|e'] eqn:Hint; cbn [call].
    2: { rewrite bind_log. by eexists. }
    destruct Hfails as [Hsend|?]; [|done].
    rewrite bind_gets, bind_gets. unfold command_topic.
    edestruct (publish_fails_when_send_fails (B := bool)) as (e' & ->);
      [exact Hsend|].
    rewrite bind_log. by eexists. }
  assert (∀ w1 e,
            _ensure_connected w = (Ok true, w1) →
            ws_send_error (env w1) = Some e →
            ∃ msg, async_set_temperature code w
                   = (Ok false, emit (Log ERROR msg) w1))
    as Htemperature.
  { intros w1 e Hensure Hsend. unfold async_set_temperature.
    rewrite (bind_ok _ _ _ _ _ Hensure). cbn [negb].
    unfold try_except. rewrite bind_gets, bind_gets. unfold command_topic.
    edestruct (publish_fails_when_send_fails (B := bool)) as (e' & ->);
      [exact Hsend|].
    rewrite bind_log. by eexists. }
  split; [|split; [|split]].
  - apply async_set_temperature_returns.
  - apply async_set_volume_returns.
  - intros w1 e Hensure Hsend.
    destruct (Htemperature w1 e Hensure Hsend) as (msg & Htemp).
    destruct (Hvolume w1 e Hensure (or_introl Hsend)) as (msg' & Hvol).
    by exists msg, msg'.
  - intros w1 e Hensure Hint. apply (Hvolume w1 e Hensure). by right.
Qed.

Lemma commands_fail_quietly_witness :
  let w := active None silent in
  (∃ msg, async_set_volume (H := Reference.python) "half" w
          = (Ok false, emit (Log ERROR msg) w))
  ∧ (∃ msg msg',
       async_set_temperature (H := Reference.python) "6" w
       = (Ok false, emit (Log ERROR msg) w)
       ∧ async_set_volume (H := Reference.python) "6" w
         = (Ok false, emit (Log ERROR msg') w)).
Proof.
  intros w. split.
  - destruct (commands_fail_quietly (H := Reference.python) w "half")
      as (_ & _ & _ & Hint).
    apply (Hint w ValueError); reflexivity.
  - destruct (commands_fail_quietly (H := Reference.python) w "6")
      as (_ & _ & Hsend & _).
    apply (Hsend w ConnectionClosedError); reflexivity.
Defined.

(** ** The snapshot under pushes *)

Section Pushed.
Context `{!PyLib}.

Lemma handle_mqtt_packet_data (packet : bytes) (w : world) :
  data (_handle_mqtt_packet _mqtt_callback packet w).2
  = overlay (pushed_by packet) (data w).
Proof.
  unfold pushed_by.
  destruct (Z.ltb_spec (len packet) 2) as [Hshort|Hlong].
  { by rewrite handle_short_packet. }
  destruct (getitem_lookup packet 0) as (first & _ & Hfirst); [lia|].
  rewrite Hfirst.
  destruct (Z.eqb_spec (Z.shiftr (Z.land (byte_val first) 240) 4) 3)
    as [Hthree|Hother].
  2: { destruct (handle_other_packet _mqtt_callback packet w)
         as (events & _ & ->).
       { intros (first' & Hfirst' & Htype). congruence. }
       cbn [snd andb]. rewrite data_emit_all.
       by destruct (_parse_mqtt_publish_packet packet) as [[[?|] [?|]]|?|]. }
  rewrite handle_publish_packet by (done || by eexists).
  cbn [andb].
  destruct (_parse_mqtt_publish_packet packet)
    as [[[topic|] [payload_bytes|]]|e|] eqn:Hparse; try done.
  destruct (negb _ && negb _); [|done]. cbn [andb].
  destruct (contains _ _ || contains _ _); [|done].
  unfold try_except. rewrite handle_publish_payload_steps.
  destruct (decode_utf8 payload_bytes) as [payload_str|e]; [|done].
  destruct (json_loads payload_str) as [document|e]; [|done].
  unfold reported_of, mbind, result_bind, bind.
  destruct (get document "state" (JDict [])) as [state|e|]; [|done..].
  destruct (get state "reported" (JDict [])) as [reported|e|]; [|done..].
  destruct (truthy reported) eqn:Htruthy.
  - rewrite _mqtt_callback_steps.
    destruct reported as [| | | | | |[|member members]]; try done.
  - destruct reported as [| | | | | |[|member members]]; try done;
      by destruct (has_key state "desired") as [[]|e|].
Qed.

End Pushed.

(** X19. The handler writes the snapshot in one way only: a PUBLISH packet on an
    accepted topic whose document has a [reported] object that is not empty
    overlays the snapshot with its members; every other packet leaves the
    snapshot as it is. *)
Theorem handler_overlays_the_reported_members `{!PyLib} (packet : bytes)
    (w : world) :
  data (_handle_mqtt_packet _mqtt_callback packet w).2
  = overlay (pushed_by packet) (data w)
  ∧ (∀ document members,
       carries packet document →
       reported_of document = Ok (JDict members) → members ≠ [] →
       pushed_by packet = Some members).
Proof.
  split; [apply handle_mqtt_packet_data|].
  intros document members (Htype & topic & payload_bytes & payload_str & Hparse
    & Htopic & Hpayload & Haccepted & Hdecode & Hloads) Hreported Hmembers.
  destruct Htype as (first & Hfirst & Htype).
  unfold pushed_by.
  replace (len packet <? 2) with false.
  2: { symmetry. apply Z.ltb_ge.
       destruct (Z.lt_ge_cases (len packet) 2) as [Hshort|]; [|done].
       unfold _parse_mqtt_publish_packet in Hparse.
       by replace (len packet <? 4) with true in Hparse by lia. }
  rewrite Hfirst, Hparse, Htype, Haccepted, Hdecode, Hloads, Hreported.
  replace (negb (topic =? "")%string) with true
    by (symmetry; apply negb_true_iff, String.eqb_neq, Htopic).
  rewrite bool_decide_eq_false_2 by done. cbn.
  by destruct members.
Qed.

Lemma handler_overlays_the_reported_members_witness :
  let w := idle (Some {["x" := JInt 1; "y" := JInt 2]}) silent in
  let document := JDict [("state", JDict [("reported", JDict [("y", JInt 9)])])] in
  let packet :=
    inbound_publish "$aws/things/dev1/shadow/get/accepted" (Reference.dumps document) in
  data (_handle_mqtt_packet (H := Reference.python) _mqtt_callback packet w).2
  = Some (list_to_map [("y", JInt 9)] ∪ {["x" := JInt 1; "y" := JInt 2]}).
Proof.
  intros w document packet.
  destruct (handler_overlays_the_reported_members (H := Reference.python) packet w)
    as [Hdata Hpushed].
  rewrite Hdata, (Hpushed document [("y", JInt 9)]); [reflexivity| |reflexivity|discriminate].
  split; [exists 48; split; reflexivity|].
  exists "$aws/things/dev1/shadow/get/accepted",
    (encode_utf8 (Reference.dumps document)), (Reference.dumps document).
  split; [reflexivity|]. split; [discriminate|]. split; [discriminate|].
  split; [reflexivity|]. split; reflexivity.
Defined.

(** ** The listener *)

Lemma listening_and_snapshot_advance (w : world) :
  listening_and_snapshot (advance w) = listening_and_snapshot w.
Proof. unfold advance. by destruct (upcoming w). Qed.

#[local] Hint Resolve listening_and_snapshot_advance : respects.

Section Drain.
Context `{!PyLib}.

Lemma connect_keeps_listening : respects (kept listening_and_snapshot) connect.
Proof. unfold connect, connect_attempt, connect_failed. respects_steps. Qed.

#[local] Hint Resolve connect_keeps_listening : respects.






End Drain.



(** ** The snapshot under pushes and polls *)

(** X21. Pushes accumulate.  After two pushes the snapshot holds the members of
    the second, then those of the first that the second does not name,
    then what it held before. *)
Theorem pushes_accumulate (w : world) (first second : list (string * json)) :
  let w2 := (_mqtt_callback (JDict second) (_mqtt_callback (JDict first) w).2).2 in
  data w2 = Some (list_to_map second ∪ (list_to_map first ∪ data_or_empty w))
  ∧ (∀ k v, (list_to_map second : gmap string json) !! k = Some v →
            data_or_empty w2 !! k = Some v)
  ∧ (∀ k v, (list_to_map second : gmap string json) !! k = None →
            (list_to_map first : gmap string json) !! k = Some v →
            data_or_empty w2 !! k = Some v)
  ∧ (∀ k, (list_to_map second : gmap string json) !! k = None →
          (list_to_map first : gmap string json) !! k = None →
          data_or_empty w2 !! k = data_or_empty w !! k).
Proof.
  intros w2. subst w2. rewrite !_mqtt_callback_steps. cbn [mapping snd].
  set (merged := list_to_map second ∪ _).
  change (data_or_empty (emit ListenersUpdated
            (set_last_update_success true (set_data (Some merged) _))))
    with merged.
  split; [done|]. subst merged.
  change (data_or_empty (emit ListenersUpdated
            (set_last_update_success true
               (set_data (Some (list_to_map first ∪ data_or_empty w)) w))))
    with (list_to_map first ∪ data_or_empty w).
  split; [|split].
  - intros k v Hk. by apply lookup_union_Some_l.
  - intros k v Hnone Hk. rewrite lookup_union_r by done.
    by apply lookup_union_Some_l.
  - intros k Hnone Hnone'. by rewrite !lookup_union_r.
Qed.

Lemma pushes_accumulate_witness :
  let w := idle (Some {["x" := JInt 1; "y" := JInt 2]}) silent in
  let w2 := (_mqtt_callback (JDict [("y", JInt 3); ("z", JInt 4)])
               (_mqtt_callback (JDict [("y", JInt 9); ("t", JInt 5)]) w).2).2 in
  data_or_empty w2 !! "y" = Some (JInt 3)
  ∧ data_or_empty w2 !! "t" = Some (JInt 5)
  ∧ data_or_empty w2 !! "x" = Some (JInt 1).
Proof.
  intros w w2.
  destruct (pushes_accumulate w [("y", JInt 9); ("t", JInt 5)]
              [("y", JInt 3); ("z", JInt 4)]) as (_ & Hsecond & Hfirst & Hold).
  split; [by apply Hsecond|]. split; [by apply Hfirst|].
  by rewrite Hold.
Defined.

(** X22. A field never leaves the snapshot: a push, a packet of the connection
    and a refresh, failed or not, keep every name the snapshot holds. *)
Theorem snapshot_fields_never_vanish `{!PyLib} (w : world) (k : string) :
  is_Some (data_or_empty w !! k) →
  (∀ payload, is_Some (data_or_empty (_mqtt_callback payload w).2 !! k))
  ∧ (∀ packet,
       is_Some (data_or_empty (_handle_mqtt_packet _mqtt_callback packet w).2 !! k))
  ∧ is_Some (data_or_empty (async_refresh w).2 !! k).
Proof.
  intros Hk. split; [|split].
  - intros payload. rewrite _mqtt_callback_steps.
    destruct (mapping payload) as [items|e|]; [|done..].
    cbn [snd]. unfold data_or_empty at 1.
    cbn [data emit set_last_update_success set_data default]. unfold id.
    apply lookup_union_is_Some. by right.
  - intros packet. unfold data_or_empty at 1.
    rewrite handle_mqtt_packet_data.
    destruct (pushed_by packet) as [members|]; [|done].
    cbn [overlay default]. unfold id. apply lookup_union_is_Some. by right.
  - destruct (async_refresh_data w) as (w' & -> & Hdata). cbn [snd].
    unfold data_or_empty at 1.
    destruct Hdata as [->|[->|(device & water_data & status & _ & _ & _ & _ & ->)]];
      [done..|].
    cbn [default]. unfold id. rewrite !lookup_union_is_Some.
    destruct (decide (k = "water_data")) as [->|Hwater].
    { right. right. rewrite lookup_insert_ne by done.
      by rewrite lookup_insert_eq. }
    destruct (decide (k = "device_id")) as [->|Hdevice].
    { right. right. by rewrite lookup_insert_eq. }
    left. destruct Hk as [v Hk]. exists v. apply map_lookup_filter_Some.
    split; [done|]. cbn [fst].
    rewrite !not_elem_of_cons. repeat split; [done..|apply not_elem_of_nil].
Qed.

Lemma snapshot_fields_never_vanish_witness :
  let w := idle (Some {["x" := JInt 1; "water_data" := JInt 0]})
             (online (JDict []) (JDict [("x", JInt 5)])) in
  is_Some (data_or_empty (async_refresh w).2 !! "x")
  ∧ is_Some (data_or_empty (async_refresh w).2 !! "water_data").
Proof.
  intros w. split.
  - apply (snapshot_fields_never_vanish (H := Reference.python) w "x"). by eexists.
  - apply (snapshot_fields_never_vanish (H := Reference.python) w "water_data").
    by eexists.
Defined.

Lemma not_api_field (k : string) :
  k ∉ ["water_data"; "device_id"] ↔ ¬ (k = "water_data" ∨ k = "device_id").
Proof.
  rewrite !not_elem_of_cons. split; [tauto|].
  intros Hk. repeat split; [tauto..|apply not_elem_of_nil].
Qed.

(** X23. The table of a successful poll, name by name.  Under [water_data] and
    [device_id] the snapshot gets the member of that name of the status if
    it has one, and the fresh water data and the device id otherwise; what
    it held there before is dropped.  Under any other name it keeps what it
    held, and gets the member of the status only if it held nothing. *)
Theorem poll_merge_priority (w : world) (device : string) (water_data : json)
    (status : list (string * json)) (k : string) :
  coordinator_device_id w = Some device → device ≠ "" →
  water_data_response (env w) = inl water_data →
  device_status_response (env w) = inl (JDict status) →
  data_or_empty (async_refresh w).2 !! k
  = if bool_decide (k = "water_data" ∨ k = "device_id") then
      match (list_to_map status : gmap string json) !! k with
      | Some v => Some v
      | None => Some (if bool_decide (k = "water_data") then water_data
                      else JStr device)
      end
    else
      match data_or_empty w !! k with
      | Some v => Some v
      | None => (list_to_map status : gmap string json) !! k
      end.
Proof.
  intros Hdevice Hne Hwater Hstatus.
  rewrite async_refresh_steps, _async_update_data_steps, Hdevice, Hwater, Hstatus.
  replace (String.eqb device "") with false
    by (symmetry; by apply String.eqb_neq).
  cbn [snd]. unfold data_or_empty at 1.
  cbn [data emit set_last_update_success set_data default]. unfold id.
  set (kept_fields := filter _ _).
  assert (kept_fields !! k
          = if bool_decide (k = "water_data" ∨ k = "device_id") then None
            else data_or_empty w !! k) as Hkept.
  { subst kept_fields. case_bool_decide as Hk.
    - apply map_lookup_filter_None. right. intros v _. cbn [fst].
      rewrite not_api_field. tauto.
    - destruct (data_or_empty w !! k) as [v|] eqn:Hold.
      + apply map_lookup_filter_Some. split; [done|]. cbn [fst].
        by apply not_api_field.
      + apply map_lookup_filter_None. by left. }
  destruct (kept_fields !! k) as [v|] eqn:Hlookup.
  - rewrite (lookup_union_Some_l _ _ _ _ Hlookup).
    case_bool_decide; [done|]. by rewrite <- Hkept.
  - rewrite lookup_union_r by done.
    destruct ((list_to_map status : gmap string json) !! k) as [v|] eqn:Hnew.
    + rewrite (lookup_union_Some_l _ _ _ _ Hnew).
      case_bool_decide; [done|]. by rewrite <- Hkept.
    + rewrite lookup_union_r by done.
      case_bool_decide as Hk.
      * destruct Hk as [-> | ->].
        -- rewrite lookup_insert_ne by done. by rewrite lookup_insert_eq.
        -- by rewrite lookup_insert_eq.
      * rewrite <- Hkept. rewrite !lookup_insert_ne by naive_solver. done.
Qed.

Lemma poll_merge_priority_witness :
  let w := idle (Some {["x" := JInt 1; "water_data" := JInt 0]})
             (online (JDict [("total", JInt 7)])
                (JDict [("x", JInt 5); ("z", JInt 7); ("device_id", JStr "other")])) in
  let polled := data_or_empty (async_refresh w).2 in
  polled !! "x" = Some (JInt 1) ∧ polled !! "z" = Some (JInt 7)
  ∧ polled !! "water_data" = Some (JDict [("total", JInt 7)])
  ∧ polled !! "device_id" = Some (JStr "other").
Proof.
  intros w polled. subst polled.
  pose proof (λ k, poll_merge_priority w "dev1" (JDict [("total", JInt 7)])
                     [("x", JInt 5); ("z", JInt 7); ("device_id", JStr "other")] k
                     eq_refl ltac:(discriminate) eq_refl eq_refl) as Htable.
  rewrite !Htable. by vm_compute.
Defined.

(** X24. Without a device id the coordinator does not ask the API: whatever the
    API would answer, the refresh succeeds and the snapshot stays, an
    absent one becoming empty. *)
Theorem poll_without_device_id (w : world) :
  coordinator_device_id w = None ∨ coordinator_device_id w = Some "" →
  _async_update_data w = (Ok (data_or_empty w), w)
  ∧ async_refresh w
    = (Ok (), emit ListenersUpdated
                (set_last_update_success true
                   (set_data (Some (data_or_empty w)) w))).
Proof.
  intros Hdevice. rewrite async_refresh_steps, _async_update_data_steps.
  by destruct Hdevice as [->| ->].
Qed.

Lemma poll_without_device_id_witness :
  let w := {| data := None; coordinator_device_id := None;
              last_update_success := false; device_id := "dev1";
              connected := false; _websocket := None; _listen_task := None;
              _listening := false;
              env := online (JDict []) (JDict [("x", JInt 5)]);
              upcoming := []; inbox := []; trace := [] |} in
  data (async_refresh w).2 = Some ∅ ∧ last_update_success (async_refresh w).2 = true.
Proof.
  intros w. destruct (poll_without_device_id w (or_introl eq_refl)) as [_ ->].
  by split.
Defined.

(** X25. With nothing to preserve, a failed poll fails the update: when the API
    raises, or the status it returns is not an object, and the snapshot is
    absent or empty, [_async_update_data] raises [UpdateFailed]; the
    refresh then leaves the snapshot as it is and marks the update as
    failed. *)
Theorem poll_failure_without_snapshot (w : world) (device : string) :
  coordinator_device_id w = Some device → device ≠ "" →
  (∃ e, water_data_response (env w) = inr e)
  ∨ (∃ e, device_status_response (env w) = inr e)
  ∨ (∃ status, device_status_response (env w) = inl status
               ∧ ∀ members, status ≠ JDict members) →
  data_truthy w = false →
  _async_update_data w = (Raise UpdateFailed, w)
  ∧ ∃ w', async_refresh w = (Ok (), w')
          ∧ data w' = data w ∧ last_update_success w' = false.
Proof.
  intros Hdevice Hne Hfails Hempty.
  assert (_async_update_data w = (Raise UpdateFailed, w)) as Hupdate.
  { rewrite _async_update_data_steps, Hdevice.
    replace (String.eqb device "") with false
      by (symmetry; by apply String.eqb_neq).
    assert (preserve_or_fail w = (Raise UpdateFailed, w)) as Hfail
      by (unfold preserve_or_fail; by rewrite Hempty).
    destruct Hfails as [[e ->]|[[e ->]|(status & -> & Hother)]].
    - done.
    - by destruct (water_data_response (env w)).
    - destruct (water_data_response (env w)); [|done].
      destruct status; try done. by destruct (Hother d). }
  split; [done|]. rewrite async_refresh_steps, Hupdate. by eexists.
Qed.

Lemma poll_failure_without_snapshot_witness :
  let w := idle None silent in
  ∃ w', async_refresh w = (Ok (), w')
        ∧ data w' = None ∧ last_update_success w' = false.
Proof.
  intros w.
  destruct (poll_failure_without_snapshot w "dev1" eq_refl ltac:(discriminate))
    as (_ & w' & Hrun & Hdata & Hflag); [left; by eexists|reflexivity|].
  exists w'. split; [exact Hrun|]. split; [exact Hdata|exact Hflag].
Defined.

(** ** The coordinator's client, the button and the temperature select *)

Lemma new_client_snapshot (device : string) (w : world) :
  snapshot_of (new_client device w) = snapshot_of w.
Proof. done. Qed.

Section Entities.
Context `{!PyLib}.

Lemma connect_keeps_device_id : respects (kept device_id) connect.
Proof.
  assert (∀ w, device_id (advance w) = device_id w) as Hadvance
    by apply device_id_advance.
  unfold connect, connect_attempt, connect_failed. respects_steps.
Qed.

Lemma _setup_mqtt_with_device (w : world) (mqtt_client : bool) (device : string) :
  coordinator_device_id w = Some device → device ≠ "" →
  ∃ client w',
    DeermaWaterCoordinator._setup_mqtt mqtt_client w = (Ok client, w')
    ∧ snapshot_of w' = snapshot_of w
    ∧ device_id w' = device ∧ connected w' = client
    ∧ (client = true → is_Some (_websocket w'))
    ∧ (client = false → _websocket w' = None).
Proof.
  intros Hdevice Hne.
  unfold DeermaWaterCoordinator._setup_mqtt. rewrite bind_gets.
  unfold device_id_truthy. rewrite Hdevice.
  replace (String.eqb device "") with false
    by (symmetry; by apply String.eqb_neq).
  cbn [negb]. unfold try_except. rewrite bind_log, bind_gets, bind_modify.
  cbn [coordinator_device_id emit]. rewrite Hdevice. cbn [default]. unfold id.
  set (w0 := new_client device _).
  destruct (connect_cases w0) as (b & w1 & Hconnect & Hflag & Htrue & Hfalse & _).
  pose proof (connect_keeps_snapshot w0) as Hsnapshot.
  pose proof (connect_keeps_device_id w0) as Hid.
  rewrite Hconnect in Hsnapshot, Hid. unfold kept in Hsnapshot, Hid.
  cbn [snd] in Hsnapshot, Hid.
  unfold async_connect. rewrite (bind_ok _ _ _ _ _ Hconnect).
  destruct b; rewrite bind_log; eexists _, _; (split; [reflexivity|]);
    cbn [emit]; (split; [exact Hsnapshot|]); (split; [exact Hid|]);
    (split; [exact Hflag|]).
  - split; [|done]. intros _. by apply Htrue.
  - split; [done|]. intros _. by apply Hfalse.
Qed.

Lemma coordinator_refuses (w : world) (mqtt_client : bool) (code : string) :
  mqtt_client = false ∨ device_id_truthy w = false →
  ∃ msg msg',
    DeermaWaterCoordinator.async_set_temperature mqtt_client code w
    = (Ok false, emit (Log WARNING msg) w)
    ∧ DeermaWaterCoordinator.async_set_water_volume mqtt_client code w
      = (Ok false, emit (Log WARNING msg') w).
Proof.
  intros Hnone.
  unfold DeermaWaterCoordinator.async_set_temperature,
    DeermaWaterCoordinator.async_set_water_volume.
  rewrite !bind_gets.
  assert (negb (device_id_truthy w) || negb mqtt_client = true) as ->.
  { destruct Hnone as [-> | ->]; [apply orb_true_r|done]. }
  rewrite !bind_log. by eexists _, _.
Qed.

Lemma coordinator_passes_on (w : world) (code : string) :
  device_id_truthy w = true →
  DeermaWaterCoordinator.async_set_temperature true code w
  = async_set_temperature code w
  ∧ DeermaWaterCoordinator.async_set_water_volume true code w
    = async_set_volume code w.
Proof.
  intros Hid.
  unfold DeermaWaterCoordinator.async_set_temperature,
    DeermaWaterCoordinator.async_set_water_volume.
  by rewrite !bind_gets, Hid.
Qed.

(** A temperature command of the coordinator on a connected client whose
    socket takes the frame. *)
Lemma coordinator_set_temperature_steps (w : world) (url code : string) :
  device_id_truthy w = true → connected w = true →
  _websocket w = Some url → ws_send_error (env w) = None →
  len (encode_utf8 (command_topic w)) < 65536 →
  ∃ frame,
    _build_mqtt_publish_packet (command_topic w)
      (desired_temperature (default 0 (temp_mapping !! code)) (device_id w)) 4
    = Ok frame
    ∧ publish_layout (command_topic w) 4
        (json_dumps
           (desired_temperature (default 0 (temp_mapping !! code)) (device_id w)))
        frame
    ∧ DeermaWaterCoordinator.async_set_temperature true code w
      = (Ok true,
         emit_all [Sent frame; Log INFO "已发送水温设置指令: code=%s, temp=%s"] w).
Proof.
  intros Hid Hconnected Hopen Hsends Htopic.
  destruct (coordinator_passes_on w code Hid) as [-> _].
  rewrite (async_set_temperature_steps w w url
             (_ensure_connected_connected w Hconnected) Hopen Hsends).
  unfold command_topic, desired_temperature in *.
  edestruct build_publish_ok as (frame & Hframe); [exact Htopic| |].
  2: { rewrite Hframe. exists frame. split; [done|]. split; [|done].
       apply build_publish_on_the_wire; [exact Hframe|lia]. }
  lia.
Qed.

End Entities.

(** X26. Setting up the client.  Without a device id [_setup_mqtt] warns and
    leaves the coordinator's client as it is.  With one it makes a new
    client for that device and connects it, never raising; the coordinator
    keeps the client exactly when the connection came up, and the snapshot
    is untouched.  After a failure the coordinator has no client, so every
    later command is refused with a warning, without another attempt to
    connect. *)
Theorem setup_mqtt_outcome `{!PyLib} (w : world) (mqtt_client : bool) :
  (device_id_truthy w = false →
   DeermaWaterCoordinator._setup_mqtt mqtt_client w
   = (Ok mqtt_client,
      emit (Log WARNING "Cannot setup MQTT: device_id is not available") w))
  ∧ (∀ device,
       coordinator_device_id w = Some device → device ≠ "" →
       ∃ client w',
         DeermaWaterCoordinator._setup_mqtt mqtt_client w = (Ok client, w')
         ∧ snapshot_of w' = snapshot_of w
         ∧ device_id w' = device ∧ connected w' = client
         ∧ (client = true → is_Some (_websocket w'))
         ∧ (client = false →
            _websocket w' = None
            ∧ ∀ code w2,
                ∃ msg msg',
                  DeermaWaterCoordinator.async_set_temperature client code w2
                  = (Ok false, emit (Log WARNING msg) w2)
                  ∧ DeermaWaterCoordinator.async_set_water_volume client code w2
                    = (Ok false, emit (Log WARNING msg') w2))).
Proof.
  split.
  - intros Hnone. unfold DeermaWaterCoordinator._setup_mqtt.
    by rewrite bind_gets, Hnone.
  - intros device Hdevice Hne.
    destruct (_setup_mqtt_with_device w mqtt_client device Hdevice Hne)
      as (client & w' & Hsetup & Hsnapshot & Hid & Hflag & Htrue & Hfalse).
    exists client, w'. repeat (split; [done|]).
    intros ->. split; [by apply Hfalse|].
    intros code w2. apply coordinator_refuses. by left.
Qed.

Lemma setup_mqtt_outcome_witness :
  let w := idle None silent in
  ∃ w', DeermaWaterCoordinator._setup_mqtt (H := Reference.python) false w
        = (Ok false, w')
        ∧ _websocket w' = None
        ∧ ∃ msg, DeermaWaterCoordinator.async_set_temperature
                   (H := Reference.python) false "6"
                   (set_connected true (active None (online (JDict []) (JDict []))))
                 = (Ok false,
                    emit (Log WARNING msg)
                      (set_connected true (active None (online (JDict []) (JDict []))))).
Proof.
  intros w.
  destruct (setup_mqtt_outcome (H := Reference.python) w false) as [_ Hdevice].
  destruct (Hdevice "dev1" eq_refl ltac:(discriminate))
    as (client & w' & Hsetup & _ & _ & _ & _ & Hfalse).
  assert (client = false) as ->.
  { apply (f_equal fst) in Hsetup. vm_compute in Hsetup. by injection Hsetup. }
  destruct (Hfalse eq_refl) as [Hsocket Hrefused].
  exists w'. split; [exact Hsetup|]. split; [exact Hsocket|].
  destruct (Hrefused "6"
              (set_connected true (active None (online (JDict []) (JDict [])))))
    as (msg & _ & Htemperature & _).
  exists msg. exact Htemperature.
Defined.

(** X27. The quick button.  Pressing it never raises.  With a device id and
    a connected client whose socket takes the frame it sends one frame, the
    PUBLISH of [SetTemp] 6 with packet identifier 4 on the command topic
    (on the wire: the byte 0x32, the length, the topic, the identifier and
    the JSON text of the document), and logs; without a client or a device
    id it sends nothing and logs a warning and an error. *)
Theorem quick_55_button_press `{!PyLib} (w : world) (mqtt_client : bool) :
  (∃ w', DeermaQuick55Button.async_press mqtt_client w = (Ok (), w'))
  ∧ (mqtt_client = false ∨ device_id_truthy w = false →
     ∃ msg msg',
       DeermaQuick55Button.async_press mqtt_client w
       = (Ok (), emit_all [Log WARNING msg; Log ERROR msg'] w))
  ∧ (∀ url,
       mqtt_client = true → device_id_truthy w = true → connected w = true →
       _websocket w = Some url → ws_send_error (env w) = None →
       len (encode_utf8 (command_topic w)) < 65536 →
       ∃ frame msg msg',
         _build_mqtt_publish_packet (command_topic w)
           (desired_temperature 6 (device_id w)) 4 = Ok frame
         ∧ publish_layout (command_topic w) 4
             (json_dumps (desired_temperature 6 (device_id w))) frame
         ∧ DeermaQuick55Button.async_press mqtt_client w
           = (Ok (), emit_all [Sent frame; Log INFO msg; Log INFO msg'] w)).
Proof.
  split; [|split].
  - unfold DeermaQuick55Button.async_press.
    destruct mqtt_client, (device_id_truthy w) eqn:Hid.
    2-4: edestruct (coordinator_refuses w) as (msg & _ & Hrefused & _);
      [by (left + right)|];
      rewrite (bind_ok _ _ _ _ _ Hrefused); by eexists.
    destruct (coordinator_passes_on w "6" Hid) as [Hpass _].
    destruct (async_set_temperature_returns "6" w) as (b & w' & Hcommand).
    rewrite <- Hpass in Hcommand. rewrite (bind_ok _ _ _ _ _ Hcommand).
    destruct b; by eexists.
  - intros Hnone. unfold DeermaQuick55Button.async_press.
    destruct (coordinator_refuses w mqtt_client "6" Hnone)
      as (msg & _ & Hrefused & _).
    rewrite (bind_ok _ _ _ _ _ Hrefused). by eexists _, _.
  - intros url -> Hid Hconnected Hopen Hsends Htopic.
    destruct (coordinator_set_temperature_steps w url "6" Hid Hconnected Hopen
                Hsends Htopic) as (frame & Hframe & Hlayout & Hcommand).
    unfold DeermaQuick55Button.async_press.
    rewrite (bind_ok _ _ _ _ _ Hcommand).
    exists frame. by eexists _, _.
Qed.

Lemma quick_55_button_press_witness :
  let w := active None (online (JDict []) (JDict [])) in
  (∃ frame msg msg',
     _build_mqtt_publish_packet (H := Reference.python)
       "$aws/things/dev1/shadow/update" (desired_temperature 6 "dev1") 4 = Ok frame
     ∧ publish_layout "$aws/things/dev1/shadow/update" 4
         (Reference.dumps (desired_temperature 6 "dev1")) frame
     ∧ DeermaQuick55Button.async_press (H := Reference.python) true w
       = (Ok (), emit_all [Sent frame; Log INFO msg; Log INFO msg'] w))
  ∧ ∃ msg msg',
      DeermaQuick55Button.async_press (H := Reference.python) false w
      = (Ok (), emit_all [Log WARNING msg; Log ERROR msg'] w).
Proof.
  intros w. split.
  - destruct (quick_55_button_press (H := Reference.python) w true)
      as (_ & _ & Hsent).
    apply (Hsent "wss://broker"); reflexivity.
  - destruct (quick_55_button_press (H := Reference.python) w false)
      as (_ & Hrefused & _).
    apply Hrefused. by left.
Defined.

Section SelectFacts.
Import DeermaTemperatureSelect.

Lemma current_option_steps (str : json → string) (self : attributes) (w : world) :
  current_option str self w
  = match temp_code (data_or_empty w) with
    | JNull => (Ok (default_option self), emit (Log DEBUG "使用默认选项: %s") w)
    | code =>
        match option_of self (str code) with
        | Some found =>
            (Ok found, emit (Log DEBUG "SetTemp=%s -> code=%s -> option=%s") w)
        | None =>
            (Ok (default_option self),
             emit_all [Log WARNING "无法找到 SetTemp=%s 对应的选项，映射表: %s";
                       Log DEBUG "使用默认选项: %s"] w)
        end
    end.
Proof.
  unfold current_option. rewrite bind_gets.
  destruct (temp_code (data_or_empty w)); try done;
    by destruct (option_of self _).
Qed.

Lemma temp_code_reported (data : gmap string json) (n : Z) :
  data !! "SetTemp" = Some (JInt n) →
  (n = 0 → data !! "setTemp" = None ∧ data !! "temperature_code" = None) →
  temp_code data = if n =? 0 then JNull else JInt n.
Proof.
  intros Hset Hzero. unfold temp_code. rewrite Hset. cbn [default]. unfold id.
  change (truthy (JInt n)) with (negb (n =? 0)).
  destruct (Z.eqb_spec n 0) as [Hn|Hn]; cbn [negb].
  - by destruct (Hzero Hn) as [-> ->].
  - change (truthy (JInt n)) with (negb (n =? 0)).
    by rewrite (proj2 (Z.eqb_neq n 0) Hn).
Qed.

(** X28. The select shows what it set.  For every option of the fallback
    mapping, the client publishes for the code of the option the [SetTemp]
    of that numeral, and once the snapshot holds that [SetTemp] the select
    shows the option again (for the code 0, which is falsy, as long as
    [setTemp] and [temperature_code] are absent). *)
Theorem select_shows_what_it_set (str : json → string) (chosen code : string) :
  (∀ n, str (JInt n) = pretty n) →
  (chosen, code) ∈ _temp_mapping fallback →
  ∃ n, temp_mapping !! code = Some n
       ∧ code_of fallback chosen = Some code ∧ code ≠ ""
       ∧ ∀ w,
           data_or_empty w !! "SetTemp" = Some (JInt n) →
           (n = 0 → data_or_empty w !! "setTemp" = None
                    ∧ data_or_empty w !! "temperature_code" = None) →
           ∃ events,
             forallb is_log events = true
             ∧ current_option str fallback w = (Ok chosen, emit_all events w).
Proof.
  intros Hstr Hin. cbn [fallback _temp_mapping] in Hin.
  repeat (apply elem_of_cons in Hin as [[= -> ->]|Hin]);
    [..|by apply elem_of_nil in Hin];
    (eexists; split; [reflexivity|]; split; [reflexivity|];
     split; [discriminate|]);
    cbn [snd]; intros w Hset Hzero;
    rewrite current_option_steps, (temp_code_reported _ _ Hset Hzero);
    cbn [Z.eqb]; rewrite ?Hstr;
    try match goal with
        | |- context [option_of fallback (pretty ?k)] =>
            let found := eval vm_compute in (option_of fallback (pretty k)) in
            assert (option_of fallback (pretty k) = found) as ->
              by (vm_compute; reflexivity)
        end;
    eexists [_]; (split; [|reflexivity]); reflexivity.
Qed.

(** X29. Selecting an option.  An option the mapping does not know, or
    whose code is empty, costs an error log and nothing else.  For a known
    option, with a device id and a connected client whose socket takes the
    frame, the select publishes the [SetTemp] the client's table gives for
    the code of the option (0 for a code that is not in the table), on the
    wire the byte 0x32, the length, the topic, the identifier 4 and the
    JSON text of the document, then asks the coordinator for a refresh;
    without a client it logs a warning and an error and asks for no
    refresh. *)
Theorem select_option_outcome `{!PyLib} (async_request_refresh : M unit)
    (self : attributes) (w : world) (mqtt_client : bool) (chosen : string) :
  (default "" (code_of self chosen) = "" →
   ∃ msg, async_select_option async_request_refresh self mqtt_client chosen w
          = (Ok (), emit (Log ERROR msg) w))
  ∧ (∀ code url,
       code_of self chosen = Some code → code ≠ "" →
       mqtt_client = true → device_id_truthy w = true → connected w = true →
       _websocket w = Some url → ws_send_error (env w) = None →
       len (encode_utf8 (command_topic w)) < 65536 →
       ∃ frame msg,
         _build_mqtt_publish_packet (command_topic w)
           (desired_temperature (default 0 (temp_mapping !! code)) (device_id w)) 4
         = Ok frame
         ∧ publish_layout (command_topic w) 4
             (json_dumps
                (desired_temperature (default 0 (temp_mapping !! code))
                   (device_id w)))
             frame
         ∧ async_select_option async_request_refresh self mqtt_client chosen w
           = async_request_refresh (emit_all [Sent frame; Log INFO msg] w))
  ∧ (∀ code,
       code_of self chosen = Some code → code ≠ "" →
       mqtt_client = false ∨ device_id_truthy w = false →
       ∃ msg msg',
         async_select_option async_request_refresh self mqtt_client chosen w
         = (Ok (), emit_all [Log WARNING msg; Log ERROR msg'] w)).
Proof.
  unfold async_select_option. split; [|split].
  - intros ->. by eexists.
  - intros code url -> Hcode -> Hid Hconnected Hopen Hsends Htopic.
    cbn [default]. unfold id.
    replace (String.eqb code "") with false
      by (symmetry; by apply String.eqb_neq).
    destruct (coordinator_set_temperature_steps w url code Hid Hconnected Hopen
                Hsends Htopic) as (frame & Hframe & Hlayout & Hcommand).
    rewrite (bind_ok _ _ _ _ _ Hcommand). by eexists _, _.
  - intros code -> Hcode Hnone. cbn [default]. unfold id.
    replace (String.eqb code "") with false
      by (symmetry; by apply String.eqb_neq).
    destruct (coordinator_refuses w mqtt_client code Hnone)
      as (msg & _ & Hrefused & _).
    rewrite (bind_ok _ _ _ _ _ Hrefused). by eexists _, _.
Qed.

End SelectFacts.

Lemma select_shows_what_it_set_witness :
  let str := λ v, match v with JInt n => pretty n | JStr s => s | _ => "" end in
  let w := idle (Some {["SetTemp" := JInt 6; "TDS" := JInt 12]}) silent in
  ∃ events,
    forallb is_log events = true
    ∧ DeermaTemperatureSelect.current_option str
        DeermaTemperatureSelect.fallback w
      = (Ok "55℃", emit_all events w).
Proof.
  intros str w.
  destruct (select_shows_what_it_set str "55℃" "6") as (n & Hn & _ & _ & Hshown).
  - intros n. reflexivity.
  - repeat constructor.
  - assert (n = 6) as -> by (vm_compute in Hn; by injection Hn).
    apply Hshown; [reflexivity|]. intros Hzero. discriminate Hzero.
Defined.

Lemma select_option_outcome_witness :
  let w := active None (online (JDict []) (JDict [])) in
  (∃ frame msg,
     _build_mqtt_publish_packet (H := Reference.python)
       "$aws/things/dev1/shadow/update" (desired_temperature 7 "dev1") 4 = Ok frame
     ∧ publish_layout "$aws/things/dev1/shadow/update" 4
         (Reference.dumps (desired_temperature 7 "dev1")) frame
     ∧ DeermaTemperatureSelect.async_select_option (H := Reference.python)
         async_refresh DeermaTemperatureSelect.fallback true "75℃" w
       = async_refresh (emit_all [Sent frame; Log INFO msg] w))
  ∧ ∃ msg, DeermaTemperatureSelect.async_select_option (H := Reference.python)
             async_refresh DeermaTemperatureSelect.fallback true "60℃" w
           = (Ok (), emit (Log ERROR msg) w).
Proof.
  intros w.
  destruct (select_option_outcome (H := Reference.python) async_refresh DeermaTemperatureSelect.fallback w
              true "75℃") as (_ & Hknown & _).
  destruct (select_option_outcome (H := Reference.python) async_refresh DeermaTemperatureSelect.fallback w
              true "60℃") as (Hunknown & _).
  split.
  - apply (Hknown "7" "wss://broker"); try reflexivity. discriminate.
  - apply Hunknown. reflexivity.
Defined.
